(** * Main.py: consensus QSAR inference script, as a shallow embedding

    The script is glue code around external collaborators (RDKit, Mordred,
    pandas, three pickled regressors, a pickled preprocessing pipeline and a
    pickled applicability-domain classifier).  The collaborators are taken as
    fields of an environment record; everything the script itself does (input
    dispatch, column assignment, unit conversion, mean / standard deviation,
    rounding, display string, export selection) is written out.

    Numbers: the script computes in binary64.  Values are modelled here as
    real numbers, so [np.mean], [np.std], [10**-(c)] and [round(df, 3)] are
    their exact mathematical counterparts; floating-point rounding error is
    outside the model.  What is verified is which values feed which formula
    and in which order the stages run.

    Command line and console: a [Namespace] stands for a command line made
    of the script's three options ([--smiles], [--filename], [--summary]),
    each with its value.  On any other command line ([-h], an argument it
    does not know, an option without its value) argparse ends the run inside
    [parse_args()] with its own message and status; those runs are outside
    the model.  Writing to standard output is taken to succeed; a closed
    pipe or a console that cannot encode a character is outside the model
    too. *)

From Stdlib Require Import List String Ascii ZArith Reals Lra Lia Bool Arith.
From Stdlib Require Import DecimalString.
From Stdlib Require DecimalNat.
Import ListNotations.

Open Scope string_scope.

(* ------------------------------------------------------------------ *)
(** ** Process outcomes, observable events, and the script monad *)

(** How a run of the interpreter ends abnormally. *)
Inductive halt : Type :=
| SysExit (code : Z)           (* sys.exit(code), also argparse's usage error *)
| Traceback (exc : string).    (* an exception nobody catches *)

(** Exit status of the process for an abnormal end: an uncaught exception
    makes the interpreter exit with status 1. *)
Definition exit_status (h : halt) : Z :=
  match h with
  | SysExit c => c
  | Traceback _ => 1%Z
  end.

(** A call into a library either raises (the exception's name) or returns. *)
Definition raises (A : Type) : Type := (string + A)%type.

(** Cells of a data frame.  [MordredError] and [MordredMissing] stand for
    instances of mordred's [error.Error] and [error.Missing]. *)
Inductive cell : Type :=
| Str (s : string)
| Num (x : R)
| Int (z : Z)
| NaN
| MordredError
| MordredMissing.

(** A pandas DataFrame with the default [RangeIndex]: the number of rows and
    the labelled columns, in order. *)
Record Frame : Type := mkFrame {
  nrows : nat;
  columns : list (string * list cell)
}.

Inductive event : Type :=
| Print (text : string)
| PrintFrame (f : Frame)
| ToExcel (path : string) (f : Frame).

(** What has been observed so far, and how the computation stands. *)
Definition M (A : Type) : Type := (list event * (halt + A))%type.

Definition ret {A} (a : A) : M A := ([], inr a).

Definition bind {A B} (m : M A) (k : A -> M B) : M B :=
  match m with
  | (t, inl h) => (t, inl h)
  | (t, inr a) => let (t', r) := k a in ((t ++ t')%list, r)
  end.

Notation "x <- c1 ;; c2" := (bind c1 (fun x => c2))
  (at level 61, c1 at next level, right associativity).
Notation "c1 ;; c2" := (bind c1 (fun _ => c2))
  (at level 61, right associativity).

Definition emit (e : event) : M unit := ([e], inr tt).

(** [print(s)]; the write to standard output is taken to succeed. *)
Definition print (s : string) : M unit := emit (Print s).
Definition sys_exit {A} (code : Z) : M A := ([], inl (SysExit code)).

(** A library call made outside any [try]: an exception ends the run. *)
Definition call {A} (r : raises A) : M A :=
  match r with
  | inl e => ([], inl (Traceback e))
  | inr a => ([], inr a)
  end.

Fixpoint mapM {A B} (f : A -> M B) (l : list A) : M (list B) :=
  match l with
  | [] => ret []
  | x :: l' => y <- f x ;; ys <- mapM f l' ;; ret (y :: ys)
  end.

(* ------------------------------------------------------------------ *)
(** ** Strings *)

(** Python's [needle in hay] on strings. *)
Fixpoint contains (needle hay : string) : bool :=
  if prefix needle hay then true
  else match hay with
       | EmptyString => false
       | String _ hay' => contains needle hay'
       end.

(** Truthiness of a [str]-or-[None] value, as tested by [if summary:]. *)
Definition truthy (v : option string) : bool :=
  match v with
  | None => false
  | Some s => negb (String.eqb s "")
  end.

Definition string_of_nat (n : nat) : string :=
  NilEmpty.string_of_uint (Nat.to_uint n).

(** [%d], [%m]: two digits, zero padded; [%Y]: four digits, zero padded. *)
Definition pad2 (n : nat) : string :=
  if (n <? 10)%nat then "0" ++ string_of_nat n else string_of_nat n.

Definition pad4 (n : nat) : string :=
  if (n <? 10)%nat then "000" ++ string_of_nat n
  else if (n <? 100)%nat then "00" ++ string_of_nat n
  else if (n <? 1000)%nat then "0" ++ string_of_nat n
  else string_of_nat n.

Record datetime : Type := mkDate { day : nat; month : nat; year : nat }.

(** [d.strftime("%d_%m_%Y")] *)
Definition strftime_d_m_Y (d : datetime) : string :=
  pad2 (day d) ++ "_" ++ pad2 (month d) ++ "_" ++ pad4 (year d).

(** POSIX [os.path.join] of two components. *)
Definition ends_with_slash (s : string) : bool :=
  match get (String.length s - 1) s with
  | Some c => Ascii.eqb c "/"%char
  | None => false
  end.

Definition path_join2 (a b : string) : string :=
  if prefix "/" b then b
  else if String.eqb a "" || ends_with_slash a then a ++ b
  else a ++ "/" ++ b.

Definition path_join3 (a b c : string) : string := path_join2 (path_join2 a b) c.

Definition nl : string := String "010"%char "".

(** U+00B1 PLUS-MINUS SIGN, as UTF-8. *)
Definition plus_minus : string := String "194"%char (String "177"%char "").

(* ------------------------------------------------------------------ *)
(** ** Numbers: numpy's reductions and rounding, over the reals *)

Open Scope R_scope.

Definition np_sum (l : list R) : R := fold_left Rplus l 0.

(** [np.mean(l)]: the sum divided by the number of elements. *)
Definition np_mean (l : list R) : R := np_sum l / INR (List.length l).

(** [np.std(l)] with its default [ddof=0]: the square root of the mean of the
    squared deviations from the mean. *)
Definition np_std (l : list R) : R :=
  let m := np_mean l in
  sqrt (np_mean (map (fun x => (x - m) * (x - m)) l)).

(** Round half to even, to an integer. *)
Definition rint (x : R) : Z :=
  let f := Int_part x in
  let d := x - IZR f in
  if Rlt_dec d (1 / 2) then f
  else if Rlt_dec (1 / 2) d then (f + 1)%Z
  else if Z.even f then f else (f + 1)%Z.

(** [np.round(x, 3)]: scale by [10**3], round half to even, scale back. *)
Definition np_round3 (x : R) : R := IZR (rint (x * 1000)) / 1000.

(** [(10**-(c))*mw_*1000] *)
Definition to_mgL (c mw_ : R) : R := Rpower 10 (- c) * mw_ * 1000.

Close Scope R_scope.

(* ------------------------------------------------------------------ *)
(** ** Data frames *)

Definition has_label (key : string) (col : string * list cell) : bool :=
  String.eqb (fst col) key.

Definition labels (df : Frame) : list string := map fst (columns df).

(** [df[key]] *)
Definition getitem (df : Frame) (key : string) : raises (list cell) :=
  match find (has_label key) (columns df) with
  | Some col => inr (snd col)
  | None => inl "KeyError"
  end.

(** [df.loc[:, keys]]: the columns carrying each requested label, in the
    order requested; a label that is absent raises. *)
Definition loc_columns (df : Frame) (keys : list string) : raises Frame :=
  if forallb (fun k => existsb (has_label k) (columns df)) keys
  then inr (mkFrame (nrows df)
                    (flat_map (fun k => filter (has_label k) (columns df)) keys))
  else inl "KeyError".

Definition assign (key : string) (values : list cell)
    (cols : list (string * list cell)) : list (string * list cell) :=
  if existsb (has_label key) cols
  then map (fun col => if has_label key col then (fst col, values) else col) cols
  else (cols ++ [(key, values)])%list.

(** [df[key] = values] for a list or one-dimensional array.  A frame whose
    index is empty takes its index from a non-empty value (the columns it
    already has are re-indexed and filled with NaN); otherwise the length
    must match the index. *)
Definition setitem (df : Frame) (key : string) (values : list cell) : raises Frame :=
  if ((nrows df =? 0) && (0 <? List.length values))%nat
  then inr (mkFrame (List.length values)
              (assign key values
                 (map (fun col => (fst col, repeat NaN (List.length values))) (columns df))))
  else if (List.length values =? nrows df)%nat
  then inr (mkFrame (nrows df) (assign key values (columns df)))
  else inl "ValueError".

(** [pd.DataFrame([value], columns=[label])] *)
Definition DataFrame_single (label value : string) : Frame :=
  mkFrame 1 [(label, [Str value])].

(** [pd.DataFrame(array, columns=names)] for a two-dimensional array given by
    its rows: the number of names must be the array's second dimension. *)
Definition DataFrame_of_array (array : list (list R)) (names : list string)
    : raises Frame :=
  if forallb (fun row => (List.length row =? List.length names)%nat) array
  then inr (mkFrame (List.length array)
              (map (fun jn => (snd jn, map (fun row => Num (nth (fst jn) row 0%R)) array))
                   (combine (seq 0 (List.length names)) names)))
  else inl "ValueError".

Definition pad_rows (n : nat) (col : string * list cell) : string * list cell :=
  (fst col, (snd col ++ repeat NaN (n - List.length (snd col)))%list).

(** [pd.concat([a, b], axis=1)] on two range-indexed frames: the columns of
    [a] then those of [b], over the union of the two indexes. *)
Definition concat_axis1 (a b : Frame) : Frame :=
  let n := Nat.max (nrows a) (nrows b) in
  mkFrame n (map (pad_rows n) (columns a ++ columns b)%list).

(** [df.applymap(f)] *)
Definition applymap (f : cell -> cell) (df : Frame) : Frame :=
  mkFrame (nrows df) (map (fun col => (fst col, map f (snd col))) (columns df)).

Definition is_float (c : cell) : bool :=
  match c with
  | Num _ | NaN => true
  | _ => false
  end.

Definition round_cell (c : cell) : cell :=
  match c with
  | Num x => Num (np_round3 x)
  | _ => c
  end.

(** [round(df, 3)]: columns of floating-point type are rounded to three
    decimals, every other column is left as it is. *)
Definition round_column (v : list cell) : list cell :=
  if forallb is_float v then map round_cell v else v.

Definition round3 (df : Frame) : Frame :=
  mkFrame (nrows df) (map (fun col => (fst col, round_column (snd col))) (columns df)).

(** A cell used as a number.  The script only reads back columns it has just
    assigned, which hold numbers; arithmetic on not-a-number lies outside
    the real-number model and is reported like a type error. *)
Definition as_float (c : cell) : raises R :=
  match c with
  | Num x => inr x
  | Int z => inr (IZR z)
  | _ => inl "TypeError"
  end.

Fixpoint floats (v : list cell) : raises (list R) :=
  match v with
  | [] => inr []
  | c :: v' =>
      match as_float c with
      | inl e => inl e
      | inr x => match floats v' with
                 | inl e => inl e
                 | inr xs => inr (x :: xs)
                 end
      end
  end.

(** The cell of column [key] at row [i], if there is one. *)
Definition cell_at (df : Frame) (key : string) (i : nat) : option cell :=
  match getitem df key with
  | inr col => nth_error col i
  | inl _ => None
  end.

(** Python's [zip] of three sequences. *)
Definition zip3 {A B C} (a : list A) (b : list B) (c : list C) : list (A * B * C) :=
  combine (combine a b) c.

(* ------------------------------------------------------------------ *)
(** ** External collaborators *)

(** A fitted scikit-learn style object: the feature names it was fitted on
    and its one inference method ([predict], called [transform] on the
    preprocessing pipeline). *)
Record Estimator (Out : Type) : Type := mkEstimator {
  feature_names_in_ : list string;
  predict : Frame -> raises Out
}.
Arguments mkEstimator {Out} _ _.
Arguments feature_names_in_ {Out} _.
Arguments predict {Out} _ _.

Definition transform {Out} (p : Estimator Out) : Frame -> raises Out := predict p.

(** [est.predict(table.loc[:, names])] *)
Definition predict_restricted {Out} (est : Estimator Out) (names : list string)
    (table : Frame) : raises Out :=
  match loc_columns table names with
  | inl e => inl e
  | inr x => predict est x
  end.

Definition Regressor : Type := Estimator (list R).
Definition Pipeline : Type := Estimator (list (list R)).
Definition Classifier : Type := Estimator (list Z).

(** Command-line values as argparse stores them: [None] for an option that
    was not given. *)
Record Namespace : Type := mkArgs {
  arg_smiles : option string;
  arg_filename : option string;
  arg_summary : option string
}.

Section Script.

(** [rdkit.Chem.Mol] *)
Context {Mol : Type}.

Record Env : Type := mkEnv {
  getcwd : string;                                   (* os.getcwd() *)
  datetime_now : datetime;                           (* datetime.now() *)
  read_excel : string -> raises Frame;               (* pd.read_excel *)
  to_excel : string -> Frame -> raises unit;         (* DataFrame.to_excel *)
  MolFromSmiles : string -> raises (option Mol);     (* Chem.MolFromSmiles; may return None *)
  MolWt : option Mol -> raises R;                    (* rdkit.Chem.Descriptors.MolWt *)
  calc_pandas : list (option Mol) -> raises Frame;   (* Calculator(descriptors, ignore_3D=True).pandas *)
  load_regressor : string -> raises Regressor;       (* open(path, 'rb') and pickle.load *)
  load_pipeline : string -> raises Pipeline;
  load_classifier : string -> raises Classifier;
  str_float : R -> string                            (* str() of a float *)
}.

Variable env : Env.

(** [Chem.MolFromSmiles(smi)] on a cell: anything but a string is refused by
    the binding. *)
Definition mol_of_cell (smi : cell) : M (option Mol) :=
  match smi with
  | Str s => call (MolFromSmiles env s)
  | _ => call (inl "TypeError")
  end.

Definition nan_if_error (x : cell) : cell :=
  match x with
  | MordredError | MordredMissing => NaN
  | _ => x
  end.

Definition mordred_calculator (dataset : Frame) : M Frame :=
  smis <- call (getitem dataset "SMILES") ;;
  mols <- mapM mol_of_cell smis ;;
  df <- call (calc_pandas env mols) ;;
  let df := concat_axis1 dataset df in
  let df := applymap nan_if_error df in
  ret df.

(** The bare [except:] catches whatever the parser raises; a parser that
    returns (even [None]) lets the check pass. *)
Definition check_smiles (smiles : string) : M unit :=
  match MolFromSmiles env smiles with
  | inl _ => print (smiles ++ ": invalid smiles!") ;; sys_exit 1
  | inr _ => ret tt
  end.

Record Artifacts : Type := mkArtifacts {
  a_model1 : Regressor;
  a_model2 : Regressor;
  a_model3 : Regressor;
  a_pipeline : Pipeline;
  a_ad : Classifier
}.

Definition pipeline_model_importer : M Artifacts :=
  model1 <- call (load_regressor env
     (path_join3 (getcwd env) "models"
        "alldata_model_Antioxidant_DPPH30MIN_extra_trees_regressor.pkl")) ;;
  model2 <- call (load_regressor env
     (path_join3 (getcwd env) "models"
        "alldata_model_Antioxidant_DPPH30MIN_xgb_regressor.pkl")) ;;
  model3 <- call (load_regressor env
     (path_join3 (getcwd env) "models"
        "alldata_model_Antioxidant_DPPH30MIN_gradient_boosting_regressor.pkl")) ;;
  pipeline <- call (load_pipeline env
     (path_join3 (getcwd env) "pipeline_and_AD" "pipeline_Antioxidant_DPPH30MIN.pkl")) ;;
  ad <- call (load_classifier env
     (path_join3 (getcwd env) "pipeline_and_AD" "AD_clf.pkl")) ;;
  ret (mkArtifacts model1 model2 model3 pipeline ad).

(** [parser.parse_args()] on a command line made of the three options: the
    two input options form a required, mutually exclusive group; a violation
    is a usage error, exit status 2.  (The help exit and the errors on
    arguments argparse does not know are not represented, see the head of
    the file.) *)
Definition parse_args (given : Namespace) : M Namespace :=
  match arg_smiles given, arg_filename given with
  | Some _, Some _ => sys_exit 2
  | None, None => sys_exit 2
  | _, _ => ret given
  end.

Definition str_or_None (v : option string) : string :=
  match v with
  | Some s => s
  | None => "None"
  end.

Definition files_importer (given : Namespace) : M (option string * option string) :=
  args <- parse_args given ;;
  let input_value := arg_smiles args in
  let input_value :=
    match input_value with
    | None => arg_filename args
    | Some _ => input_value
    end in
  print ("Input value: " ++ str_or_None input_value) ;;
  ret (input_value, arg_summary args).

(** The script's module-level variables. *)
Record Globals : Type := mkGlobals {
  input_value : string;
  summary : option string;
  df : Frame;
  model1 : Regressor;
  model2 : Regressor;
  model3 : Regressor;
  pipeline : Pipeline;
  ad : Classifier;
  data : Frame;
  data_input : Frame;
  mw_calc : list R
}.

Definition set_df (g : Globals) (new_df : Frame) : Globals :=
  mkGlobals (input_value g) (summary g) new_df (model1 g) (model2 g) (model3 g)
            (pipeline g) (ad g) (data g) (data_input g) (mw_calc g).

Definition banner : string :=
  "Antioxidant Model:" ++ nl ++ "Extra trees model to predict IC50 (log(ug/ml))".

(** STEP 1: a value without [".xlsx"] in it is a single structure, anything
    else is read as a spreadsheet.  ([in] on [None] is a type error.) *)
Definition load_input (input_value : option string) : M (string * Frame) :=
  match input_value with
  | None => call (inl "TypeError")
  | Some v =>
      if negb (contains ".xlsx" v)
      then ret (v, DataFrame_single "SMILES" v)
      else (df <- call (read_excel env v) ;; ret (v, df))
  end.

(** STEP 5, for one model: the prediction column in log-molar units, then
    the column converted to mg/L, zipped with the molecular weights. *)
Definition predict_and_convert (model : Regressor) (logM mgL : string)
    (data_input : Frame) (mw_calc : list R) (df : Frame) : M Frame :=
  p <- call (predict_restricted model (feature_names_in_ model) data_input) ;;
  df <- call (setitem df logM (map Num p)) ;;
  col <- call (getitem df logM) ;;
  cs <- call (floats col) ;;
  df <- call (setitem df mgL
                (map (fun cm => Num (to_mgL (fst cm) (snd cm))) (combine cs mw_calc))) ;;
  ret df.

(** STEP 6, one output column: [f] over the three named columns, row by row. *)
Definition across_models (f : list R -> R) (etr xgb gb : string) (df : Frame)
    : M (list cell) :=
  c1 <- call (getitem df etr) ;;
  c2 <- call (getitem df xgb) ;;
  c3 <- call (getitem df gb) ;;
  y1s <- call (floats c1) ;;
  y2s <- call (floats c2) ;;
  y3s <- call (floats c3) ;;
  ret (map (fun y => Num (f [fst (fst y); snd (fst y); snd y])) (zip3 y1s y2s y3s)).

(** Lines 177-188: the command line, then STEP 1. *)
Definition read_input (given : Namespace) : M (string * option string * Frame) :=
  parsed <- files_importer given ;;
  loaded <- load_input (fst parsed) ;;
  ret (fst loaded, snd parsed, snd loaded).

(** Lines 194-248, STEP 2 to the consensus and interval columns of STEP 6:
    everything that happens to the input table before any rounding. *)
Definition assess (input_value : string) (summary : option string) (df : Frame)
    : M Globals :=
  arts <- pipeline_model_importer ;;
  let model1 := a_model1 arts in
  let model2 := a_model2 arts in
  let model3 := a_model3 arts in
  let pipeline := a_pipeline arts in
  let ad := a_ad arts in
  print ("Molecular descriptors calculation...." ++ nl) ;;
  data <- mordred_calculator df ;;
  print ("MDs tranformation..." ++ nl) ;;
  selected <- call (loc_columns data (feature_names_in_ pipeline)) ;;
  transformed <- call (transform pipeline selected) ;;
  data_input <- call (DataFrame_of_array transformed (feature_names_in_ pipeline)) ;;
  print "Model Assessment..." ;;
  smis <- call (getitem df "SMILES") ;;
  mw_calc <- mapM (fun smi => mol <- mol_of_cell smi ;; call (MolWt env mol)) smis ;;
  df <- predict_and_convert model1
          "Predictions_ETR [-log(IC50) M]" "Predictions_ETR [mg/L]" data_input mw_calc df ;;
  df <- predict_and_convert model2
          "Predictions_XGB [-log(IC50) M]" "Predictions_XGB [mg/L]" data_input mw_calc df ;;
  df <- predict_and_convert model3
          "Predictions_GB [-log(IC50) M]" "Predictions_GB [mg/L]" data_input mw_calc df ;;
  v <- across_models np_mean "Predictions_ETR [-log(IC50) M]"
         "Predictions_XGB [-log(IC50) M]" "Predictions_GB [-log(IC50) M]" df ;;
  df <- call (setitem df "Consensus [-log(IC50) M]" v) ;;
  v <- across_models np_std "Predictions_ETR [-log(IC50) M]"
         "Predictions_XGB [-log(IC50) M]" "Predictions_GB [-log(IC50) M]" df ;;
  df <- call (setitem df "Interval [-log(IC50) M]" v) ;;
  v <- across_models np_mean "Predictions_ETR [mg/L]"
         "Predictions_XGB [mg/L]" "Predictions_GB [mg/L]" df ;;
  df <- call (setitem df "Consensus [mg/L]" v) ;;
  v <- across_models np_std "Predictions_ETR [mg/L]"
         "Predictions_XGB [mg/L]" "Predictions_GB [mg/L]" df ;;
  df <- call (setitem df "Interval [mg/L]" v) ;;
  ret (mkGlobals input_value summary df model1 model2 model3 pipeline ad
                 data data_input mw_calc).

(** Lines 174-248 of the script: everything up to and including the
    consensus and interval columns. *)
Definition predictions_and_consensus (given : Namespace) : M Globals :=
  print banner ;;
  input <- read_input given ;;
  assess (fst (fst input)) (snd (fst input)) (snd input).

Definition summary_columns : list string :=
  ["SMILES"; "Consensus AND Uncertanty [mg/L]"; "Applicability Domain"].

Definition write_excel (path : string) (table : Frame) : M unit :=
  call (to_excel env path table) ;;
  emit (ToExcel path table).

(** Lines 251-277: rounding, the display string, the applicability domain
    and the export. *)
Definition round_and_export (g : Globals) : M Globals :=
  let df := round3 (df g) in
  c <- call (getitem df "Consensus [mg/L]") ;;
  i <- call (getitem df "Interval [mg/L]") ;;
  ys <- call (floats c) ;;
  us <- call (floats i) ;;
  df <- call (setitem df "Consensus AND Uncertanty [mg/L]"
                (map (fun yi => Str (str_float env (fst yi) ++ " " ++ plus_minus ++ " "
                                     ++ str_float env (snd yi)))
                     (combine ys us))) ;;
  domain <- call (predict_restricted (ad g) (feature_names_in_ (model2 g)) (data_input g)) ;;
  df <- call (setitem df "Applicability Domain" (map Int domain)) ;;
  let current_date := strftime_d_m_Y (datetime_now env) in
  (if truthy (summary g)
   then
     selected <- call (loc_columns df summary_columns) ;;
     write_excel ("Summary_predictions_" ++ current_date ++ ".xlsx") selected ;;
     shown <- call (loc_columns df summary_columns) ;;
     emit (PrintFrame shown)
   else
     write_excel ("Predictions_" ++ current_date ++ ".xlsx") df ;;
     emit (PrintFrame df)) ;;
  ret (set_df g df).

(** The [__main__] block; the value is the final state of its variables. *)
Definition main (given : Namespace) : M Globals :=
  g <- predictions_and_consensus given ;;
  round_and_export g.

End Script.

Arguments Env : clear implicits.

(* ------------------------------------------------------------------ *)
(** ** The tables the script builds, as functions of the model outputs

    These describe the frames the statements below talk about; the script
    itself is [main] above. *)

(** The frame [df] with column [key] set to [values], the index kept. *)
Definition with_column (key : string) (values : list cell) (df : Frame) : Frame :=
  mkFrame (nrows df) (assign key values (columns df)).

(** The labels after an assignment to [key]: unchanged if [key] is already
    one of them, else [key] comes last. *)
Definition add_label (ls : list string) (key : string) : list string :=
  if existsb (fun l => String.eqb l key) ls then ls else (ls ++ [key])%list.

(** The columns STEP 5 and STEP 6 assign, in the order of assignment. *)
Definition assessed_labels : list string :=
  ["Predictions_ETR [-log(IC50) M]"; "Predictions_ETR [mg/L]";
   "Predictions_XGB [-log(IC50) M]"; "Predictions_XGB [mg/L]";
   "Predictions_GB [-log(IC50) M]"; "Predictions_GB [mg/L]";
   "Consensus [-log(IC50) M]"; "Interval [-log(IC50) M]";
   "Consensus [mg/L]"; "Interval [mg/L]"].

(** The raw per-model prediction columns, in both units. *)
Definition raw_prediction_labels : list string :=
  ["Predictions_ETR [-log(IC50) M]"; "Predictions_ETR [mg/L]";
   "Predictions_XGB [-log(IC50) M]"; "Predictions_XGB [mg/L]";
   "Predictions_GB [-log(IC50) M]"; "Predictions_GB [mg/L]"].

(** A prediction column converted to mg/L against the molecular weights. *)
Definition mgL_values (p mw_calc : list R) : list R :=
  map (fun cm => to_mgL (fst cm) (snd cm)) (combine p mw_calc).

(** [f] applied row by row to three columns of numbers. *)
Definition across (f : list R -> R) (a b c : list R) : list R :=
  map (fun y => f [fst (fst y); snd (fst y); snd y]) (zip3 a b c).

(** The table after line 248, from the input table, the three arrays of
    predictions and the molecular weights. *)
Definition aggregated (df0 : Frame) (p1 p2 p3 mw_calc : list R) : Frame :=
  let m1 := mgL_values p1 mw_calc in
  let m2 := mgL_values p2 mw_calc in
  let m3 := mgL_values p3 mw_calc in
  with_column "Interval [mg/L]" (map Num (across np_std m1 m2 m3))
   (with_column "Consensus [mg/L]" (map Num (across np_mean m1 m2 m3))
    (with_column "Interval [-log(IC50) M]" (map Num (across np_std p1 p2 p3))
     (with_column "Consensus [-log(IC50) M]" (map Num (across np_mean p1 p2 p3))
      (with_column "Predictions_GB [mg/L]" (map Num m3)
       (with_column "Predictions_GB [-log(IC50) M]" (map Num p3)
        (with_column "Predictions_XGB [mg/L]" (map Num m2)
         (with_column "Predictions_XGB [-log(IC50) M]" (map Num p2)
          (with_column "Predictions_ETR [mg/L]" (map Num m1)
           (with_column "Predictions_ETR [-log(IC50) M]" (map Num p1) df0))))))))).

(** The combined display strings from two columns of numbers. *)
Definition display {Mol} (env : Env Mol) (ys us : list R) : list cell :=
  map (fun yi => Str (str_float env (fst yi) ++ " " ++ plus_minus ++ " "
                      ++ str_float env (snd yi)))
      (combine ys us).

(** The table after line 261, from the table after line 248 and the
    classifier's labels. *)
Definition finished {Mol} (env : Env Mol) (pre : Frame) (p1 p2 p3 mw_calc : list R)
    (domain : list Z) : Frame :=
  let m1 := mgL_values p1 mw_calc in
  let m2 := mgL_values p2 mw_calc in
  let m3 := mgL_values p3 mw_calc in
  with_column "Applicability Domain" (map Int domain)
   (with_column "Consensus AND Uncertanty [mg/L]"
      (display env (map np_round3 (across np_mean m1 m2 m3))
                   (map np_round3 (across np_std m1 m2 m3)))
      (round3 pre)).

(** How the molecular weight of one row is obtained. *)
Definition weighed {Mol} (env : Env Mol) (smi : cell) (w : R) : Prop :=
  exists s mol, smi = Str s /\ MolFromSmiles env s = inr mol /\ MolWt env mol = inr w.

(** The full-precision prediction of a model for row [i]:
    [model.predict(data_input.loc[:, model.feature_names_in_])[i]]. *)
Definition prediction (model : Regressor) (g : Globals) (i : nat) : option R :=
  match predict_restricted model (feature_names_in_ model) (data_input g) with
  | inr p => nth_error p i
  | inl _ => None
  end.

(** The progress messages of a run that gets as far as the export. *)
Definition progress (v : string) : list event :=
  [Print banner; Print ("Input value: " ++ v);
   Print ("Molecular descriptors calculation...." ++ nl);
   Print ("MDs tranformation..." ++ nl);
   Print "Model Assessment..."].

(** What the export step (lines 267-277) leaves in the trace, for the final
    table [out]. *)
Definition export_events {Mol} (env : Env Mol) (summary : option string) (out : Frame)
    (t : list event) : Prop :=
  let current_date := strftime_d_m_Y (datetime_now env) in
  if truthy summary
  then exists selected,
         loc_columns out summary_columns = inr selected /\
         t = [ToExcel ("Summary_predictions_" ++ current_date ++ ".xlsx") selected;
              PrintFrame selected]
  else t = [ToExcel ("Predictions_" ++ current_date ++ ".xlsx") out; PrintFrame out].

(** The consensus and the uncertainty as the specification words them, for
    three values. *)
Definition arithmetic_mean3 (y1 y2 y3 : R) : R := ((y1 + y2 + y3) / 3)%R.

Definition population_std3 (y1 y2 y3 : R) : R :=
  let m := arithmetic_mean3 y1 y2 y3 in
  sqrt (((y1 - m) ^ 2 + (y2 - m) ^ 2 + (y3 - m) ^ 2) / 3)%R.

(** The sample-corrected estimator (divisor 2), which the script does not use. *)
Definition sample_std3 (y1 y2 y3 : R) : R :=
  let m := arithmetic_mean3 y1 y2 y3 in
  sqrt (((y1 - m) ^ 2 + (y2 - m) ^ 2 + (y3 - m) ^ 2) / 2)%R.

(** Everything a successful run on a non-empty table fixes about row [i]:
    the three full-precision predictions [y1 y2 y3], the molecular weight
    [w] of the structure [smi], the classifier's label [d], the cells of the
    table after line 248 ([pre]) and the cells of the final table. *)
Record Row {Mol} (env : Env Mol) (df0 pre : Frame) (g : Globals) (i : nat)
    (y1 y2 y3 w : R) (smi : cell) (d : Z) : Prop := mkRow {
  row_y1 : prediction (model1 g) g i = Some y1;
  row_y2 : prediction (model2 g) g i = Some y2;
  row_y3 : prediction (model3 g) g i = Some y3;
  row_w : nth_error (mw_calc g) i = Some w;
  row_smi : cell_at df0 "SMILES" i = Some smi;
  row_weighed : weighed env smi w;
  row_d : exists domain,
      predict_restricted (ad g) (feature_names_in_ (model2 g)) (data_input g) = inr domain /\
      nth_error domain i = Some d;
  pre_etr : cell_at pre "Predictions_ETR [-log(IC50) M]" i = Some (Num y1);
  pre_xgb : cell_at pre "Predictions_XGB [-log(IC50) M]" i = Some (Num y2);
  pre_gb : cell_at pre "Predictions_GB [-log(IC50) M]" i = Some (Num y3);
  pre_etr_mgL : cell_at pre "Predictions_ETR [mg/L]" i = Some (Num (to_mgL y1 w));
  pre_xgb_mgL : cell_at pre "Predictions_XGB [mg/L]" i = Some (Num (to_mgL y2 w));
  pre_gb_mgL : cell_at pre "Predictions_GB [mg/L]" i = Some (Num (to_mgL y3 w));
  pre_consensus :
    cell_at pre "Consensus [-log(IC50) M]" i = Some (Num (np_mean [y1; y2; y3]));
  pre_interval :
    cell_at pre "Interval [-log(IC50) M]" i = Some (Num (np_std [y1; y2; y3]));
  pre_consensus_mgL :
    cell_at pre "Consensus [mg/L]" i
    = Some (Num (np_mean [to_mgL y1 w; to_mgL y2 w; to_mgL y3 w]));
  pre_interval_mgL :
    cell_at pre "Interval [mg/L]" i
    = Some (Num (np_std [to_mgL y1 w; to_mgL y2 w; to_mgL y3 w]));
  out_smiles : cell_at (df g) "SMILES" i = Some smi;
  out_etr : cell_at (df g) "Predictions_ETR [-log(IC50) M]" i = Some (Num (np_round3 y1));
  out_xgb : cell_at (df g) "Predictions_XGB [-log(IC50) M]" i = Some (Num (np_round3 y2));
  out_gb : cell_at (df g) "Predictions_GB [-log(IC50) M]" i = Some (Num (np_round3 y3));
  out_etr_mgL :
    cell_at (df g) "Predictions_ETR [mg/L]" i = Some (Num (np_round3 (to_mgL y1 w)));
  out_xgb_mgL :
    cell_at (df g) "Predictions_XGB [mg/L]" i = Some (Num (np_round3 (to_mgL y2 w)));
  out_gb_mgL :
    cell_at (df g) "Predictions_GB [mg/L]" i = Some (Num (np_round3 (to_mgL y3 w)));
  out_consensus :
    cell_at (df g) "Consensus [-log(IC50) M]" i
    = Some (Num (np_round3 (np_mean [y1; y2; y3])));
  out_interval :
    cell_at (df g) "Interval [-log(IC50) M]" i
    = Some (Num (np_round3 (np_std [y1; y2; y3])));
  out_consensus_mgL :
    cell_at (df g) "Consensus [mg/L]" i
    = Some (Num (np_round3 (np_mean [to_mgL y1 w; to_mgL y2 w; to_mgL y3 w])));
  out_interval_mgL :
    cell_at (df g) "Interval [mg/L]" i
    = Some (Num (np_round3 (np_std [to_mgL y1 w; to_mgL y2 w; to_mgL y3 w])));
  out_display :
    cell_at (df g) "Consensus AND Uncertanty [mg/L]" i
    = Some (Str (str_float env
                   (np_round3 (np_mean [to_mgL y1 w; to_mgL y2 w; to_mgL y3 w]))
                 ++ " " ++ plus_minus ++ " "
                 ++ str_float env
                      (np_round3 (np_std [to_mgL y1 w; to_mgL y2 w; to_mgL y3 w]))));
  out_domain : cell_at (df g) "Applicability Domain" i = Some (Int d)
}.

(** A computation that, if it ends in an exit of the script's own making,
    ends in the usage error (status 2), never in [sys.exit(1)]. *)
Definition never_exits_1 {A} (m : M A) : Prop :=
  forall t c, m = (t, inl (SysExit c)) -> c = 2%Z.

(* ------------------------------------------------------------------ *)
(** ** Vocabulary for the further properties *)

(** An event that is a console message. *)
Definition printed (e : event) : Prop := exists text, e = Print text.

(** A computation that never ends in an exit of the script's own making. *)
Definition no_exit {A} (m : M A) : Prop :=
  forall t c, m <> (t, inl (SysExit c)).

(** A computation that leaves only console messages in the trace, however
    it ends. *)
Definition only_prints {A} (m : M A) : Prop := Forall printed (fst m).

(** The command line violates the required, mutually exclusive group: no
    input option, or both. *)
Definition usage_error (given : Namespace) : Prop :=
  (arg_smiles given = None /\ arg_filename given = None)
  \/ (exists a b, arg_smiles given = Some a /\ arg_filename given = Some b).

(** Every column has one cell per row of the index. *)
Definition well_formed (df : Frame) : Prop :=
  Forall (fun col => List.length (snd col) = nrows df) (columns df).

(** All the cells of a frame. *)
Definition cells (df : Frame) : list cell := flat_map snd (columns df).

Definition is_mordred_error (c : cell) : bool :=
  match c with
  | MordredError | MordredMissing => true
  | _ => false
  end.

(** The twelve columns the script assigns, in the order of assignment. *)
Definition output_labels : list string :=
  (assessed_labels ++ ["Consensus AND Uncertanty [mg/L]"; "Applicability Domain"])%list.

(** The environment [env] with another spreadsheet reader. *)
Definition with_read_excel {Mol} (env : Env Mol) (reader : string -> raises Frame)
    : Env Mol :=
  mkEnv (getcwd env) (datetime_now env) reader (to_excel env) (MolFromSmiles env)
        (MolWt env) (calc_pandas env) (load_regressor env) (load_pipeline env)
        (load_classifier env) (str_float env).

(** Reading a decimal numeral, leading zeros allowed. *)
Definition nat_of_string (s : string) : option nat :=
  option_map Nat.of_uint (NilEmpty.uint_of_string s).

(** Reading back a date written as [%d_%m_%Y]: two digits, an underscore,
    two digits, an underscore, and the year. *)
Definition parse_d_m_Y (s : string) : option datetime :=
  match s with
  | String d1 (String d2 (String u1 (String m1 (String m2 (String u2 y))))) =>
      if Ascii.eqb u1 "_"%char && Ascii.eqb u2 "_"%char
      then match nat_of_string (String d1 (String d2 "")),
                 nat_of_string (String m1 (String m2 "")),
                 nat_of_string y with
           | Some d, Some m, Some y => Some (mkDate d m y)
           | _, _, _ => None
           end
      else None
  | _ => None
  end.

(* ------------------------------------------------------------------ *)
(** ** A small concrete environment

    Two known structures, two descriptors, constant regressors returning the
    predictions 4.0, 4.2 and 4.1, and a classifier that accepts everything.
    The parser returns [None] for a string it cannot parse and the descriptor
    engine raises on a [None] molecule. *)
Module Demo.

Open Scope R_scope.

Definition parse (s : string) : raises (option nat) :=
  if String.eqb s "CCO" then inr (Some 1%nat)
  else if String.eqb s "c1ccccc1O" then inr (Some 2%nat)
  else inr None.

Definition weight (m : option nat) : raises R :=
  match m with
  | Some 1%nat => inr (4607 / 100)
  | Some _ => inr (9411 / 100)
  | None => inl "ArgumentError"
  end.

Definition describe (mols : list (option nat)) : raises Frame :=
  if forallb (fun m => match m with Some _ => true | None => false end) mols
  then inr (mkFrame (List.length mols)
              [("nAcid", map (fun _ => Int 0) mols);
               ("SLogP", map (fun _ => MordredMissing) mols);
               ("nHBDon", map (fun _ => Int 1) mols)])
  else inl "ArgumentError".

Definition constant_regressor (names : list string) (y : R) : Regressor :=
  mkEstimator names (fun x => inr (repeat y (nrows x))).

Definition etr : Regressor := constant_regressor ["SLogP"; "nHBDon"] 4.
Definition xgb : Regressor := constant_regressor ["nHBDon"] (42 / 10).
Definition gb : Regressor := constant_regressor ["SLogP"] (41 / 10).

Definition pipe : Pipeline :=
  mkEstimator ["SLogP"; "nHBDon"] (fun x => inr (repeat [0; 1] (nrows x))).

Definition clf : Classifier :=
  mkEstimator ["SLogP"] (fun x => inr (repeat 1%Z (nrows x))).

Definition cwd : string := "/opt/AntioxidantActivity".

Definition load {A} (path : string) (a : A) (asked : string) : raises A :=
  if String.eqb asked path then inr a else inl "FileNotFoundError".

Definition batch : Frame :=
  mkFrame 2 [("ID", [Int 7; Int 8]); ("SMILES", [Str "c1ccccc1O"; Str "CCO"])].

Definition env : Env nat := {|
  getcwd := cwd;
  datetime_now := mkDate 4 11 2026;
  read_excel := load "batch.xlsx" batch;
  to_excel := fun _ _ => inr tt;
  MolFromSmiles := parse;
  MolWt := weight;
  calc_pandas := describe;
  load_regressor := fun path =>
    if String.eqb path
         "/opt/AntioxidantActivity/models/alldata_model_Antioxidant_DPPH30MIN_extra_trees_regressor.pkl"
    then inr etr
    else if String.eqb path
         "/opt/AntioxidantActivity/models/alldata_model_Antioxidant_DPPH30MIN_xgb_regressor.pkl"
    then inr xgb
    else if String.eqb path
         "/opt/AntioxidantActivity/models/alldata_model_Antioxidant_DPPH30MIN_gradient_boosting_regressor.pkl"
    then inr gb
    else inl "FileNotFoundError";
  load_pipeline :=
    load "/opt/AntioxidantActivity/pipeline_and_AD/pipeline_Antioxidant_DPPH30MIN.pkl" pipe;
  load_classifier := load "/opt/AntioxidantActivity/pipeline_and_AD/AD_clf.pkl" clf;
  str_float := fun _ => "<float>"
|}.

Definition single (s : string) : Namespace := mkArgs (Some s) None None.

Close Scope R_scope.

End Demo.

(** A second batch, with a descriptive column of floating-point numbers
    beside the structures, read by the same environment otherwise. *)
Definition weights_batch : Frame :=
  mkFrame 2 [("SMILES", [Str "CCO"; Str "c1ccccc1O"]);
             ("MW", [Num (460684 / 10000); Num (94113 / 1000)]);
             ("Name", [Str "ethanol"; Str "phenol"])].

Definition weights_env : Env nat :=
  with_read_excel Demo.env (Demo.load "weights.xlsx" weights_batch).

(* ------------------------------------------------------------------ *)
(** ** Vocabulary for the library contracts and for other artifacts *)

(** An estimator that answers row by row: one output for every row of the
    table it is given, as scikit-learn's [predict] and [transform] do. *)
Definition one_per_row {Out} (est : Estimator (list Out)) : Prop :=
  forall table out, predict est table = inr out -> List.length out = nrows table.

(** The libraries of a run answer row by row: the descriptor engine returns
    one row per molecule and each of the five estimators one output per row
    of its input. *)
Definition row_wise {Mol} (env : Env Mol) (g : Globals) : Prop :=
  (forall mols described,
     calc_pandas env mols = inr described -> nrows described = List.length mols) /\
  one_per_row (pipeline g) /\
  one_per_row (model1 g) /\ one_per_row (model2 g) /\ one_per_row (model3 g) /\
  one_per_row (ad g).









(** A spreadsheet with the structure column and no row. *)
Definition empty_batch : Frame := mkFrame 0 [("SMILES", [])].

Definition empty_env : Env nat :=
  with_read_excel Demo.env (Demo.load "empty.xlsx" empty_batch).

(* ------------------------------------------------------------------ *)
(** * Properties *)

(** ** Inversion of successful computations *)

Lemma bind_ok {A B} (m : M A) (k : A -> M B) (t : list event) (b : B) :
  bind m k = (t, inr b) ->
  exists t1 a t2, m = (t1, inr a) /\ k a = (t2, inr b) /\ t = (t1 ++ t2)%list.
Proof.
  unfold bind. destruct m as [t1 [h | a]]; [discriminate |].
  destruct (k a) as [t2 r] eqn:K. intros E. inversion E; subst.
  exists t1, a, t2. auto.
Qed.

Lemma bind_assoc {A B C} (m : M A) (k : A -> M B) (k' : B -> M C) :
  bind (bind m k) k' = bind m (fun a => bind (k a) k').
Proof.
  unfold bind. destruct m as [t [h | a]]; [reflexivity |].
  destruct (k a) as [t1 [h | b]]; [reflexivity |].
  destruct (k' b) as [t2 r]. now rewrite app_assoc.
Qed.

Lemma call_ok {A} (r : raises A) (t : list event) (a : A) :
  call r = (t, inr a) -> r = inr a /\ t = [].
Proof. destruct r; cbn; intros E; inversion E; auto. Qed.

Lemma bind_call_inr {A B} (a : A) (k : A -> M B) : bind (call (inr a)) k = k a.
Proof. unfold bind, call. destruct (k a). reflexivity. Qed.

Lemma ret_ok {A} (x a : A) (t : list event) :
  ret x = (t, inr a) -> x = a /\ t = [].
Proof. unfold ret. intros E; inversion E; auto. Qed.

Lemma emit_ok (e : event) (t : list event) (u : unit) :
  emit e = (t, inr u) -> t = [e].
Proof. unfold emit. intros E; inversion E; auto. Qed.

(** Take a successful chain of binds apart, one step at a time. *)
Ltac step_ok H :=
  match type of H with
  | bind _ _ = (_, inr _) =>
      let t1 := fresh "t" in
      let a := fresh "a" in
      let t2 := fresh "t" in
      let H1 := fresh "Hstep" in
      let Ht := fresh "Htrace" in
      apply bind_ok in H; destruct H as (t1 & a & t2 & H1 & H & Ht)
  end.

Ltac leaf_ok H :=
  match type of H with
  | call _ = (_, inr _) => apply call_ok in H; destruct H as [H ?]
  | ret _ = (_, inr _) => apply ret_ok in H; destruct H as [H ?]
  | print _ = (_, inr _) => apply emit_ok in H
  | emit _ = (_, inr _) => apply emit_ok in H
  end.

Ltac leaves_ok :=
  repeat match goal with E : _ = (_, inr _) |- _ => leaf_ok E end.

Lemma mapM_ok {A B} (f : A -> M B) (l : list A) t ys :
  mapM f l = (t, inr ys) ->
  Forall2 (fun x y => exists t', f x = (t', inr y)) l ys.
Proof.
  revert t ys. induction l as [| x l IH]; cbn; intros t ys H.
  - apply ret_ok in H. destruct H as [<- _]. constructor.
  - repeat step_ok H. leaf_ok H. subst. constructor; eauto.
Qed.

Lemma mapM_silent {A B} (f : A -> M B) (l : list A) t ys :
  (forall x t' y, f x = (t', inr y) -> t' = []) ->
  mapM f l = (t, inr ys) -> t = [].
Proof.
  intros Hf. revert t ys. induction l as [| x l IH]; cbn; intros t ys H.
  - now apply ret_ok in H.
  - repeat step_ok H. leaf_ok H. subst.
    apply Hf in Hstep. apply IH in Hstep0. subst. reflexivity.
Qed.

(** ** Numbers *)

Lemma np_mean_3 (y1 y2 y3 : R) : np_mean [y1; y2; y3] = arithmetic_mean3 y1 y2 y3.
Proof.
  unfold np_mean, np_sum, arithmetic_mean3. cbn. field.
Qed.

Lemma np_std_3 (y1 y2 y3 : R) : np_std [y1; y2; y3] = population_std3 y1 y2 y3.
Proof.
  unfold np_std, population_std3. cbn [map].
  rewrite !np_mean_3. f_equal. unfold arithmetic_mean3. field.
Qed.

Lemma floats_Num (l : list R) : floats (map Num l) = inr l.
Proof. induction l as [| x l IH]; cbn; [reflexivity | now rewrite IH]. Qed.

Lemma round_column_Num (l : list R) :
  round_column (map Num l) = map Num (map np_round3 l).
Proof.
  unfold round_column.
  replace (forallb is_float (map Num l)) with true.
  - now rewrite map_map, map_map.
  - symmetry. apply forallb_forall. intros c Hc.
    apply in_map_iff in Hc. destruct Hc as (x & <- & _). reflexivity.
Qed.

Lemma round_column_Str (v : list cell) :
  Forall (fun c => exists s, c = Str s) v -> round_column v = v.
Proof.
  unfold round_column. intros [| c v' [s ->] _]; [reflexivity |].
  reflexivity.
Qed.

(** ** Column assignment *)

Lemma setitem_nonempty (df df' : Frame) (key : string) (values : list cell) :
  setitem df key values = inr df' -> (0 < nrows df)%nat ->
  df' = with_column key values df /\ List.length values = nrows df.
Proof.
  unfold setitem. intros E Hn.
  destruct (nrows df =? 0)%nat eqn:Z; [apply Nat.eqb_eq in Z; lia |].
  cbn in E.
  destruct (List.length values =? nrows df)%nat eqn:L; [| discriminate].
  apply Nat.eqb_eq in L. inversion E. auto.
Qed.

Lemma find_assign_same key values cols :
  find (has_label key) (assign key values cols) = Some (key, values).
Proof.
  unfold assign. destruct (existsb (has_label key) cols) eqn:E.
  - induction cols as [| [l v] cols IH]; [discriminate |].
    unfold has_label in *. cbn in *.
    destruct (String.eqb l key) eqn:Hc; cbn.
    + rewrite Hc. apply String.eqb_eq in Hc. now subst.
    + rewrite Hc. auto.
  - induction cols as [| [l v] cols IH]; unfold has_label in *; cbn in *.
    + now rewrite String.eqb_refl.
    + apply orb_false_iff in E. destruct E as [Hc E].
      rewrite Hc. auto.
Qed.

Lemma find_assign_other key key' values cols :
  key' <> key ->
  find (has_label key') (assign key values cols) = find (has_label key') cols.
Proof.
  intros Hne. unfold assign.
  assert (Hk : String.eqb key key' = false) by (apply String.eqb_neq; congruence).
  destruct (existsb (has_label key) cols) eqn:E; clear E.
  - induction cols as [| [l v] cols IH]; [reflexivity |].
    unfold has_label in *. cbn in *.
    destruct (String.eqb l key) eqn:Hc; cbn.
    + apply String.eqb_eq in Hc. subst l. rewrite Hk. exact IH.
    + destruct (String.eqb l key'); [reflexivity | exact IH].
  - induction cols as [| [l v] cols IH]; unfold has_label in *; cbn in *.
    + now rewrite Hk.
    + destruct (String.eqb l key'); [reflexivity | exact IH].
Qed.

Lemma getitem_with_column_same key values df :
  getitem (with_column key values df) key = inr values.
Proof. unfold getitem, with_column. cbn. now rewrite find_assign_same. Qed.

Lemma getitem_with_column_other key key' values df :
  String.eqb key' key = false ->
  getitem (with_column key values df) key' = getitem df key'.
Proof.
  intros Hne. unfold getitem, with_column. cbn.
  rewrite find_assign_other; [reflexivity |].
  now apply String.eqb_neq.
Qed.

Ltac getitem_simpl :=
  repeat (rewrite getitem_with_column_same ||
          rewrite getitem_with_column_other by reflexivity).

Lemma setitem_getitem df key values df' :
  setitem df key values = inr df' ->
  getitem df' key = inr values /\ nrows df' = List.length values.
Proof.
  unfold setitem. intros E.
  destruct ((nrows df =? 0) && (0 <? List.length values))%nat.
  - inversion E; subst. unfold getitem. cbn. now rewrite find_assign_same.
  - destruct (List.length values =? nrows df)%nat eqn:L; [| discriminate].
    apply Nat.eqb_eq in L. inversion E; subst. unfold getitem. cbn.
    now rewrite find_assign_same.
Qed.

Lemma getitem_round3 df key :
  getitem (round3 df) key =
  match getitem df key with
  | inr col => inr (round_column col)
  | inl e => inl e
  end.
Proof.
  unfold getitem, round3. cbn.
  induction (columns df) as [| [l v] cols IH]; [reflexivity |].
  cbn. unfold has_label in *. cbn.
  destruct (String.eqb l key); [reflexivity | exact IH].
Qed.

(** ** Column labels *)

Lemma existsb_has_label key cols :
  existsb (has_label key) cols = existsb (fun l => String.eqb l key) (map fst cols).
Proof.
  induction cols as [| c cols IH]; [reflexivity |]. cbn. now rewrite IH.
Qed.

Lemma labels_assign key values cols :
  map fst (assign key values cols) = add_label (map fst cols) key.
Proof.
  unfold assign, add_label. rewrite existsb_has_label.
  destruct (existsb _ (map fst cols)).
  - rewrite map_map. apply map_ext. intros c. now destruct (has_label key c).
  - rewrite map_app. reflexivity.
Qed.

Lemma setitem_labels df key values df' :
  setitem df key values = inr df' -> labels df' = add_label (labels df) key.
Proof.
  unfold setitem, labels. intros E.
  destruct ((nrows df =? 0) && (0 <? List.length values))%nat.
  - inversion E; subst. cbn. rewrite labels_assign, map_map. reflexivity.
  - destruct (List.length values =? nrows df)%nat; [| discriminate].
    inversion E; subst. cbn. apply labels_assign.
Qed.

Lemma labels_round3 df : labels (round3 df) = labels df.
Proof. unfold labels, round3. cbn. now rewrite map_map. Qed.

Lemma add_label_In ls key : In key (add_label ls key).
Proof.
  unfold add_label. destruct (existsb _ ls) eqn:E.
  - apply existsb_exists in E. destruct E as (l & Hl & Hk).
    apply String.eqb_eq in Hk. now subst.
  - apply in_or_app. right. now left.
Qed.

Lemma add_label_incl ls key : incl ls (add_label ls key).
Proof.
  unfold add_label. destruct (existsb _ ls).
  - apply incl_refl.
  - apply incl_appl, incl_refl.
Qed.

Lemma add_label_NoDup ls key : NoDup ls -> NoDup (add_label ls key).
Proof.
  intros Hnd. unfold add_label. destruct (existsb _ ls) eqn:E; [assumption |].
  apply NoDup_app; [assumption | repeat constructor; intros [] | ].
  intros l Hl [Hk | []]. subst l.
  assert (existsb (fun l0 => String.eqb l0 key) ls = true); [| congruence].
  apply existsb_exists. exists key. split; [assumption | apply String.eqb_refl].
Qed.

Lemma fold_add_label_incl keys ls : incl ls (fold_left add_label keys ls).
Proof.
  revert ls. induction keys as [| k keys IH]; intros ls; cbn.
  - apply incl_refl.
  - eapply incl_tran; [apply add_label_incl | apply IH].
Qed.

Lemma fold_add_label_In keys ls key :
  In key keys -> In key (fold_left add_label keys ls).
Proof.
  revert ls. induction keys as [| k keys IH]; intros ls; cbn; [intros [] |].
  intros [-> | Hin]; [| now apply IH].
  apply fold_add_label_incl, add_label_In.
Qed.

Lemma fold_add_label_NoDup keys ls :
  NoDup ls -> NoDup (fold_left add_label keys ls).
Proof.
  revert ls. induction keys as [| k keys IH]; intros ls Hnd; cbn; [assumption |].
  apply IH, add_label_NoDup, Hnd.
Qed.

(** With distinct labels, selecting columns by label returns exactly the
    labels asked for. *)
Lemma filter_has_label_none key cols :
  ~ In key (map fst cols) -> filter (has_label key) cols = [].
Proof.
  induction cols as [| [l v] cols IH]; [reflexivity |].
  cbn. intros Hn. unfold has_label at 1. cbn.
  destruct (String.eqb l key) eqn:Hl.
  - apply String.eqb_eq in Hl. tauto.
  - apply IH. tauto.
Qed.

Lemma filter_has_label_NoDup key cols :
  NoDup (map fst cols) -> existsb (has_label key) cols = true ->
  exists v, filter (has_label key) cols = [(key, v)] /\
            find (has_label key) cols = Some (key, v).
Proof.
  induction cols as [| [l v] cols IH]; [discriminate |].
  cbn. unfold has_label at 1 2 3. cbn. intros Hnd E. inversion Hnd; subst.
  destruct (String.eqb l key) eqn:Hl.
  - apply String.eqb_eq in Hl. subst l. exists v. split; [| reflexivity].
    f_equal. now apply filter_has_label_none.
  - cbn in E. apply IH; assumption.
Qed.

Lemma loc_columns_NoDup df keys selected :
  NoDup (labels df) -> loc_columns df keys = inr selected ->
  labels selected = keys /\
  nrows selected = nrows df /\
  forall key, In key keys -> NoDup keys -> getitem selected key = getitem df key.
Proof.
  unfold loc_columns, labels. intros Hnd E.
  destruct (forallb _ keys) eqn:F; [| discriminate].
  inversion E; subst; clear E. cbn.
  rewrite forallb_forall in F.
  split; [| split; [reflexivity |]].
  - induction keys as [| k keys IH]; [reflexivity |].
    cbn. rewrite map_app, IH by (intros x Hx; apply F; now right).
    destruct (filter_has_label_NoDup k (columns df) Hnd) as (v & -> & _);
      [apply F; now left | reflexivity].
  - intros key Hin Hk. unfold getitem. cbn.
    induction keys as [| k keys IH]; [destruct Hin |].
    cbn. destruct (filter_has_label_NoDup k (columns df) Hnd) as (v & -> & Hf);
      [apply F; now left |].
    cbn. unfold has_label at 1. cbn. inversion Hk; subst.
    destruct (String.eqb k key) eqn:Hkk.
    + apply String.eqb_eq in Hkk. subst. now rewrite Hf.
    + destruct Hin as [-> | Hin]; [now rewrite String.eqb_refl in Hkk |].
      apply IH; auto. intros x Hx. apply F. now right.
Qed.

(** ** The script, step by step *)

Section Steps.

Context {Mol : Type}.
Variable env : Env Mol.

Lemma files_importer_ok given t parsed :
  files_importer given = (t, inr parsed) ->
  exists v,
    fst parsed = Some v /\
    match arg_smiles given with
    | Some s => s = v /\ arg_filename given = None
    | None => arg_filename given = Some v
    end /\
    snd parsed = arg_summary given /\
    t = [Print ("Input value: " ++ v)].
Proof.
  unfold files_importer, parse_args. intros H.
  repeat step_ok H. leaf_ok H. leaf_ok Hstep0. subst.
  destruct (arg_smiles given) as [s |] eqn:Es, (arg_filename given) as [f |] eqn:Ef;
    try discriminate; leaf_ok Hstep; subst; cbn; rewrite ?Es, ?Ef.
  - exists s. auto.
  - exists f. cbn. auto.
Qed.

Lemma load_input_ok v t loaded :
  load_input env (Some v) = (t, inr loaded) ->
  fst loaded = v /\ t = [] /\
  if contains ".xlsx" v then read_excel env v = inr (snd loaded)
  else snd loaded = DataFrame_single "SMILES" v.
Proof.
  unfold load_input. destruct (contains ".xlsx" v); cbn [negb]; intros H.
  - repeat step_ok H. leaf_ok H. leaf_ok Hstep. subst. auto.
  - leaf_ok H. subst. auto.
Qed.

Lemma read_input_ok given t v s df0 :
  read_input env given = (t, inr (v, s, df0)) ->
  t = [Print ("Input value: " ++ v)] /\
  s = arg_summary given /\
  match arg_smiles given with
  | Some x => x = v /\ arg_filename given = None
  | None => arg_filename given = Some v
  end /\
  if contains ".xlsx" v then read_excel env v = inr df0
  else df0 = DataFrame_single "SMILES" v.
Proof.
  unfold read_input. intros H. repeat step_ok H. leaf_ok H.
  apply files_importer_ok in Hstep. destruct Hstep as (v' & Hv & Hflag & Hs & ->).
  rewrite Hv in Hstep0. apply load_input_ok in Hstep0.
  destruct Hstep0 as (Hfst & -> & Hload).
  inversion H; subst. cbn. auto.
Qed.

Lemma pipeline_model_importer_ok t arts :
  pipeline_model_importer env = (t, inr arts) ->
  t = [] /\
  load_regressor env (path_join3 (getcwd env) "models"
    "alldata_model_Antioxidant_DPPH30MIN_extra_trees_regressor.pkl") = inr (a_model1 arts) /\
  load_regressor env (path_join3 (getcwd env) "models"
    "alldata_model_Antioxidant_DPPH30MIN_xgb_regressor.pkl") = inr (a_model2 arts) /\
  load_regressor env (path_join3 (getcwd env) "models"
    "alldata_model_Antioxidant_DPPH30MIN_gradient_boosting_regressor.pkl") = inr (a_model3 arts) /\
  load_pipeline env (path_join3 (getcwd env) "pipeline_and_AD"
    "pipeline_Antioxidant_DPPH30MIN.pkl") = inr (a_pipeline arts) /\
  load_classifier env (path_join3 (getcwd env) "pipeline_and_AD" "AD_clf.pkl")
    = inr (a_ad arts).
Proof.
  unfold pipeline_model_importer. intros H.
  repeat step_ok H. leaves_ok. subst. cbn. auto 10.
Qed.

Lemma mol_of_cell_ok smi t mol :
  mol_of_cell env smi = (t, inr mol) ->
  t = [] /\ exists s, smi = Str s /\ MolFromSmiles env s = inr mol.
Proof.
  destruct smi; cbn; intros H; try discriminate.
  leaf_ok H. eauto.
Qed.

Lemma weigh_ok smi t w :
  (mol <- mol_of_cell env smi ;; call (MolWt env mol)) = (t, inr w) ->
  t = [] /\ weighed env smi w.
Proof.
  intros H. step_ok H. leaf_ok H. apply mol_of_cell_ok in Hstep.
  destruct Hstep as (-> & s & -> & Hs). subst. split; [reflexivity |].
  exists s, a. auto.
Qed.

Lemma mordred_calculator_ok dataset t data :
  mordred_calculator env dataset = (t, inr data) ->
  t = [] /\
  exists smis mols described,
    getitem dataset "SMILES" = inr smis /\
    Forall2 (fun smi mol => exists s, smi = Str s /\ MolFromSmiles env s = inr mol)
            smis mols /\
    calc_pandas env mols = inr described /\
    data = applymap nan_if_error (concat_axis1 dataset described).
Proof.
  unfold mordred_calculator. intros H.
  repeat step_ok H. leaves_ok. subst.
  assert (Hs := Hstep0). apply mapM_silent in Hs;
    [| intros x t' y Hx; now apply mol_of_cell_ok in Hx].
  subst. split; [reflexivity |].
  exists a, a0, a1. repeat split; auto.
  apply mapM_ok in Hstep0.
  eapply Forall2_impl; [| exact Hstep0].
  intros smi mol [t' Hx]. now apply mol_of_cell_ok in Hx.
Qed.

Lemma predict_and_convert_labels model logM mgL data_input mw_calc df t df' :
  predict_and_convert model logM mgL data_input mw_calc df = (t, inr df') ->
  t = [] /\ labels df' = add_label (add_label (labels df) logM) mgL.
Proof.
  unfold predict_and_convert. intros H.
  repeat step_ok H. leaves_ok. subst. split; [reflexivity |].
  apply setitem_labels in Hstep0, Hstep3. congruence.
Qed.

Lemma predict_and_convert_ok model logM mgL data_input mw_calc df t df' :
  predict_and_convert model logM mgL data_input mw_calc df = (t, inr df') ->
  (0 < nrows df)%nat ->
  exists p,
    predict_restricted model (feature_names_in_ model) data_input = inr p /\
    List.length p = nrows df /\
    (nrows df <= List.length mw_calc)%nat /\
    df' = with_column mgL (map Num (mgL_values p mw_calc))
            (with_column logM (map Num p) df).
Proof.
  unfold predict_and_convert. intros H Hn.
  repeat step_ok H. leaves_ok. subst.
  apply setitem_nonempty in Hstep0; [destruct Hstep0 as [-> L1] | assumption].
  rewrite getitem_with_column_same in Hstep1. inversion Hstep1; subst; clear Hstep1.
  rewrite floats_Num in Hstep2. inversion Hstep2; subst; clear Hstep2.
  apply setitem_nonempty in Hstep3; [destruct Hstep3 as [-> L2] | assumption].
  rewrite length_map in L1. rewrite length_map, length_combine in L2. cbn in L2.
  eexists. split; [eassumption |]. repeat split; try assumption; [lia |].
  unfold mgL_values. now rewrite map_map.
Qed.

Lemma across_models_silent f etr xgb gb df t v :
  across_models f etr xgb gb df = (t, inr v) -> t = [].
Proof.
  unfold across_models. intros H. repeat step_ok H. leaves_ok. subst. reflexivity.
Qed.

Lemma across_models_Num f etr xgb gb df p1 p2 p3 :
  getitem df etr = inr (map Num p1) ->
  getitem df xgb = inr (map Num p2) ->
  getitem df gb = inr (map Num p3) ->
  across_models f etr xgb gb df =
  ([], inr (map (fun y => Num (f [fst (fst y); snd (fst y); snd y])) (zip3 p1 p2 p3))).
Proof.
  intros E1 E2 E3. unfold across_models.
  rewrite E1, E2, E3, !bind_call_inr, !floats_Num, !bind_call_inr. reflexivity.
Qed.

(** Where the variables of a successful run come from, whatever the size of
    the input table. *)
Lemma assess_structure v s df0 t g :
  assess env v s df0 = (t, inr g) ->
  t = [Print ("Molecular descriptors calculation...." ++ nl);
       Print ("MDs tranformation..." ++ nl);
       Print "Model Assessment..."] /\
  input_value g = v /\
  summary g = s /\
  load_regressor env (path_join3 (getcwd env) "models"
    "alldata_model_Antioxidant_DPPH30MIN_xgb_regressor.pkl") = inr (model2 g) /\
  mordred_calculator env df0 = ([], inr (data g)) /\
  (exists selected transformed,
     loc_columns (data g) (feature_names_in_ (pipeline g)) = inr selected /\
     transform (pipeline g) selected = inr transformed /\
     DataFrame_of_array transformed (feature_names_in_ (pipeline g)) = inr (data_input g)) /\
  (exists smis, getitem df0 "SMILES" = inr smis /\ Forall2 (weighed env) smis (mw_calc g)) /\
  labels (df g) = fold_left add_label assessed_labels (labels df0).
Proof.
  unfold assess. intros H.
  repeat step_ok H.
  apply pipeline_model_importer_ok in Hstep. destruct Hstep as (-> & _ & M2 & _).
  assert (Hm := Hstep1). apply mordred_calculator_ok in Hm. destruct Hm as [-> _].
  assert (Hw := Hstep8). apply mapM_ok in Hw.
  apply mapM_silent in Hstep8; [| intros x t' y Hx; now apply weigh_ok in Hx].
  apply predict_and_convert_labels in Hstep9, Hstep10, Hstep11.
  destruct Hstep9 as [-> Lb1], Hstep10 as [-> Lb2], Hstep11 as [-> Lb3].
  apply across_models_silent in Hstep12, Hstep14, Hstep16, Hstep18.
  leaves_ok. subst.
  apply setitem_labels in Hstep13, Hstep15, Hstep17, Hstep19.
  cbn. repeat split; try assumption.
  - eauto.
  - exists a7. split; [assumption |].
    eapply Forall2_impl; [| exact Hw].
    intros smi w [t' Hx]. now apply weigh_ok in Hx.
  - congruence.
Qed.

(** The table after line 248 of a successful run on a non-empty input. *)
Lemma assess_columns v s df0 t g :
  assess env v s df0 = (t, inr g) ->
  (0 < nrows df0)%nat ->
  exists p1 p2 p3,
    predict_restricted (model1 g) (feature_names_in_ (model1 g)) (data_input g) = inr p1 /\
    predict_restricted (model2 g) (feature_names_in_ (model2 g)) (data_input g) = inr p2 /\
    predict_restricted (model3 g) (feature_names_in_ (model3 g)) (data_input g) = inr p3 /\
    List.length p1 = nrows df0 /\
    List.length p2 = nrows df0 /\
    List.length p3 = nrows df0 /\
    (nrows df0 <= List.length (mw_calc g))%nat /\
    df g = aggregated df0 p1 p2 p3 (mw_calc g).
Proof.
  unfold assess. intros H Hn.
  repeat step_ok H.
  apply ret_ok in H. destruct H as [<- _]. cbn.
  apply predict_and_convert_ok in Hstep9; [| assumption].
  destruct Hstep9 as (p1 & P1 & L1 & Lw & ->).
  apply predict_and_convert_ok in Hstep10; [| assumption].
  destruct Hstep10 as (p2 & P2 & L2 & _ & ->).
  apply predict_and_convert_ok in Hstep11; [| assumption].
  destruct Hstep11 as (p3 & P3 & L3 & _ & ->).
  cbn [nrows with_column] in *.
  rewrite across_models_Num with (p1 := p1) (p2 := p2) (p3 := p3) in Hstep12
    by (getitem_simpl; reflexivity).
  inversion Hstep12; subst. clear Hstep12.
  leaf_ok Hstep13. apply setitem_nonempty in Hstep13; [| assumption].
  destruct Hstep13 as [-> _].
  rewrite across_models_Num with (p1 := p1) (p2 := p2) (p3 := p3) in Hstep14
    by (getitem_simpl; reflexivity).
  inversion Hstep14; subst. clear Hstep14.
  leaf_ok Hstep15. apply setitem_nonempty in Hstep15; [| assumption].
  destruct Hstep15 as [-> _].
  rewrite across_models_Num with (p1 := mgL_values p1 a8) (p2 := mgL_values p2 a8)
    (p3 := mgL_values p3 a8) in Hstep16 by (getitem_simpl; reflexivity).
  inversion Hstep16; subst. clear Hstep16.
  leaf_ok Hstep17. apply setitem_nonempty in Hstep17; [| assumption].
  destruct Hstep17 as [-> _].
  rewrite across_models_Num with (p1 := mgL_values p1 a8) (p2 := mgL_values p2 a8)
    (p3 := mgL_values p3 a8) in Hstep18 by (getitem_simpl; reflexivity).
  inversion Hstep18; subst. clear Hstep18.
  leaf_ok Hstep19. apply setitem_nonempty in Hstep19; [| assumption].
  destruct Hstep19 as [-> _].
  exists p1, p2, p3. repeat split; try assumption.
  unfold aggregated, across. now rewrite !map_map.
Qed.

Lemma write_excel_ok path table t u :
  write_excel env path table = (t, inr u) -> t = [ToExcel path table].
Proof.
  unfold write_excel. intros H. step_ok H. leaves_ok. subst. reflexivity.
Qed.

Lemma export_ok (summary : option string) (out : Frame) t u :
  (if truthy summary
   then
     selected <- call (loc_columns out summary_columns) ;;
     write_excel env ("Summary_predictions_" ++ strftime_d_m_Y (datetime_now env) ++ ".xlsx")
                 selected ;;
     shown <- call (loc_columns out summary_columns) ;;
     emit (PrintFrame shown)
   else
     write_excel env ("Predictions_" ++ strftime_d_m_Y (datetime_now env) ++ ".xlsx") out ;;
     emit (PrintFrame out)) = (t, inr u) ->
  export_events env summary out t.
Proof.
  unfold export_events. destruct (truthy summary); intros H.
  - repeat step_ok H. leaves_ok. apply write_excel_ok in Hstep0.
    subst. rewrite Hstep in Hstep1. inversion Hstep1; subst. eauto.
  - repeat step_ok H. leaves_ok. apply write_excel_ok in Hstep.
    subst. reflexivity.
Qed.

(** Lines 251-277 of a successful run, whatever the size of the table. *)
Lemma round_and_export_structure g t out :
  round_and_export env g = (t, inr out) ->
  exists domain,
    predict_restricted (ad g) (feature_names_in_ (model2 g)) (data_input g) = inr domain /\
    getitem (df out) "Applicability Domain" = inr (map Int domain) /\
    nrows (df out) = List.length domain /\
    labels (df out) =
      add_label (add_label (labels (df g)) "Consensus AND Uncertanty [mg/L]")
                "Applicability Domain" /\
    out = set_df g (df out) /\
    export_events env (summary g) (df out) t.
Proof.
  unfold round_and_export. intros H.
  repeat step_ok H. leaves_ok. apply export_ok in Hstep6. subst.
  exists a4. cbn [df set_df].
  destruct (setitem_getitem _ _ _ _ Hstep5) as [G N].
  rewrite length_map in N.
  apply setitem_labels in Hstep3, Hstep5. rewrite labels_round3 in Hstep3.
  rewrite !app_nil_l, app_nil_r.
  repeat split; try assumption. congruence.
Qed.

(** Lines 251-277 of a successful run on a non-empty table. *)
Lemma round_and_export_columns g t out df0 p1 p2 p3 :
  round_and_export env g = (t, inr out) ->
  df g = aggregated df0 p1 p2 p3 (mw_calc g) ->
  (0 < nrows df0)%nat ->
  exists domain,
    predict_restricted (ad g) (feature_names_in_ (model2 g)) (data_input g) = inr domain /\
    List.length domain = nrows df0 /\
    df out = finished env (df g) p1 p2 p3 (mw_calc g) domain.
Proof.
  unfold round_and_export. intros H Hdf Hn.
  repeat step_ok H.
  leaf_ok Hstep. leaf_ok Hstep0.
  rewrite getitem_round3, Hdf in Hstep, Hstep0.
  unfold aggregated in Hstep, Hstep0.
  revert Hstep Hstep0. getitem_simpl. rewrite !round_column_Num.
  intros Hstep Hstep0. inversion Hstep; inversion Hstep0; subst a a0.
  clear Hstep Hstep0.
  leaf_ok Hstep1. leaf_ok Hstep2. rewrite floats_Num in Hstep1, Hstep2.
  inversion Hstep1; inversion Hstep2; subst a1 a2. clear Hstep1 Hstep2.
  leaf_ok Hstep3. apply setitem_nonempty in Hstep3;
    [| rewrite Hdf; cbn; assumption].
  destruct Hstep3 as [-> _].
  leaf_ok Hstep4. leaf_ok Hstep5.
  apply setitem_nonempty in Hstep5; [| rewrite Hdf; cbn; assumption].
  destruct Hstep5 as [-> Ld]. rewrite length_map in Ld.
  apply ret_ok in H. destruct H as [<- ->].
  exists a4. split; [assumption |]. split; [rewrite Ld, Hdf; reflexivity |].
  reflexivity.
Qed.

(** A successful run of the whole script, split at line 248. *)
Lemma main_structure given t g :
  main env given = (t, inr g) ->
  exists v s df0 pre t2,
    snd (read_input env given) = inr (v, s, df0) /\
    s = arg_summary given /\
    match arg_smiles given with
    | Some x => x = v /\ arg_filename given = None
    | None => arg_filename given = Some v
    end /\
    (if contains ".xlsx" v then read_excel env v = inr df0
     else df0 = DataFrame_single "SMILES" v) /\
    assess env v s df0 =
      ([Print ("Molecular descriptors calculation...." ++ nl);
        Print ("MDs tranformation..." ++ nl);
        Print "Model Assessment..."], inr pre) /\
    round_and_export env pre = (t2, inr g) /\
    t = (progress v ++ t2)%list.
Proof.
  unfold main, predictions_and_consensus. intros H.
  step_ok H. repeat step_ok Hstep. leaf_ok Hstep0.
  destruct a1 as [[v s] df0]. cbn [fst snd] in *.
  assert (Hr := Hstep1). apply read_input_ok in Hr.
  destruct Hr as (-> & -> & Hflag & Hload).
  assert (Ha := Hstep). apply assess_structure in Ha. destruct Ha as (-> & _).
  exists v, (arg_summary given), df0, a, t1.
  rewrite Hstep1. subst. repeat split; auto.
Qed.

End Steps.

(** ** Row by row *)

Lemma nth_error_exists {A} (l : list A) i :
  (i < List.length l)%nat -> exists x, nth_error l i = Some x.
Proof.
  intros Hi. destruct (nth_error l i) eqn:E; [eauto |].
  apply nth_error_None in E. lia.
Qed.

Lemma nth_error_combine {A B} (a : list A) (b : list B) i x y :
  nth_error a i = Some x -> nth_error b i = Some y ->
  nth_error (combine a b) i = Some (x, y).
Proof.
  revert b i. induction a as [| a0 a IH]; intros [| b0 b] [| i]; cbn;
    try discriminate; [congruence | apply IH].
Qed.

Lemma nth_error_across f a b c i y1 y2 y3 :
  nth_error a i = Some y1 -> nth_error b i = Some y2 -> nth_error c i = Some y3 ->
  nth_error (across f a b c) i = Some (f [y1; y2; y3]).
Proof.
  intros Ha Hb Hc. unfold across, zip3.
  rewrite (map_nth_error _ _ _ (d := (y1, y2, y3))); [reflexivity |].
  apply nth_error_combine; [apply nth_error_combine |]; assumption.
Qed.

Lemma nth_error_mgL_values p mw i c w :
  nth_error p i = Some c -> nth_error mw i = Some w ->
  nth_error (mgL_values p mw) i = Some (to_mgL c w).
Proof.
  intros Hp Hw. unfold mgL_values.
  rewrite (map_nth_error _ _ _ (d := (c, w))); [reflexivity |].
  now apply nth_error_combine.
Qed.

Lemma Forall2_nth_error {A B} (P : A -> B -> Prop) l l' i y :
  Forall2 P l l' -> nth_error l' i = Some y ->
  exists x, nth_error l i = Some x /\ P x y.
Proof.
  intros HF. revert i. induction HF as [| x0 y0 l l' HP HF IH]; intros [| i]; cbn;
    try discriminate.
  - intros E. inversion E; subst. eauto.
  - apply IH.
Qed.

Lemma Forall2_weighed_Str {Mol} (env : Env Mol) smis mw :
  Forall2 (weighed env) smis mw -> Forall (fun c => exists s, c = Str s) smis.
Proof.
  induction 1 as [| smi w smis mw (s & mol & -> & _) _ IH]; constructor; eauto.
Qed.

Lemma cell_at_getitem df key col i c :
  getitem df key = inr col -> nth_error col i = Some c -> cell_at df key i = Some c.
Proof. unfold cell_at. now intros ->. Qed.

Section Rows.

Context {Mol : Type}.
Variable env : Env Mol.

(** The two tables of a successful run on a non-empty input. *)
Lemma main_columns given t g v s df0 :
  main env given = (t, inr g) ->
  snd (read_input env given) = inr (v, s, df0) ->
  (0 < nrows df0)%nat ->
  exists pre p1 p2 p3 domain smis,
    predictions_and_consensus env given = (progress v, inr pre) /\
    predict_restricted (model1 g) (feature_names_in_ (model1 g)) (data_input g) = inr p1 /\
    predict_restricted (model2 g) (feature_names_in_ (model2 g)) (data_input g) = inr p2 /\
    predict_restricted (model3 g) (feature_names_in_ (model3 g)) (data_input g) = inr p3 /\
    predict_restricted (ad g) (feature_names_in_ (model2 g)) (data_input g) = inr domain /\
    List.length p1 = nrows df0 /\
    List.length p2 = nrows df0 /\
    List.length p3 = nrows df0 /\
    List.length domain = nrows df0 /\
    (nrows df0 <= List.length (mw_calc g))%nat /\
    getitem df0 "SMILES" = inr smis /\
    Forall2 (weighed env) smis (mw_calc g) /\
    df pre = aggregated df0 p1 p2 p3 (mw_calc g) /\
    df g = finished env (df pre) p1 p2 p3 (mw_calc g) domain.
Proof.
  intros Hmain Hin Hn.
  destruct (main_structure env _ _ _ Hmain)
    as (v' & s' & df0' & pre & t2 & Hin' & _ & _ & _ & Ha & Hr & _).
  rewrite Hin in Hin'. inversion Hin'; subst v' s' df0'. clear Hin'.
  destruct (assess_structure env _ _ _ _ _ Ha)
    as (_ & _ & _ & _ & _ & _ & (smis & Hs & Hw) & _).
  destruct (assess_columns env _ _ _ _ _ Ha Hn)
    as (p1 & p2 & p3 & P1 & P2 & P3 & L1 & L2 & L3 & Lw & Hpre).
  destruct (round_and_export_columns env _ _ _ _ _ _ _ Hr Hpre Hn)
    as (domain & PD & LD & Hout).
  destruct (round_and_export_structure env _ _ _ Hr) as (_ & _ & _ & _ & _ & Hg & _).
  assert (Hsame : model1 g = model1 pre /\ model2 g = model2 pre /\
                  model3 g = model3 pre /\ data_input g = data_input pre /\
                  mw_calc g = mw_calc pre /\ ad g = ad pre)
    by (rewrite Hg; cbn; auto 10).
  destruct Hsame as (-> & -> & -> & -> & -> & ->).
  exists pre, p1, p2, p3, domain, smis. repeat split; try assumption.
  unfold predictions_and_consensus, progress.
  destruct (read_input env given) as [ti [h | inp]] eqn:R; cbn in Hin; [discriminate |].
  inversion Hin; subst inp.
  apply read_input_ok in R. destruct R as (-> & _).
  unfold bind at 2. cbn [fst snd]. rewrite Ha. reflexivity.
Qed.

End Rows.

Lemma nth_error_display {Mol} (env : Env Mol) ys us i y u :
  nth_error ys i = Some y -> nth_error us i = Some u ->
  nth_error (display env ys us) i
  = Some (Str (str_float env y ++ " " ++ plus_minus ++ " " ++ str_float env u)).
Proof.
  intros Hy Hu. unfold display.
  rewrite (map_nth_error _ _ _ (d := (y, u))); [reflexivity |].
  now apply nth_error_combine.
Qed.

Ltac nth_solve :=
  repeat (assumption || apply map_nth_error || apply nth_error_across
          || apply nth_error_mgL_values || apply nth_error_display).

Section RowFacts.

Context {Mol : Type}.
Variable env : Env Mol.

Lemma main_rows given t g v s df0 :
  main env given = (t, inr g) ->
  snd (read_input env given) = inr (v, s, df0) ->
  (0 < nrows df0)%nat ->
  exists pre,
    predictions_and_consensus env given = (progress v, inr pre) /\
    nrows (df pre) = nrows df0 /\
    nrows (df g) = nrows df0 /\
    forall i, (i < nrows df0)%nat ->
      exists y1 y2 y3 w smi d, Row env df0 (df pre) g i y1 y2 y3 w smi d.
Proof.
  intros Hmain Hin Hn.
  destruct (main_columns env _ _ _ _ _ _ Hmain Hin Hn)
    as (pre & p1 & p2 & p3 & domain & smis & Hpc & P1 & P2 & P3 & PD
        & L1 & L2 & L3 & LD & Lw & Hs & Hw & Hpre & Hout).
  exists pre. split; [assumption |].
  split; [rewrite Hpre; reflexivity |].
  split; [rewrite Hout, Hpre; reflexivity |].
  intros i Hi.
  destruct (nth_error_exists p1 i) as [y1 Y1]; [lia |].
  destruct (nth_error_exists p2 i) as [y2 Y2]; [lia |].
  destruct (nth_error_exists p3 i) as [y3 Y3]; [lia |].
  destruct (nth_error_exists domain i) as [d D]; [lia |].
  destruct (nth_error_exists (mw_calc g) i) as [w W]; [lia |].
  destruct (Forall2_nth_error _ _ _ _ _ Hw W) as (smi & S & HW).
  assert (HStr := Forall2_weighed_Str _ _ _ Hw).
  exists y1, y2, y3, w, smi, d.
  constructor;
    try (unfold prediction; rewrite ?P1, ?P2, ?P3; assumption);
    try assumption;
    try (rewrite Hpre; unfold aggregated;
         eapply cell_at_getitem; [getitem_simpl; reflexivity | nth_solve]);
    try (rewrite Hout, Hpre; unfold finished, aggregated;
         eapply cell_at_getitem;
         [getitem_simpl; try reflexivity;
          rewrite getitem_round3; getitem_simpl;
          rewrite ?round_column_Num; reflexivity
         | nth_solve]).
  - eapply cell_at_getitem; eassumption.
  - eauto.
  - rewrite Hout, Hpre. unfold finished, aggregated.
    eapply cell_at_getitem; [| exact S].
    getitem_simpl. rewrite getitem_round3. getitem_simpl. rewrite Hs.
    now rewrite round_column_Str.
Qed.

End RowFacts.

(** ** The helpers on concrete values *)

Lemma prefix_app (n b : string) : prefix n (n ++ b) = true.
Proof.
  induction n as [| c n IH]; cbn; [now destruct b |].
  destruct (ascii_dec c c); [exact IH | congruence].
Qed.

Lemma prefix_inv (n h : string) : prefix n h = true -> exists b, h = n ++ b.
Proof.
  revert h. induction n as [| c n IH]; intros h.
  - intros _. now exists h.
  - destruct h as [| c' h]; cbn; [discriminate |].
    destruct (ascii_dec c c') as [<- |]; [| discriminate].
    intros H. destruct (IH _ H) as [b ->]. now exists b.
Qed.

(** [contains] is the substring test. *)
Lemma contains_spec (needle hay : string) :
  contains needle hay = true <-> exists a b, hay = a ++ needle ++ b.
Proof.
  induction hay as [| c hay IH]; cbn [contains].
  - destruct (prefix needle "") eqn:P; split; intros H.
    + apply prefix_inv in P. destruct P as [b P]. now exists "", b.
    + reflexivity.
    + discriminate.
    + destruct H as (a & b & E). destruct a; [| discriminate].
      cbn in E. rewrite E, prefix_app in P. discriminate.
  - destruct (prefix needle (String c hay)) eqn:P.
    + split; [| reflexivity]. intros _.
      apply prefix_inv in P. destruct P as [b P]. now exists "", b.
    + rewrite IH. split.
      * intros (a & b & ->). now exists (String c a), b.
      * intros (a & b & E). destruct a as [| c' a].
        -- cbn in E. rewrite E, prefix_app in P. discriminate.
        -- cbn in E. inversion E; subst. eauto.
Qed.

Example contains_xlsx_in_path : contains ".xlsx" "data/batch.xlsx" = true.
Proof. reflexivity. Qed.

Example contains_xlsx_in_the_middle : contains ".xlsx" "CC.xlsxO" = true.
Proof. reflexivity. Qed.

Example contains_xlsx_not_in_smiles : contains ".xlsx" "c1ccccc1O" = false.
Proof. reflexivity. Qed.

Example truthy_values :
  truthy (Some "0") = true /\ truthy (Some "False") = true /\ truthy (Some "no") = true
  /\ truthy (Some "") = false /\ truthy None = false.
Proof. repeat split; reflexivity. Qed.

Example strftime_example : strftime_d_m_Y (mkDate 4 11 2026) = "04_11_2026".
Proof. reflexivity. Qed.

Example path_join_example :
  path_join3 "/opt/AntioxidantActivity" "pipeline_and_AD" "AD_clf.pkl"
  = "/opt/AntioxidantActivity/pipeline_and_AD/AD_clf.pkl".
Proof. reflexivity. Qed.

(** Assignment to a frame without rows: a non-empty value brings its own
    index, and the columns already there are filled with NaN. *)
Example setitem_on_empty_index :
  setitem (mkFrame 0 [("SMILES", [])]) "Applicability Domain" [Int 1; Int 0]
  = inr (mkFrame 2 [("SMILES", [NaN; NaN]); ("Applicability Domain", [Int 1; Int 0])]).
Proof. reflexivity. Qed.

Example setitem_length_mismatch :
  setitem (mkFrame 2 [("SMILES", [Str "CCO"; Str "CCC"])]) "x" [Int 1] = inl "ValueError".
Proof. reflexivity. Qed.

Example setitem_replaces_in_place :
  setitem (mkFrame 1 [("x", [Int 0]); ("SMILES", [Str "CCO"])]) "x" [Int 1]
  = inr (mkFrame 1 [("x", [Int 1]); ("SMILES", [Str "CCO"])]).
Proof. reflexivity. Qed.

(** Descriptor errors become NaN, everything else is kept. *)
Example mordred_calculator_example :
  mordred_calculator Demo.env (DataFrame_single "SMILES" "CCO")
  = ([], inr (mkFrame 1 [("SMILES", [Str "CCO"]); ("nAcid", [Int 0]);
                          ("SLogP", [NaN]); ("nHBDon", [Int 1])])).
Proof. reflexivity. Qed.

(** ** The numeric model on concrete values *)

Lemma Int_part_between (x : R) (z : Z) :
  (IZR z <= x < IZR z + 1)%R -> Int_part x = z.
Proof. intros [H1 H2]. symmetry. apply Int_part_spec. lra. Qed.

Lemma rint_below (x : R) (z : Z) :
  (IZR z <= x < IZR z + 1 / 2)%R -> rint x = z.
Proof.
  intros [H1 H2]. unfold rint.
  rewrite (Int_part_between x z) by lra.
  destruct (Rlt_dec (x - IZR z) (1 / 2)); [reflexivity | lra].
Qed.

Lemma rint_above (x : R) (z : Z) :
  (IZR z + 1 / 2 < x < IZR z + 1)%R -> rint x = (z + 1)%Z.
Proof.
  intros [H1 H2]. unfold rint.
  rewrite (Int_part_between x z) by lra.
  destruct (Rlt_dec (x - IZR z) (1 / 2)); [lra |].
  destruct (Rlt_dec (1 / 2) (x - IZR z)); [reflexivity | lra].
Qed.

Lemma rint_half (z : Z) :
  rint (IZR z + 1 / 2) = if Z.even z then z else (z + 1)%Z.
Proof.
  unfold rint. rewrite (Int_part_between _ z) by lra.
  destruct (Rlt_dec (IZR z + 1 / 2 - IZR z) (1 / 2)); [lra |].
  destruct (Rlt_dec (1 / 2) (IZR z + 1 / 2 - IZR z)); [lra | reflexivity].
Qed.

(** A value with at most three decimals is left as it is. *)
Lemma np_round3_thousandths (z : Z) : np_round3 (IZR z / 1000) = (IZR z / 1000)%R.
Proof.
  unfold np_round3. replace (IZR z / 1000 * 1000)%R with (IZR z) by field.
  rewrite (rint_below _ z) by lra. reflexivity.
Qed.

(** Ties go to the even neighbour: 0.0005 becomes 0.000 and 0.0015 becomes
    0.002. *)
Example np_round3_tie_down : np_round3 (5 / 10000) = 0%R.
Proof.
  unfold np_round3. replace (5 / 10000 * 1000)%R with (IZR 0 + 1 / 2)%R by field.
  rewrite rint_half. cbn. field.
Qed.

Example np_round3_tie_up : np_round3 (15 / 10000) = (2 / 1000)%R.
Proof.
  unfold np_round3. replace (15 / 10000 * 1000)%R with (IZR 1 + 1 / 2)%R by field.
  rewrite rint_half. reflexivity.
Qed.

(** The example of the specification: the predictions 4.0, 4.2 and 4.1 have
    consensus 4.1, which the rounding leaves as it is. *)
Example consensus_of_example : np_mean [4; 42 / 10; 41 / 10]%R = (41 / 10)%R.
Proof. rewrite np_mean_3. unfold arithmetic_mean3. field. Qed.

Example rounded_consensus_of_example :
  np_round3 (np_mean [4; 42 / 10; 41 / 10]%R) = (41 / 10)%R.
Proof.
  rewrite consensus_of_example.
  replace (41 / 10)%R with (IZR 4100 / 1000)%R by field.
  apply np_round3_thousandths.
Qed.

(** Its uncertainty is the square root of 0.02 / 3, about 0.0816. *)
Example interval_of_example :
  np_std [4; 42 / 10; 41 / 10]%R = sqrt (2 / 300) /\
  (816 / 10000 < np_std [4; 42 / 10; 41 / 10] < 817 / 10000)%R.
Proof.
  assert (E : np_std [4; 42 / 10; 41 / 10]%R = sqrt (2 / 300)).
  { rewrite np_std_3. unfold population_std3, arithmetic_mean3. f_equal. field. }
  split; [exact E |]. rewrite E. split.
  - rewrite <- (sqrt_square (816 / 10000)) by lra. apply sqrt_lt_1; lra.
  - rewrite <- (sqrt_square (817 / 10000)) by lra. apply sqrt_lt_1; lra.
Qed.

(** The population estimator is not the sample-corrected one: on 1, 2, 3
    the first is the square root of 2/3 and the second is 1. *)
Lemma population_std_is_not_sample_std :
  np_std [1; 2; 3]%R = sqrt (2 / 3) /\ sample_std3 1 2 3 = 1%R /\
  np_std [1; 2; 3]%R <> sample_std3 1 2 3.
Proof.
  assert (E1 : np_std [1; 2; 3]%R = sqrt (2 / 3)).
  { rewrite np_std_3. unfold population_std3, arithmetic_mean3. f_equal. field. }
  assert (E2 : sample_std3 1 2 3 = 1%R).
  { unfold sample_std3, arithmetic_mean3.
    replace (((1 - (1 + 2 + 3) / 3) ^ 2 + (2 - (1 + 2 + 3) / 3) ^ 2
              + (3 - (1 + 2 + 3) / 3) ^ 2) / 2)%R with 1%R by field.
    apply sqrt_1. }
  repeat split; try assumption.
  rewrite E1, E2, <- sqrt_1. intros H. apply sqrt_inj in H; lra.
Qed.

(** Rounding the predictions first would change the consensus: for 0.0004,
    0.0004 and 0.0010 the rounded mean is 0.001, while the mean of the
    rounded values, rounded, is 0.000. *)
Lemma rounding_order_matters :
  np_round3 (np_mean [4 / 10000; 4 / 10000; 10 / 10000]%R) = (1 / 1000)%R /\
  np_round3 (np_mean [np_round3 (4 / 10000); np_round3 (4 / 10000);
                      np_round3 (10 / 10000)]%R) = 0%R.
Proof.
  assert (R4 : np_round3 (4 / 10000) = 0%R).
  { unfold np_round3. rewrite (rint_below _ 0); [field | lra]. }
  assert (R10 : np_round3 (10 / 10000) = (1 / 1000)%R).
  { replace (10 / 10000)%R with (IZR 1 / 1000)%R by field.
    apply np_round3_thousandths. }
  split.
  - rewrite np_mean_3. unfold arithmetic_mean3, np_round3.
    rewrite (rint_above _ 0); [reflexivity | lra].
  - rewrite R4, R10, np_mean_3. unfold arithmetic_mean3, np_round3.
    rewrite (rint_below _ 0); [field | lra].
Qed.

(** ** Runs in the concrete environment *)

Ltac run_script := cbv -[np_round3 np_std np_mean to_mgL IZR Rdiv].

(** [--smiles CCO]: one row, full output. *)
Lemma demo_single_runs :
  exists t g,
    main Demo.env (Demo.single "CCO") = (t, inr g) /\
    nrows (df g) = 1%nat /\
    ad g = Demo.clf /\
    cell_at (df g) "Consensus [-log(IC50) M]" 0
      = Some (Num (np_round3 (np_mean [4; 42 / 10; 41 / 10]%R))).
Proof.
  eexists. eexists. split; [run_script; reflexivity |].
  repeat split; reflexivity.
Qed.

(** [--filename batch.xlsx --summary 0]: two rows, summarized output. *)
Lemma demo_batch_runs :
  exists t g,
    main Demo.env (mkArgs None (Some "batch.xlsx") (Some "0")) = (t, inr g) /\
    nrows (df g) = 2%nat.
Proof.
  eexists. eexists. split; [run_script; reflexivity | reflexivity].
Qed.

Lemma demo_batch_labels : NoDup (labels Demo.batch).
Proof. repeat constructor; cbn; intuition discriminate. Qed.

(** On concrete command lines: [--smiles batch.xlsx] is read as the batch,
    [--filename CCO] is a single structure, and a structure string that
    happens to contain [".xlsx"] is looked up as a file. *)
Example smiles_option_with_xlsx :
  exists t g,
    main Demo.env (mkArgs (Some "batch.xlsx") None None) = (t, inr g) /\
    getitem (df g) "SMILES" = inr [Str "c1ccccc1O"; Str "CCO"].
Proof. eexists. eexists. split; [run_script; reflexivity | reflexivity]. Qed.

Example filename_option_without_xlsx :
  exists t g,
    main Demo.env (mkArgs None (Some "CCO") None) = (t, inr g) /\
    getitem (df g) "SMILES" = inr [Str "CCO"].
Proof. eexists. eexists. split; [run_script; reflexivity | reflexivity]. Qed.

Example structure_string_with_xlsx :
  main Demo.env (mkArgs (Some "CC.xlsxO") None None)
  = ([Print banner; Print "Input value: CC.xlsxO"], inl (Traceback "FileNotFoundError")).
Proof. reflexivity. Qed.

Example both_options_is_a_usage_error :
  main Demo.env (mkArgs (Some "CCO") (Some "batch.xlsx") None)
  = ([Print banner], inl (SysExit 2)).
Proof. reflexivity. Qed.

(* ------------------------------------------------------------------ *)
(** * The claims *)

Section Aggregation.

Context {Mol : Type}.
Variable env : Env Mol.

(** A successful run [main env given = (t, inr g)] whose input table [df0]
    (built by lines 177-188) has at least one row.  On a table without rows
    a column assignment takes its index from the value assigned (see
    [setitem_on_empty_index]), so the length checks that tie the arrays of
    the collaborators to the input rows are not made. *)
Variables (given : Namespace) (t : list event) (g : Globals).
Variables (v : string) (s : option string) (df0 : Frame).
Hypothesis Hmain : main env given = (t, inr g).
Hypothesis Hinput : snd (read_input env given) = inr (v, s, df0).
Hypothesis Hrows : (0 < nrows df0)%nat.

(** C2.  For every molecule (row [i]) of the result table, the consensus
    value is the arithmetic mean of the three per-model predictions, in
    log-molar units and, independently, in mg/L: in the table as it stands
    after the aggregation (line 248) the two consensus cells are the means
    of the three prediction cells of their unit system, and in the final
    table they are those means rounded to three decimals. *)
Theorem consensus_is_arithmetic_mean :
  exists pre,
    predictions_and_consensus env given = (progress v, inr pre) /\
    forall i, (i < nrows (df g))%nat ->
      exists y1 y2 y3 m1 m2 m3,
        prediction (model1 g) g i = Some y1 /\
        prediction (model2 g) g i = Some y2 /\
        prediction (model3 g) g i = Some y3 /\
        cell_at (df pre) "Predictions_ETR [-log(IC50) M]" i = Some (Num y1) /\
        cell_at (df pre) "Predictions_XGB [-log(IC50) M]" i = Some (Num y2) /\
        cell_at (df pre) "Predictions_GB [-log(IC50) M]" i = Some (Num y3) /\
        cell_at (df pre) "Predictions_ETR [mg/L]" i = Some (Num m1) /\
        cell_at (df pre) "Predictions_XGB [mg/L]" i = Some (Num m2) /\
        cell_at (df pre) "Predictions_GB [mg/L]" i = Some (Num m3) /\
        cell_at (df pre) "Consensus [-log(IC50) M]" i
          = Some (Num (arithmetic_mean3 y1 y2 y3)) /\
        cell_at (df pre) "Consensus [mg/L]" i
          = Some (Num (arithmetic_mean3 m1 m2 m3)) /\
        cell_at (df g) "Consensus [-log(IC50) M]" i
          = Some (Num (np_round3 (arithmetic_mean3 y1 y2 y3))) /\
        cell_at (df g) "Consensus [mg/L]" i
          = Some (Num (np_round3 (arithmetic_mean3 m1 m2 m3))).
Proof.
  destruct (main_rows env _ _ _ _ _ _ Hmain Hinput Hrows)
    as (pre & Hpre & _ & Hn & Hrow).
  exists pre. split; [assumption |].
  intros i Hi. rewrite Hn in Hi.
  destruct (Hrow i Hi) as (y1 & y2 & y3 & w & smi & d & []).
  exists y1, y2, y3, (to_mgL y1 w), (to_mgL y2 w), (to_mgL y3 w).
  rewrite <- !np_mean_3. repeat split; assumption.
Qed.

(** C3.  For every molecule of the result table, the uncertainty value is
    the population standard deviation (divisor 3) of the same three
    per-model predictions, in log-molar units and, independently, in mg/L;
    the final table holds it rounded to three decimals. *)
Theorem interval_is_population_std :
  exists pre,
    predictions_and_consensus env given = (progress v, inr pre) /\
    forall i, (i < nrows (df g))%nat ->
      exists y1 y2 y3 m1 m2 m3,
        prediction (model1 g) g i = Some y1 /\
        prediction (model2 g) g i = Some y2 /\
        prediction (model3 g) g i = Some y3 /\
        cell_at (df pre) "Predictions_ETR [-log(IC50) M]" i = Some (Num y1) /\
        cell_at (df pre) "Predictions_XGB [-log(IC50) M]" i = Some (Num y2) /\
        cell_at (df pre) "Predictions_GB [-log(IC50) M]" i = Some (Num y3) /\
        cell_at (df pre) "Predictions_ETR [mg/L]" i = Some (Num m1) /\
        cell_at (df pre) "Predictions_XGB [mg/L]" i = Some (Num m2) /\
        cell_at (df pre) "Predictions_GB [mg/L]" i = Some (Num m3) /\
        cell_at (df pre) "Interval [-log(IC50) M]" i
          = Some (Num (population_std3 y1 y2 y3)) /\
        cell_at (df pre) "Interval [mg/L]" i
          = Some (Num (population_std3 m1 m2 m3)) /\
        cell_at (df g) "Interval [-log(IC50) M]" i
          = Some (Num (np_round3 (population_std3 y1 y2 y3))) /\
        cell_at (df g) "Interval [mg/L]" i
          = Some (Num (np_round3 (population_std3 m1 m2 m3))).
Proof.
  destruct (main_rows env _ _ _ _ _ _ Hmain Hinput Hrows)
    as (pre & Hpre & _ & Hn & Hrow).
  exists pre. split; [assumption |].
  intros i Hi. rewrite Hn in Hi.
  destruct (Hrow i Hi) as (y1 & y2 & y3 & w & smi & d & []).
  exists y1, y2, y3, (to_mgL y1 w), (to_mgL y2 w), (to_mgL y3 w).
  rewrite <- !np_std_3. repeat split; assumption.
Qed.

(** C4.  For every molecule and each of the three models, the mg/L
    prediction before rounding is [10^(-p) * w * 1000], where [p] is that
    model's log-molar prediction for the molecule and [w] is the molecular
    weight the structure library computes from the molecule parsed from the
    row's structure string. *)
Theorem mgL_conversion :
  exists pre,
    predictions_and_consensus env given = (progress v, inr pre) /\
    forall i, (i < nrows (df g))%nat ->
      exists p1 p2 p3 w smiles mol,
        cell_at df0 "SMILES" i = Some (Str smiles) /\
        MolFromSmiles env smiles = inr mol /\
        MolWt env mol = inr w /\
        cell_at (df pre) "Predictions_ETR [-log(IC50) M]" i = Some (Num p1) /\
        cell_at (df pre) "Predictions_XGB [-log(IC50) M]" i = Some (Num p2) /\
        cell_at (df pre) "Predictions_GB [-log(IC50) M]" i = Some (Num p3) /\
        cell_at (df pre) "Predictions_ETR [mg/L]" i
          = Some (Num (Rpower 10 (- p1) * w * 1000)) /\
        cell_at (df pre) "Predictions_XGB [mg/L]" i
          = Some (Num (Rpower 10 (- p2) * w * 1000)) /\
        cell_at (df pre) "Predictions_GB [mg/L]" i
          = Some (Num (Rpower 10 (- p3) * w * 1000)).
Proof.
  destruct (main_rows env _ _ _ _ _ _ Hmain Hinput Hrows)
    as (pre & Hpre & _ & Hn & Hrow).
  exists pre. split; [assumption |].
  intros i Hi. rewrite Hn in Hi.
  destruct (Hrow i Hi) as (y1 & y2 & y3 & w & smi & d & []).
  destruct row_weighed0 as (smiles & mol & -> & Hparse & Hw).
  exists y1, y2, y3, w, smiles, mol. unfold to_mgL in *. repeat split; assumption.
Qed.

(** C5.  Rounding to three decimals is applied after the aggregation: for
    every molecule the consensus and the uncertainty of the final table are
    the rounded mean and standard deviation of the full-precision per-model
    predictions (the per-model columns themselves are rounded only in the
    final table), and the display string is made of the rounded mg/L
    consensus and the rounded mg/L uncertainty. *)
Theorem rounding_after_aggregation :
  exists pre,
    predictions_and_consensus env given = (progress v, inr pre) /\
    forall i, (i < nrows (df g))%nat ->
    exists y1 y2 y3 m1 m2 m3,
      prediction (model1 g) g i = Some y1 /\
      prediction (model2 g) g i = Some y2 /\
      prediction (model3 g) g i = Some y3 /\
      cell_at (df pre) "Predictions_ETR [mg/L]" i = Some (Num m1) /\
      cell_at (df pre) "Predictions_XGB [mg/L]" i = Some (Num m2) /\
      cell_at (df pre) "Predictions_GB [mg/L]" i = Some (Num m3) /\
      cell_at (df g) "Predictions_ETR [-log(IC50) M]" i = Some (Num (np_round3 y1)) /\
      cell_at (df g) "Predictions_XGB [-log(IC50) M]" i = Some (Num (np_round3 y2)) /\
      cell_at (df g) "Predictions_GB [-log(IC50) M]" i = Some (Num (np_round3 y3)) /\
      cell_at (df g) "Predictions_ETR [mg/L]" i = Some (Num (np_round3 m1)) /\
      cell_at (df g) "Predictions_XGB [mg/L]" i = Some (Num (np_round3 m2)) /\
      cell_at (df g) "Predictions_GB [mg/L]" i = Some (Num (np_round3 m3)) /\
      cell_at (df g) "Consensus [-log(IC50) M]" i
        = Some (Num (np_round3 (np_mean [y1; y2; y3]))) /\
      cell_at (df g) "Interval [-log(IC50) M]" i
        = Some (Num (np_round3 (np_std [y1; y2; y3]))) /\
      cell_at (df g) "Consensus [mg/L]" i
        = Some (Num (np_round3 (np_mean [m1; m2; m3]))) /\
      cell_at (df g) "Interval [mg/L]" i
        = Some (Num (np_round3 (np_std [m1; m2; m3]))) /\
      cell_at (df g) "Consensus AND Uncertanty [mg/L]" i
        = Some (Str (str_float env (np_round3 (np_mean [m1; m2; m3]))
                     ++ " " ++ plus_minus ++ " "
                     ++ str_float env (np_round3 (np_std [m1; m2; m3])))).
Proof.
  destruct (main_rows env _ _ _ _ _ _ Hmain Hinput Hrows)
    as (pre & Hpre & _ & Hn & Hrow).
  exists pre. split; [assumption |].
  intros i Hi. rewrite Hn in Hi.
  destruct (Hrow i Hi) as (y1 & y2 & y3 & w & smi & d & []).
  exists y1, y2, y3, (to_mgL y1 w), (to_mgL y2 w), (to_mgL y3 w).
  repeat split; assumption.
Qed.

End Aggregation.

Lemma consensus_is_arithmetic_mean_witness :
  exists t g y1 y2 y3 m1 m2 m3,
    main Demo.env (Demo.single "CCO") = (t, inr g) /\
    prediction (model1 g) g 0 = Some y1 /\
    prediction (model2 g) g 0 = Some y2 /\
    prediction (model3 g) g 0 = Some y3 /\
    cell_at (df g) "Consensus [-log(IC50) M]" 0
      = Some (Num (np_round3 (arithmetic_mean3 y1 y2 y3))) /\
    cell_at (df g) "Consensus [mg/L]" 0
      = Some (Num (np_round3 (arithmetic_mean3 m1 m2 m3))).
Proof.
  destruct demo_single_runs as (t & g & H & Hn & _).
  destruct (consensus_is_arithmetic_mean Demo.env (Demo.single "CCO") t g
              "CCO" None (DataFrame_single "SMILES" "CCO") H eq_refl)
    as (pre & _ & Hrow); [cbn; lia |].
  destruct (Hrow 0%nat) as (y1 & y2 & y3 & m1 & m2 & m3 & Hc); [rewrite Hn; lia |].
  exists t, g, y1, y2, y3, m1, m2, m3. intuition.
Defined.

Lemma interval_is_population_std_witness :
  exists t g y1 y2 y3 m1 m2 m3,
    main Demo.env (mkArgs None (Some "batch.xlsx") (Some "0")) = (t, inr g) /\
    prediction (model1 g) g 1 = Some y1 /\
    prediction (model2 g) g 1 = Some y2 /\
    prediction (model3 g) g 1 = Some y3 /\
    cell_at (df g) "Interval [-log(IC50) M]" 1
      = Some (Num (np_round3 (population_std3 y1 y2 y3))) /\
    cell_at (df g) "Interval [mg/L]" 1
      = Some (Num (np_round3 (population_std3 m1 m2 m3))).
Proof.
  destruct demo_batch_runs as (t & g & H & Hn).
  destruct (interval_is_population_std Demo.env
              (mkArgs None (Some "batch.xlsx") (Some "0")) t g
              "batch.xlsx" (Some "0") Demo.batch H eq_refl)
    as (pre & _ & Hrow); [cbn; lia |].
  destruct (Hrow 1%nat) as (y1 & y2 & y3 & m1 & m2 & m3 & Hc); [rewrite Hn; lia |].
  exists t, g, y1, y2, y3, m1, m2, m3. intuition.
Defined.

Lemma mgL_conversion_witness :
  exists t g pre p w,
    main Demo.env (Demo.single "CCO") = (t, inr g) /\
    predictions_and_consensus Demo.env (Demo.single "CCO") = (progress "CCO", inr pre) /\
    MolWt Demo.env (Some 1%nat) = inr w /\
    cell_at (df pre) "Predictions_XGB [-log(IC50) M]" 0 = Some (Num p) /\
    cell_at (df pre) "Predictions_XGB [mg/L]" 0 = Some (Num (Rpower 10 (- p) * w * 1000)).
Proof.
  destruct demo_single_runs as (t & g & H & Hn & _).
  destruct (mgL_conversion Demo.env (Demo.single "CCO") t g
              "CCO" None (DataFrame_single "SMILES" "CCO") H eq_refl)
    as (pre & Hpre & Hrow); [cbn; lia |].
  destruct (Hrow 0%nat) as (p1 & p2 & p3 & w & smiles & mol & Hs & Hm & Hw & Hc);
    [rewrite Hn; lia |].
  cbn in Hs. inversion Hs; subst smiles. cbn in Hm. inversion Hm; subst mol.
  exists t, g, pre, p2, w. intuition.
Defined.

Lemma rounding_after_aggregation_witness :
  exists t g y1 y2 y3 m1 m2 m3,
    main Demo.env (Demo.single "CCO") = (t, inr g) /\
    cell_at (df g) "Predictions_ETR [-log(IC50) M]" 0 = Some (Num (np_round3 y1)) /\
    cell_at (df g) "Consensus [-log(IC50) M]" 0
      = Some (Num (np_round3 (np_mean [y1; y2; y3]))) /\
    cell_at (df g) "Consensus AND Uncertanty [mg/L]" 0
      = Some (Str (str_float Demo.env (np_round3 (np_mean [m1; m2; m3]))
                   ++ " " ++ plus_minus ++ " "
                   ++ str_float Demo.env (np_round3 (np_std [m1; m2; m3])))).
Proof.
  destruct demo_single_runs as (t & g & H & Hn & _).
  destruct (rounding_after_aggregation Demo.env (Demo.single "CCO") t g
              "CCO" None (DataFrame_single "SMILES" "CCO") H eq_refl)
    as (pre & _ & Hrow); [cbn; lia |].
  destruct (Hrow 0%nat) as (y1 & y2 & y3 & m1 & m2 & m3 & Hc); [rewrite Hn; lia |].
  exists t, g, y1, y2, y3, m1, m2, m3. intuition.
Defined.

Section Tables.

Context {Mol : Type}.
Variable env : Env Mol.

Variables (given : Namespace) (t : list event) (g : Globals).
Hypothesis Hmain : main env given = (t, inr g).

(** What every successful run exports, whatever the size of the table. *)
Lemma main_export :
  exists v df0 t2,
    snd (read_input env given) = inr (v, arg_summary given, df0) /\
    t = (progress v ++ t2)%list /\
    export_events env (arg_summary given) (df g) t2 /\
    labels (df g) =
      fold_left add_label
        (assessed_labels ++ ["Consensus AND Uncertanty [mg/L]"; "Applicability Domain"])
        (labels df0).
Proof.
  destruct (main_structure env _ _ _ Hmain)
    as (v & s & df0 & pre & t2 & Hin & -> & _ & _ & Ha & Hr & Ht).
  destruct (assess_structure env _ _ _ _ _ Ha) as (_ & _ & Hs & _ & _ & _ & _ & Hl).
  destruct (round_and_export_structure env _ _ _ Hr)
    as (domain & _ & _ & _ & Hl2 & _ & He).
  exists v, df0, t2. rewrite Hs in He. repeat split; try assumption.
  rewrite fold_left_app. cbn [fold_left]. rewrite <- Hl. exact Hl2.
Qed.

(** C8.  With the summary flag set, the exported table has exactly the
    three columns structure, combined consensus and uncertainty string and
    domain flag (taken from the final table) and goes to
    [Summary_predictions_<DD_MM_YYYY>.xlsx]; otherwise the final table
    itself, which has more than three columns and among them the three raw
    per-model predictions in both units, goes to
    [Predictions_<DD_MM_YYYY>.xlsx].  The date is the current day.  Column
    labels of the input table are distinct, as they are in any table read
    from a spreadsheet. *)
Theorem export_selection (v : string) (s : option string) (df0 : Frame) :
  snd (read_input env given) = inr (v, s, df0) ->
  NoDup (labels df0) ->
  let today := datetime_now env in
  let date := pad2 (day today) ++ "_" ++ pad2 (month today) ++ "_" ++ pad4 (year today) in
  exists table,
    (if truthy (arg_summary given)
     then
       t = (progress v ++ [ToExcel ("Summary_predictions_" ++ date ++ ".xlsx") table;
                           PrintFrame table])%list /\
       labels table = ["SMILES"; "Consensus AND Uncertanty [mg/L]"; "Applicability Domain"] /\
       nrows table = nrows (df g) /\
       forall key, In key (labels table) -> getitem table key = getitem (df g) key
     else
       t = (progress v ++ [ToExcel ("Predictions_" ++ date ++ ".xlsx") table;
                           PrintFrame table])%list /\
       table = df g /\
       (3 < List.length (labels table))%nat /\
       incl raw_prediction_labels (labels table)).
Proof.
  intros Hin Hnd today date.
  destruct main_export as (v' & df0' & t2 & Hin' & Ht & He & Hl).
  rewrite Hin in Hin'. inversion Hin'; subst v' s df0'. clear Hin'.
  assert (Hnd' : NoDup (labels (df g)))
    by (rewrite Hl; now apply fold_add_label_NoDup).
  unfold export_events in He. fold today in He.
  change (strftime_d_m_Y today) with date in He.
  destruct (truthy (arg_summary given)).
  - destruct He as (table & Hsel & ->). exists table.
    destruct (loc_columns_NoDup _ _ _ Hnd' Hsel) as (Hlab & Hrow & Hget).
    repeat split; try assumption.
    intros key Hk. rewrite Hlab in Hk. apply Hget; [exact Hk |].
    unfold summary_columns.
    repeat constructor; cbn; intuition discriminate.
  - exists (df g). subst t2. split; [exact Ht |]. split; [reflexivity |]. split.
    + assert (Hle : (List.length raw_prediction_labels <= List.length (labels (df g)))%nat).
      { apply NoDup_incl_length.
        - unfold raw_prediction_labels.
          repeat constructor; cbn; intuition discriminate.
        - rewrite Hl. intros key Hk. apply fold_add_label_In.
          unfold raw_prediction_labels in Hk. cbn in *. intuition. }
      change (List.length raw_prediction_labels) with 6%nat in Hle. lia.
    + rewrite Hl. intros key Hk. apply fold_add_label_In.
      unfold raw_prediction_labels in Hk. cbn in *. intuition.
Qed.

(** C10.  The value of [--summary] is only tested for truthiness: any
    non-empty string (so also ["0"], ["False"] or ["no"]) selects the
    summarized output; only an absent flag or the empty string selects the
    full output. *)
Theorem summary_flag_truthiness :
  let date := strftime_d_m_Y (datetime_now env) in
  exists v,
    (forall x, arg_summary given = Some x -> x <> "" ->
       exists table,
         loc_columns (df g) summary_columns = inr table /\
         t = (progress v ++ [ToExcel ("Summary_predictions_" ++ date ++ ".xlsx") table;
                             PrintFrame table])%list) /\
    (arg_summary given = None \/ arg_summary given = Some "" ->
       t = (progress v ++ [ToExcel ("Predictions_" ++ date ++ ".xlsx") (df g);
                           PrintFrame (df g)])%list).
Proof.
  intros date.
  destruct main_export as (v & df0 & t2 & _ & Ht & He & _).
  exists v. unfold export_events in He. fold date in He. split.
  - intros x Hx Hne. rewrite Hx in He. cbn in He.
    destruct (String.eqb x "") eqn:E; [apply String.eqb_eq in E; contradiction |].
    cbn in He. destruct He as (table & Hsel & ->). eauto.
  - intros [Hx | Hx]; rewrite Hx in He; cbn in He; now subst t2.
Qed.

End Tables.

Lemma export_selection_witness :
  exists t g table,
    main Demo.env (mkArgs None (Some "batch.xlsx") (Some "0")) = (t, inr g) /\
    t = (progress "batch.xlsx"
         ++ [ToExcel "Summary_predictions_04_11_2026.xlsx" table; PrintFrame table])%list /\
    labels table = ["SMILES"; "Consensus AND Uncertanty [mg/L]"; "Applicability Domain"].
Proof.
  destruct demo_batch_runs as (t & g & H & Hn).
  destruct (export_selection Demo.env (mkArgs None (Some "batch.xlsx") (Some "0")) t g H
              "batch.xlsx" (Some "0") Demo.batch eq_refl demo_batch_labels)
    as (table & Ht & Hl & _).
  exists t, g, table. repeat split; assumption.
Defined.

Lemma summary_flag_truthiness_witness :
  exists t g v table,
    main Demo.env (mkArgs None (Some "batch.xlsx") (Some "0")) = (t, inr g) /\
    loc_columns (df g) summary_columns = inr table /\
    t = (progress v
         ++ [ToExcel "Summary_predictions_04_11_2026.xlsx" table; PrintFrame table])%list.
Proof.
  destruct demo_batch_runs as (t & g & H & Hn).
  destruct (summary_flag_truthiness Demo.env (mkArgs None (Some "batch.xlsx") (Some "0"))
              t g H) as (v & Hset & _).
  destruct (Hset "0" eq_refl) as (table & Hsel & Ht); [discriminate |].
  exists t, g, v, table. repeat split; assumption.
Defined.

Lemma bind_ret_l {A B} (a : A) (k : A -> M B) : bind (ret a) k = k a.
Proof. unfold bind, ret. destruct (k a). reflexivity. Qed.

Lemma find_filter_app {A} (p : A -> bool) (l r : list A) :
  existsb p l = true -> find p (filter p l ++ r) = find p l.
Proof.
  induction l as [| x l IH]; [discriminate |].
  cbn. destruct (p x) eqn:E; cbn; [now rewrite E | exact IH].
Qed.

Lemma loc_columns_head df key keys selected :
  loc_columns df (key :: keys) = inr selected ->
  nrows selected = nrows df /\ getitem selected key = getitem df key.
Proof.
  unfold loc_columns. destruct (forallb _ (key :: keys)) eqn:F; [| discriminate].
  intros E. inversion E; subst; clear E. split; [reflexivity |].
  cbn in F. apply andb_true_iff in F. destruct F as [F _].
  unfold getitem. cbn. now rewrite find_filter_app.
Qed.

Section Input.

Context {Mol : Type}.
Variable env : Env Mol.

(** C9.  Which input mode runs is decided by the substring [".xlsx"] of the
    value alone.  The two options are interchangeable; a value with
    [".xlsx"] in it is read as a spreadsheet and a value without becomes a
    one-row table of that single structure string, whichever option
    supplied it. *)
Theorem input_dispatch_by_substring (v : string) (s : option string) :
  main env (mkArgs (Some v) None s) = main env (mkArgs None (Some v) s) /\
  main env (mkArgs None (Some v) s) =
    (print banner ;;
     print ("Input value: " ++ v) ;;
     df <- (if contains ".xlsx" v then call (read_excel env v)
            else ret (DataFrame_single "SMILES" v)) ;;
     g <- assess env v s df ;;
     round_and_export env g).
Proof.
  split; [reflexivity |].
  unfold main, predictions_and_consensus, read_input, files_importer, parse_args,
    load_input.
  cbv beta iota delta [bind print emit ret call negb fst snd app
                       arg_smiles arg_filename arg_summary str_or_None].
  destruct (contains ".xlsx" v).
  - destruct (read_excel env v) as [e | df0]; [reflexivity |].
    destruct (assess env v s df0) as [ta [h | g]]; [reflexivity |].
    destruct (round_and_export env g) as [tr r]. reflexivity.
  - destruct (assess env v s (DataFrame_single "SMILES" v)) as [ta [h | g]];
      [reflexivity |].
    destruct (round_and_export env g) as [tr r]. reflexivity.
Qed.

End Input.

(** The descriptor stage keeps the rows of its input table when the
    descriptor engine returns one row per molecule. *)
Lemma mordred_calculator_rows {Mol} (env : Env Mol) dataset t data :
  mordred_calculator env dataset = (t, inr data) ->
  (forall mols described,
     calc_pandas env mols = inr described -> nrows described = List.length mols) ->
  (forall col, getitem dataset "SMILES" = inr col -> List.length col = nrows dataset) ->
  nrows data = nrows dataset.
Proof.
  intros H Hcalc Hwf. apply mordred_calculator_ok in H.
  destruct H as (_ & smis & mols & described & Hs & HF & Hd & ->).
  cbn. rewrite (Hcalc _ _ Hd), <- (Forall2_length HF), (Hwf _ Hs). apply Nat.max_id.
Qed.

(** ** The structure validator *)

Section Validator.

Context {Mol : Type}.
Variable env : Env Mol.

(** [check_smiles] ends the run exactly when the parser raises. *)
Lemma check_smiles_raises smiles e :
  MolFromSmiles env smiles = inl e ->
  check_smiles env smiles = ([Print (smiles ++ ": invalid smiles!")], inl (SysExit 1)).
Proof. unfold check_smiles. now intros ->. Qed.

(** A parser that returns, be it [None], passes the check. *)
Lemma check_smiles_returns smiles mol :
  MolFromSmiles env smiles = inr mol -> check_smiles env smiles = ([], inr tt).
Proof. unfold check_smiles. now intros ->. Qed.

Lemma never_bind {A B} (m : M A) (k : A -> M B) :
  never_exits_1 m -> (forall a, never_exits_1 (k a)) -> never_exits_1 (bind m k).
Proof.
  unfold never_exits_1, bind. intros Hm Hk t c.
  destruct m as [t1 [h | a]].
  - intros E. inversion E; subst. eauto.
  - destruct (k a) as [t2 r] eqn:K. intros E. inversion E; subst. eauto.
Qed.

Lemma never_call {A} (r : raises A) : never_exits_1 (call r).
Proof. unfold never_exits_1, call. destruct r; intros t c E; discriminate. Qed.

Lemma never_ret {A} (a : A) : never_exits_1 (ret a).
Proof. unfold never_exits_1, ret. intros t c E; discriminate. Qed.

Lemma never_emit (e : event) : never_exits_1 (emit e).
Proof. unfold never_exits_1, emit. intros t c E; discriminate. Qed.

Lemma never_usage_error {A} : never_exits_1 (@sys_exit A 2).
Proof. unfold never_exits_1, sys_exit. intros t c E. now inversion E. Qed.

Lemma never_mapM {A B} (f : A -> M B) (l : list A) :
  (forall x, never_exits_1 (f x)) -> never_exits_1 (mapM f l).
Proof.
  intros Hf. induction l as [| x l IH]; cbn.
  - apply never_ret.
  - apply never_bind; [apply Hf | intros y].
    apply never_bind; [apply IH | intros ys]. apply never_ret.
Qed.

Ltac never_exits :=
  repeat first
    [ apply never_call | apply never_ret | apply never_emit | apply never_usage_error
    | apply never_mapM; intro
    | apply never_bind; [| intro]
    | match goal with
      | |- never_exits_1 (if ?b then _ else _) => destruct b
      | |- never_exits_1 (match ?x with _ => _ end) => destruct x
      end ].

(** The script has no [sys.exit(1)] on any path: the only exit it makes
    itself is argparse's usage error, status 2; everything else that stops
    it is an exception raised by a library. *)
Lemma main_never_exits_1 given : never_exits_1 (main env given).
Proof.
  unfold main, round_and_export, write_excel, predictions_and_consensus, assess,
    across_models, predict_and_convert, mordred_calculator, mol_of_cell,
    pipeline_model_importer, read_input, load_input, files_importer, parse_args, print.
  never_exits.
Qed.

End Validator.

(** The unparsable structure ["C1CC("] in the concrete environment: the
    parser returns [None] without raising, so the validator, were it
    called, would let the string pass; the run stops inside the descriptor
    engine with an uncaught exception before anything is written. *)
Example unparsable_structure_run :
  MolFromSmiles Demo.env "C1CC(" = inr None /\
  check_smiles Demo.env "C1CC(" = ([], inr tt) /\
  main Demo.env (Demo.single "C1CC(")
  = ([Print banner; Print "Input value: C1CC(";
      Print ("Molecular descriptors calculation...." ++ nl)],
     inl (Traceback "ArgumentError")) /\
  ~ In (Print "C1CC(: invalid smiles!") (fst (main Demo.env (Demo.single "C1CC("))) /\
  snd (main Demo.env (Demo.single "C1CC(")) <> inl (SysExit 1).
Proof.
  repeat split; try reflexivity.
  - cbn. intros [H | [H | [H | []]]]; discriminate.
  - cbn. discriminate.
Qed.

(* ------------------------------------------------------------------ *)
(** * Further properties of the script *)

(** ** How a run can end *)

Lemma bind_fail {A B} (m : M A) (k : A -> M B) (t : list event) (h : halt) :
  bind m k = (t, inl h) ->
  m = (t, inl h)
  \/ exists t1 a t2, m = (t1, inr a) /\ k a = (t2, inl h) /\ t = (t1 ++ t2)%list.
Proof.
  unfold bind. destruct m as [t1 [h1 | a]].
  - intros E. inversion E; subst. now left.
  - destruct (k a) as [t2 r] eqn:K. intros E. inversion E; subst.
    right. exists t1, a, t2. auto.
Qed.

Lemma call_fail {A} (r : raises A) (t : list event) (h : halt) :
  call r = (t, inl h) -> t = [] /\ exists e, r = inl e /\ h = Traceback e.
Proof. destruct r; cbn; intros E; inversion E; eauto. Qed.

Lemma no_exit_bind {A B} (m : M A) (k : A -> M B) :
  no_exit m -> (forall a, no_exit (k a)) -> no_exit (bind m k).
Proof.
  unfold no_exit, bind. intros Hm Hk t c.
  destruct m as [t1 [h | a]].
  - intros E. inversion E; subst. eapply Hm; reflexivity.
  - destruct (k a) as [t2 r] eqn:K. intros E. inversion E; subst.
    eapply Hk; eassumption.
Qed.

Lemma no_exit_call {A} (r : raises A) : no_exit (call r).
Proof. unfold no_exit, call. destruct r; intros t c E; discriminate. Qed.

Lemma no_exit_ret {A} (a : A) : no_exit (ret a).
Proof. unfold no_exit, ret. intros t c E; discriminate. Qed.

Lemma no_exit_emit (e : event) : no_exit (emit e).
Proof. unfold no_exit, emit. intros t c E; discriminate. Qed.

Lemma no_exit_mapM {A B} (f : A -> M B) (l : list A) :
  (forall x, no_exit (f x)) -> no_exit (mapM f l).
Proof.
  intros Hf. induction l as [| x l IH]; cbn.
  - apply no_exit_ret.
  - apply no_exit_bind; [apply Hf | intros y].
    apply no_exit_bind; [apply IH | intros ys]. apply no_exit_ret.
Qed.

Ltac no_exits :=
  repeat first
    [ apply no_exit_call | apply no_exit_ret | apply no_exit_emit
    | apply no_exit_mapM; intro
    | apply no_exit_bind; [| intro]
    | match goal with
      | |- no_exit (if ?b then _ else _) => destruct b
      | |- no_exit (match ?x with _ => _ end) => destruct x
      end ].

Section Endings.

Context {Mol : Type}.
Variable env : Env Mol.

(** From STEP 1 on nothing in the script exits: every abnormal end is an
    exception of a library. *)
Lemma no_exit_after_the_command_line (v : string) (s : option string) :
  no_exit (loaded <- load_input env (Some v) ;;
           g <- assess env (fst loaded) s (snd loaded) ;;
           round_and_export env g).
Proof.
  unfold round_and_export, write_excel, assess, across_models, predict_and_convert,
    mordred_calculator, mol_of_cell, pipeline_model_importer, load_input, print.
  no_exits.
Qed.

Lemma main_with_one_option (given : Namespace) (v : string) :
  (arg_smiles given = Some v /\ arg_filename given = None)
  \/ (arg_smiles given = None /\ arg_filename given = Some v) ->
  main env given =
  (print banner ;;
   print ("Input value: " ++ v) ;;
   loaded <- load_input env (Some v) ;;
   g <- assess env (fst loaded) (arg_summary given) (snd loaded) ;;
   round_and_export env g).
Proof.
  destruct given as [sm fn su]. cbn [arg_smiles arg_filename arg_summary].
  intros [[-> ->] | [-> ->]];
    unfold main, predictions_and_consensus, read_input, files_importer, parse_args;
    cbv beta iota delta [bind print emit ret call fst snd
                         arg_smiles arg_filename arg_summary str_or_None];
    (destruct (load_input env (Some v)) as [tl [h | [v' df0]]];
       [cbn; now rewrite ?app_nil_r |]);
    (destruct (assess env v' su df0) as [ta [h | g]];
       [cbn; now rewrite ?app_nil_r, <- ?app_assoc |]);
    destruct (round_and_export env g) as [tr r];
    cbn; now rewrite ?app_nil_r, <- ?app_assoc.
Qed.

Lemma main_usage_error (given : Namespace) :
  usage_error given -> main env given = ([Print banner], inl (SysExit 2)).
Proof.
  destruct given as [sm fn su]. unfold usage_error. cbn [arg_smiles arg_filename].
  intros [[-> ->] | (a & b & -> & ->)]; reflexivity.
Qed.

Lemma one_option_or_usage_error (given : Namespace) :
  usage_error given
  \/ exists v, (arg_smiles given = Some v /\ arg_filename given = None)
               \/ (arg_smiles given = None /\ arg_filename given = Some v).
Proof.
  unfold usage_error.
  destruct (arg_smiles given) as [a |], (arg_filename given) as [b |]; eauto 8.
Qed.

End Endings.

Lemma only_prints_bind {A B} (m : M A) (k : A -> M B) :
  only_prints m -> (forall a, only_prints (k a)) -> only_prints (bind m k).
Proof.
  unfold only_prints, bind. intros Hm Hk.
  destruct m as [t1 [h | a]]; [exact Hm |].
  specialize (Hk a). destruct (k a) as [t2 r]. cbn in *.
  apply Forall_app. auto.
Qed.

Lemma only_prints_call {A} (r : raises A) : only_prints (call r).
Proof. unfold only_prints, call. destruct r; constructor. Qed.

Lemma only_prints_ret {A} (a : A) : only_prints (ret a).
Proof. constructor. Qed.

Lemma only_prints_sys_exit {A} (c : Z) : only_prints (@sys_exit A c).
Proof. constructor. Qed.

Lemma only_prints_print (s : string) : only_prints (print s).
Proof. repeat constructor. now exists s. Qed.

Lemma only_prints_mapM {A B} (f : A -> M B) (l : list A) :
  (forall x, only_prints (f x)) -> only_prints (mapM f l).
Proof.
  intros Hf. induction l as [| x l IH]; cbn.
  - apply only_prints_ret.
  - apply only_prints_bind; [apply Hf | intros y].
    apply only_prints_bind; [apply IH | intros ys]. apply only_prints_ret.
Qed.

Ltac only_printing :=
  repeat first
    [ apply only_prints_call | apply only_prints_ret | apply only_prints_print
    | apply only_prints_sys_exit
    | apply only_prints_mapM; intro
    | apply only_prints_bind; [| intro]
    | match goal with
      | |- only_prints (if ?b then _ else _) => destruct b
      | |- only_prints (match ?x with _ => _ end) => destruct x
      end ].

Section Traces.

Context {Mol : Type}.
Variable env : Env Mol.

(** Up to line 248 the script only prints, however it ends. *)
Lemma predictions_and_consensus_only_prints given :
  only_prints (predictions_and_consensus env given).
Proof.
  unfold predictions_and_consensus, assess, across_models, predict_and_convert,
    mordred_calculator, mol_of_cell, pipeline_model_importer, read_input, load_input,
    files_importer, parse_args.
  only_printing.
Qed.

(** Lines 251-277 leave nothing behind when a library call of theirs
    fails: the last call that can raise is the write itself.  (The console
    write that follows is taken to succeed.) *)
Lemma round_and_export_fails_silently g t h :
  round_and_export env g = (t, inl h) -> t = [].
Proof.
  unfold round_and_export, write_excel. intros H.
  repeat (apply bind_fail in H;
          destruct H as [H | (? & ? & ? & ? & H & ->)];
          [ try (apply call_fail in H; tauto)
          | match goal with
            | E : call _ = (_, inr _) |- _ => apply call_ok in E; destruct E as [E ->]
            end; cbn [app] ]).
  apply bind_fail in H. destruct H as [H | (? & ? & ? & _ & H & _)]; [| discriminate H].
  destruct (truthy (summary g)).
  - apply bind_fail in H. destruct H as [H | (? & selected & ? & Hsel & H & ->)];
      [apply call_fail in H; tauto |].
    apply call_ok in Hsel. destruct Hsel as [Hsel ->].
    apply bind_fail in H. destruct H as [H | (? & ? & ? & _ & H & ->)].
    + apply bind_fail in H. destruct H as [H | (? & ? & ? & _ & H & _)];
        [apply call_fail in H; tauto | discriminate H].
    + apply bind_fail in H. destruct H as [H | (? & ? & ? & _ & H & _)];
        [| discriminate H].
      apply call_fail in H. destruct H as (_ & e & He & _). congruence.
  - apply bind_fail in H. destruct H as [H | (? & ? & ? & _ & H & _)];
      [| discriminate H].
    apply bind_fail in H. destruct H as [H | (? & ? & ? & _ & H & _)];
      [apply call_fail in H; tauto | discriminate H].
Qed.

End Traces.

(** ** The artifacts and the descriptor stage *)

Lemma find_map_label (g : string * list cell -> string * list cell) key cols :
  (forall col, fst (g col) = fst col) ->
  find (has_label key) (map g cols) = option_map g (find (has_label key) cols).
Proof.
  intros Hg. induction cols as [| col cols IH]; [reflexivity |].
  cbn. unfold has_label at 1 3. rewrite Hg.
  destruct (String.eqb (fst col) key); [reflexivity | exact IH].
Qed.

Lemma find_app_found {A} (p : A -> bool) (l r : list A) x :
  find p l = Some x -> find p (l ++ r) = Some x.
Proof.
  induction l as [| y l IH]; [discriminate |].
  cbn. destruct (p y); [trivial | exact IH].
Qed.

Lemma getitem_applymap f df key :
  getitem (applymap f df) key =
  match getitem df key with
  | inr col => inr (map f col)
  | inl e => inl e
  end.
Proof.
  unfold getitem, applymap. cbn.
  rewrite find_map_label by reflexivity.
  now destruct (find (has_label key) (columns df)).
Qed.

Lemma getitem_concat_axis1 a b key col :
  getitem a key = inr col ->
  getitem (concat_axis1 a b) key
  = inr (col ++ repeat NaN (Nat.max (nrows a) (nrows b) - List.length col))%list.
Proof.
  unfold getitem, concat_axis1. cbn.
  destruct (find (has_label key) (columns a)) as [c |] eqn:F; [| discriminate].
  intros E. inversion E; subst.
  rewrite find_map_label by reflexivity.
  now rewrite (find_app_found _ _ _ _ F).
Qed.

Lemma labels_applymap f df : labels (applymap f df) = labels df.
Proof. unfold labels, applymap. cbn. now rewrite map_map. Qed.

Lemma labels_concat_axis1 a b :
  labels (concat_axis1 a b) = (labels a ++ labels b)%list.
Proof. unfold labels, concat_axis1. cbn. now rewrite map_map, map_app. Qed.

Lemma map_snd_combine_seq {A} (names : list A) (start : nat) :
  map snd (combine (seq start (List.length names)) names) = names.
Proof.
  revert start. induction names as [| n names IH]; intros start; [reflexivity |].
  cbn. now rewrite IH.
Qed.

Lemma DataFrame_of_array_labels array names f :
  DataFrame_of_array array names = inr f ->
  labels f = names /\ nrows f = List.length array.
Proof.
  unfold DataFrame_of_array. destruct (forallb _ array); [| discriminate].
  intros E. inversion E; subst. unfold labels. cbn.
  rewrite map_map. cbn. split; [apply map_snd_combine_seq | reflexivity].
Qed.

Lemma loc_columns_incl df keys selected :
  loc_columns df keys = inr selected -> incl keys (labels df).
Proof.
  unfold loc_columns. destruct (forallb _ keys) eqn:F; [| discriminate].
  intros _ key Hk. rewrite forallb_forall in F. specialize (F key Hk).
  apply existsb_exists in F. destruct F as (col & Hc & Hl).
  unfold has_label in Hl. apply String.eqb_eq in Hl. subst key.
  unfold labels. now apply in_map.
Qed.

Lemma predict_restricted_incl {Out} (est : Estimator Out) names table out :
  predict_restricted est names table = inr out -> incl names (labels table).
Proof.
  unfold predict_restricted.
  destruct (loc_columns table names) eqn:L; [discriminate |].
  intros _. eapply loc_columns_incl; eassumption.
Qed.

Section Stages.

Context {Mol : Type}.
Variable env : Env Mol.

(** X4.  The five artifacts are loaded all or nothing, without a word on
    the console: the importer succeeds exactly when each of the five files
    under the working directory unpickles, and what it returns is what the
    five loads returned. *)
Theorem pipeline_model_importer_all_or_nothing :
  fst (pipeline_model_importer env) = [] /\
  forall arts,
    snd (pipeline_model_importer env) = inr arts <->
    (load_regressor env (path_join3 (getcwd env) "models"
       "alldata_model_Antioxidant_DPPH30MIN_extra_trees_regressor.pkl")
       = inr (a_model1 arts) /\
     load_regressor env (path_join3 (getcwd env) "models"
       "alldata_model_Antioxidant_DPPH30MIN_xgb_regressor.pkl")
       = inr (a_model2 arts) /\
     load_regressor env (path_join3 (getcwd env) "models"
       "alldata_model_Antioxidant_DPPH30MIN_gradient_boosting_regressor.pkl")
       = inr (a_model3 arts) /\
     load_pipeline env (path_join3 (getcwd env) "pipeline_and_AD"
       "pipeline_Antioxidant_DPPH30MIN.pkl") = inr (a_pipeline arts) /\
     load_classifier env (path_join3 (getcwd env) "pipeline_and_AD" "AD_clf.pkl")
       = inr (a_ad arts)).
Proof.
  unfold pipeline_model_importer.
  destruct (load_regressor env (path_join3 (getcwd env) "models"
              "alldata_model_Antioxidant_DPPH30MIN_extra_trees_regressor.pkl"))
    as [e1 | m1];
  destruct (load_regressor env (path_join3 (getcwd env) "models"
              "alldata_model_Antioxidant_DPPH30MIN_xgb_regressor.pkl"))
    as [e2 | m2];
  destruct (load_regressor env (path_join3 (getcwd env) "models"
              "alldata_model_Antioxidant_DPPH30MIN_gradient_boosting_regressor.pkl"))
    as [e3 | m3];
  destruct (load_pipeline env (path_join3 (getcwd env) "pipeline_and_AD"
              "pipeline_Antioxidant_DPPH30MIN.pkl")) as [e4 | p];
  destruct (load_classifier env (path_join3 (getcwd env) "pipeline_and_AD" "AD_clf.pkl"))
    as [e5 | c];
  (split; [reflexivity |]); intros [a1 a2 a3 ap ac]; cbn;
  (split; [intros E; try discriminate E; inversion E; auto 10
          | intros (E1 & E2 & E3 & E4 & E5); congruence]).
Qed.

Lemma Forall_cells_applymap (P : cell -> Prop) f df :
  (forall c, P (f c)) -> Forall P (cells (applymap f df)).
Proof.
  intros HP. unfold cells, applymap. cbn.
  induction (columns df) as [| col cols IH]; [constructor |].
  cbn. apply Forall_app. split; [| exact IH].
  apply Forall_forall. intros c Hc. apply in_map_iff in Hc.
  destruct Hc as (c' & <- & _). apply HP.
Qed.

(** X5.  No cell of the table [mordred_calculator] returns is a mordred
    error or missing-value object, in the descriptor columns and in the
    columns of the input table alike. *)
Theorem mordred_calculator_replaces_errors dataset t data :
  mordred_calculator env dataset = (t, inr data) ->
  Forall (fun c => is_mordred_error c = false) (cells data).
Proof.
  intros H. apply mordred_calculator_ok in H.
  destruct H as (_ & smis & mols & described & _ & _ & _ & ->).
  apply Forall_cells_applymap. now intros [].
Qed.

(** X6.  [mordred_calculator] prints nothing, hands the descriptor engine
    the parsed structure of every cell of the SMILES column, in order, and
    returns the columns of the input table followed by the descriptor
    columns; a cell of the input table is found again at its place, turned
    into NaN if it was a mordred error object and unchanged otherwise. *)
Theorem mordred_calculator_keeps_dataset dataset t data :
  mordred_calculator env dataset = (t, inr data) ->
  t = [] /\
  exists smis mols described,
    getitem dataset "SMILES" = inr smis /\
    Forall2 (fun smi mol => exists s, smi = Str s /\ MolFromSmiles env s = inr mol)
            smis mols /\
    calc_pandas env mols = inr described /\
    labels data = (labels dataset ++ labels described)%list /\
    nrows data = Nat.max (nrows dataset) (nrows described) /\
    forall key i c,
      cell_at dataset key i = Some c -> cell_at data key i = Some (nan_if_error c).
Proof.
  intros H. apply mordred_calculator_ok in H.
  destruct H as (-> & smis & mols & described & Hs & HF & Hd & ->).
  split; [reflexivity |]. exists smis, mols, described.
  repeat split; try assumption.
  - now rewrite labels_applymap, labels_concat_axis1.
  - intros key i c. unfold cell_at.
    destruct (getitem dataset key) as [e | col] eqn:G; [discriminate |].
    intros Hc. rewrite getitem_applymap, (getitem_concat_axis1 _ _ _ _ G).
    apply map_nth_error. rewrite nth_error_app1; [exact Hc |].
    apply nth_error_Some. congruence.
Qed.

End Stages.

Lemma pipeline_model_importer_all_or_nothing_witness :
  snd (pipeline_model_importer Demo.env)
  = inr (mkArtifacts Demo.etr Demo.xgb Demo.gb Demo.pipe Demo.clf).
Proof.
  destruct (pipeline_model_importer_all_or_nothing Demo.env) as [_ H].
  apply H. repeat split; reflexivity.
Defined.

Lemma mordred_calculator_replaces_errors_witness :
  Forall (fun c => is_mordred_error c = false)
    (cells (mkFrame 1 [("SMILES", [Str "CCO"]); ("nAcid", [Int 0]);
                       ("SLogP", [NaN]); ("nHBDon", [Int 1])])).
Proof.
  apply (mordred_calculator_replaces_errors Demo.env
           (DataFrame_single "SMILES" "CCO") []).
  reflexivity.
Defined.

Lemma mordred_calculator_keeps_dataset_witness :
  cell_at (mkFrame 1 [("SMILES", [Str "CCO"]); ("nAcid", [Int 0]);
                      ("SLogP", [NaN]); ("nHBDon", [Int 1])]) "SMILES" 0
  = Some (Str "CCO").
Proof.
  destruct (mordred_calculator_keeps_dataset Demo.env
              (DataFrame_single "SMILES" "CCO") [] _ eq_refl)
    as (_ & smis & mols & described & _ & _ & _ & _ & _ & Hcell).
  apply (Hcell "SMILES" 0%nat (Str "CCO")). reflexivity.
Defined.

(** ** What a successful run implies *)

Lemma fold_add_label_filter keys ls :
  NoDup keys ->
  fold_left add_label keys ls
  = (ls ++ filter (fun k => negb (existsb (fun l => String.eqb l k) ls)) keys)%list.
Proof.
  intros Hnd. revert ls. induction Hnd as [| k keys Hk Hnd IH]; intros ls; cbn.
  - now rewrite app_nil_r.
  - rewrite IH. unfold add_label.
    destruct (existsb (fun l => String.eqb l k) ls) eqn:E; cbn.
    + reflexivity.
    + rewrite <- app_assoc. cbn. do 2 f_equal.
      apply filter_ext_in. intros k' Hk'. f_equal.
      rewrite existsb_app. cbn. rewrite orb_false_r.
      replace (String.eqb k k') with false; [now rewrite orb_false_r |].
      symmetry. apply String.eqb_neq. intros <-. contradiction.
Qed.

Lemma output_labels_NoDup : NoDup output_labels.
Proof. repeat constructor; cbn; intuition discriminate. Qed.

Lemma getitem_with_column_fresh key key' values df :
  key' <> key -> getitem (with_column key values df) key' = getitem df key'.
Proof. intros H. apply getitem_with_column_other. now apply String.eqb_neq. Qed.

Lemma well_formed_with_column key values df :
  well_formed df -> List.length values = nrows df ->
  well_formed (with_column key values df).
Proof.
  unfold well_formed, with_column, assign. cbn. intros Hwf Hl.
  destruct (existsb (has_label key) (columns df)).
  - rewrite Forall_forall in *. intros col Hc. apply in_map_iff in Hc.
    destruct Hc as (c & <- & Hin). destruct (has_label key c); cbn; auto.
  - apply Forall_app. split; [assumption | repeat constructor; assumption].
Qed.

Lemma well_formed_round3 df : well_formed df -> well_formed (round3 df).
Proof.
  unfold well_formed, round3. cbn. intros Hwf.
  rewrite Forall_forall in *. intros col Hc. apply in_map_iff in Hc.
  destruct Hc as (c & <- & Hin). cbn. unfold round_column.
  destruct (forallb is_float (snd c)); rewrite ?length_map; auto.
Qed.

Lemma length_mgL_values p mw n :
  List.length p = n -> (n <= List.length mw)%nat -> List.length (mgL_values p mw) = n.
Proof. intros Hp Hw. unfold mgL_values. rewrite length_map, length_combine. lia. Qed.

Lemma length_across f a b c n :
  List.length a = n -> List.length b = n -> List.length c = n ->
  List.length (across f a b c) = n.
Proof.
  intros Ha Hb Hc. unfold across, zip3. rewrite length_map, !length_combine. lia.
Qed.

Section Success.

Context {Mol : Type}.
Variable env : Env Mol.

Variables (given : Namespace) (t : list event) (g : Globals).
Variables (v : string) (s : option string) (df0 : Frame).
Hypothesis Hmain : main env given = (t, inr g).
Hypothesis Hinput : snd (read_input env given) = inr (v, s, df0).

Lemma main_assessed :
  exists pre t2,
    assess env v s df0 =
      ([Print ("Molecular descriptors calculation...." ++ nl);
        Print ("MDs tranformation..." ++ nl);
        Print "Model Assessment..."], inr pre) /\
    round_and_export env pre = (t2, inr g) /\
    g = set_df pre (df g).
Proof.
  destruct (main_structure env _ _ _ Hmain)
    as (v' & s' & df0' & pre & t2 & Hin' & _ & _ & _ & Ha & Hr & _).
  rewrite Hinput in Hin'. inversion Hin'; subst v' s' df0'.
  destruct (round_and_export_structure env _ _ _ Hr) as (_ & _ & _ & _ & _ & Hg & _).
  eauto.
Qed.

(** X8.  A run succeeds only if every cell of the SMILES column of the
    input table is a string that the parser and then the weight function
    accepted without raising: the molecular weights are those values, one
    per cell and in order.  One row that fails either call aborts the whole
    batch. *)
Theorem success_requires_every_structure :
  exists smis,
    getitem df0 "SMILES" = inr smis /\
    List.length (mw_calc g) = List.length smis /\
    forall i smi, nth_error smis i = Some smi ->
      exists str mol w,
        smi = Str str /\ MolFromSmiles env str = inr mol /\
        MolWt env mol = inr w /\ nth_error (mw_calc g) i = Some w.
Proof.
  destruct main_assessed as (pre & t2 & Ha & _ & Hg).
  destruct (assess_structure env _ _ _ _ _ Ha)
    as (_ & _ & _ & _ & _ & _ & (smis & Hs & Hw) & _).
  assert (Em : mw_calc g = mw_calc pre) by (rewrite Hg; reflexivity).
  rewrite Em. exists smis. split; [assumption |].
  split; [symmetry; eapply Forall2_length; eassumption |].
  intros i smi Hi. clear -Hw Hi. revert i Hi.
  induction Hw as [| x w smis mw (str & mol & -> & Hp & Hm) _ IH]; intros [| i] Hi;
    cbn in *; try discriminate.
  - inversion Hi; subst. exists str, mol, w. auto.
  - apply IH. exact Hi.
Qed.

(** X10.  The columns of the final table are the columns of the input
    table, in their order, followed by those of the twelve columns of the
    script (in the order of assignment) whose label the input table did not
    carry already: a column of the input with such a label is overwritten
    in place, not duplicated. *)
Theorem output_columns_layout :
  labels (df g)
  = (labels df0
     ++ filter (fun k => negb (existsb (fun l => String.eqb l k) (labels df0)))
               output_labels)%list.
Proof.
  destruct main_assessed as (pre & t2 & Ha & Hr & _).
  destruct (assess_structure env _ _ _ _ _ Ha) as (_ & _ & _ & _ & _ & _ & _ & Hl).
  destruct (round_and_export_structure env _ _ _ Hr) as (_ & _ & _ & _ & Hl2 & _).
  rewrite <- (fold_add_label_filter _ _ output_labels_NoDup).
  unfold output_labels. rewrite fold_left_app. cbn [fold_left].
  rewrite <- Hl. exact Hl2.
Qed.

End Success.

Lemma predict_and_convert_predicts model logM mgL data_input mw_calc df t df' :
  predict_and_convert model logM mgL data_input mw_calc df = (t, inr df') ->
  exists p, predict_restricted model (feature_names_in_ model) data_input = inr p.
Proof.
  unfold predict_and_convert. intros H. step_ok H. leaf_ok Hstep. eauto.
Qed.

Section Features.

Context {Mol : Type}.
Variable env : Env Mol.

Lemma assess_models v s df0 t g :
  assess env v s df0 = (t, inr g) ->
  (exists p, predict_restricted (model1 g) (feature_names_in_ (model1 g)) (data_input g)
             = inr p) /\
  (exists p, predict_restricted (model2 g) (feature_names_in_ (model2 g)) (data_input g)
             = inr p) /\
  (exists p, predict_restricted (model3 g) (feature_names_in_ (model3 g)) (data_input g)
             = inr p).
Proof.
  unfold assess. intros H. repeat step_ok H.
  apply ret_ok in H. destruct H as [<- _]. cbn.
  apply predict_and_convert_predicts in Hstep9, Hstep10, Hstep11. auto.
Qed.

Variables (given : Namespace) (t : list event) (g : Globals).
Hypothesis Hmain : main env given = (t, inr g).

(** X9.  A run succeeds only if the feature names fit together: the names
    the pipeline declares are all columns of the descriptor table, the
    transformed table is labelled with exactly those names, and every name
    a model declares (the second model's also serve the applicability-domain
    classifier) is one of them.  A name that is missing ends the run with a
    KeyError instead. *)
Theorem feature_names_fit_together :
  incl (feature_names_in_ (pipeline g)) (labels (data g)) /\
  labels (data_input g) = feature_names_in_ (pipeline g) /\
  incl (feature_names_in_ (model1 g)) (feature_names_in_ (pipeline g)) /\
  incl (feature_names_in_ (model2 g)) (feature_names_in_ (pipeline g)) /\
  incl (feature_names_in_ (model3 g)) (feature_names_in_ (pipeline g)).
Proof.
  destruct (main_structure env _ _ _ Hmain)
    as (v & s & df0 & pre & t2 & _ & _ & _ & _ & Ha & Hr & _).
  destruct (round_and_export_structure env _ _ _ Hr) as (_ & _ & _ & _ & _ & Hg & _).
  assert (Hsame : model1 g = model1 pre /\ model2 g = model2 pre /\
                  model3 g = model3 pre /\ data_input g = data_input pre /\
                  pipeline g = pipeline pre /\ data g = data pre)
    by (rewrite Hg; cbn; auto 10).
  destruct Hsame as (-> & -> & -> & -> & -> & ->).
  destruct (assess_structure env _ _ _ _ _ Ha)
    as (_ & _ & _ & _ & _ & (selected & transformed & Hsel & _ & Hdi) & _).
  destruct (assess_models _ _ _ _ _ Ha) as ((p1 & P1) & (p2 & P2) & (p3 & P3)).
  apply DataFrame_of_array_labels in Hdi. destruct Hdi as [Hl _].
  apply predict_restricted_incl in P1, P2, P3. rewrite Hl in P1, P2, P3.
  apply loc_columns_incl in Hsel. auto.
Qed.

End Features.

Section Carried.

Context {Mol : Type}.
Variable env : Env Mol.

Variables (given : Namespace) (t : list event) (g : Globals).
Variables (v : string) (s : option string) (df0 : Frame).
Hypothesis Hmain : main env given = (t, inr g).
Hypothesis Hinput : snd (read_input env given) = inr (v, s, df0).
Hypothesis Hrows : (0 < nrows df0)%nat.

(** X11.  Every column of the input table whose label is not one of the
    twelve the script assigns is carried into the final table, and
    [round(df, 3)] applies to it as to the script's own columns: a column of
    floating-point numbers comes out rounded to three decimals, any other
    column unchanged. *)
Theorem input_columns_are_carried_and_rounded (key : string) (col : list cell) :
  ~ In key output_labels ->
  getitem df0 key = inr col ->
  getitem (df g) key = inr (round_column col).
Proof.
  intros Hnot Hcol.
  destruct (main_columns env _ _ _ _ _ _ Hmain Hinput Hrows)
    as (pre & p1 & p2 & p3 & domain & smis & _ & _ & _ & _ & _
        & _ & _ & _ & _ & _ & _ & _ & Hpre & Hout).
  rewrite Hout. unfold finished.
  rewrite !getitem_with_column_fresh
    by (intros ->; apply Hnot; unfold output_labels; cbn; tauto).
  rewrite getitem_round3, Hpre. unfold aggregated.
  rewrite !getitem_with_column_fresh
    by (intros ->; apply Hnot; unfold output_labels; cbn; tauto).
  now rewrite Hcol.
Qed.

(** X12.  If every column of the input table has one cell per row, so has
    every column of the final table: the result is a rectangular table with
    as many rows as the input. *)
Theorem output_table_is_rectangular :
  well_formed df0 -> well_formed (df g) /\ nrows (df g) = nrows df0.
Proof.
  intros Hwf.
  destruct (main_columns env _ _ _ _ _ _ Hmain Hinput Hrows)
    as (pre & p1 & p2 & p3 & domain & smis & _ & _ & _ & _ & _
        & L1 & L2 & L3 & LD & Lw & _ & _ & Hpre & Hout).
  rewrite Hout, Hpre. split; [| reflexivity].
  assert (M1 := length_mgL_values _ _ _ L1 Lw).
  assert (M2 := length_mgL_values _ _ _ L2 Lw).
  assert (M3 := length_mgL_values _ _ _ L3 Lw).
  unfold finished, aggregated.
  repeat (apply well_formed_with_column || apply well_formed_round3);
    try assumption;
    cbn [nrows with_column round3];
    unfold display;
    rewrite ?length_map, ?length_combine, ?length_map;
    rewrite ?(length_across _ _ _ _ (nrows df0)); try assumption; lia.
Qed.

End Carried.

Lemma np_round3_idempotent (x : R) : np_round3 (np_round3 x) = np_round3 x.
Proof. unfold np_round3 at 2 3. apply np_round3_thousandths. Qed.

Lemma round_column_idempotent (v : list cell) :
  round_column (round_column v) = round_column v.
Proof.
  unfold round_column. destruct (forallb is_float v) eqn:F.
  - replace (forallb is_float (map round_cell v)) with true.
    + rewrite map_map. apply map_ext. intros [] ; cbn; try reflexivity.
      now rewrite np_round3_idempotent.
    + symmetry. rewrite forallb_forall in *. intros c Hc.
      apply in_map_iff in Hc. destruct Hc as (c' & <- & Hin).
      specialize (F c' Hin). now destruct c'.
  - now rewrite F.
Qed.

(** X14.  [round(df, 3)] keeps the index and the labels, leaves every cell
    that is not a number of a floating-point column as it is, and applying
    it a second time changes nothing. *)
Theorem round3_is_idempotent (df : Frame) :
  round3 (round3 df) = round3 df /\
  nrows (round3 df) = nrows df /\
  labels (round3 df) = labels df /\
  forall key col,
    getitem df key = inr col -> forallb is_float col = false ->
    getitem (round3 df) key = inr col.
Proof.
  split; [| split; [reflexivity | split; [apply labels_round3 |]]].
  - unfold round3. cbn. f_equal. rewrite map_map. apply map_ext.
    intros col. cbn. now rewrite round_column_idempotent.
  - intros key col Hg Hf. rewrite getitem_round3, Hg.
    unfold round_column. now rewrite Hf.
Qed.

Lemma round3_is_idempotent_witness :
  getitem (round3 weights_batch) "Name" = inr [Str "ethanol"; Str "phenol"].
Proof.
  destruct (round3_is_idempotent weights_batch) as (_ & _ & _ & H).
  apply H; reflexivity.
Defined.

(** ** The input value and the file name *)

Section InputValue.

Context {Mol : Type}.
Variable env : Env Mol.

(** X19.  A run on a value without [".xlsx"] never touches the spreadsheet
    reader: with any other reader in its place the run is the same, trace
    and result. *)
Theorem single_structure_never_reads_a_spreadsheet
    (reader : string -> raises Frame) (given : Namespace) (v : string) :
  (arg_smiles given = Some v /\ arg_filename given = None)
  \/ (arg_smiles given = None /\ arg_filename given = Some v) ->
  contains ".xlsx" v = false ->
  main (with_read_excel env reader) given = main env given.
Proof.
  intros Hv Hc.
  rewrite (main_with_one_option env given v Hv).
  rewrite (main_with_one_option (with_read_excel env reader) given v Hv).
  unfold load_input. rewrite Hc. reflexivity.
Qed.

End InputValue.

Lemma single_structure_never_reads_a_spreadsheet_witness :
  main (with_read_excel Demo.env (fun _ => inl "PermissionError")) (Demo.single "CCO")
  = main Demo.env (Demo.single "CCO").
Proof.
  apply (single_structure_never_reads_a_spreadsheet Demo.env _ (Demo.single "CCO") "CCO").
  - left. split; reflexivity.
  - reflexivity.
Defined.

Lemma length_append (s t : string) :
  String.length (s ++ t) = (String.length s + String.length t)%nat.
Proof. induction s as [| c s IH]; cbn; [reflexivity | now rewrite IH]. Qed.

Lemma append_cancel_r (s s' t : string) : s ++ t = s' ++ t -> s = s'.
Proof.
  revert s'. induction s as [| c s IH]; intros [| c' s'] E; cbn in E.
  - reflexivity.
  - apply (f_equal String.length) in E. cbn in E. rewrite length_append in E. lia.
  - apply (f_equal String.length) in E. cbn in E. rewrite length_append in E. lia.
  - inversion E; subst. f_equal. now apply IH.
Qed.

Lemma nat_of_string_leading_zero (s : string) :
  nat_of_string (String "0" s) = nat_of_string s.
Proof.
  unfold nat_of_string. cbn. now destruct (NilEmpty.uint_of_string s).
Qed.

Lemma nat_of_string_of_nat (n : nat) : nat_of_string (string_of_nat n) = Some n.
Proof.
  unfold nat_of_string, string_of_nat.
  rewrite NilEmpty.usu. cbn. now rewrite DecimalNat.Unsigned.of_to.
Qed.

Lemma nat_of_pad4 (n : nat) : nat_of_string (pad4 n) = Some n.
Proof.
  unfold pad4.
  destruct (n <? 10)%nat; [| destruct (n <? 100)%nat; [| destruct (n <? 1000)%nat]];
    cbn [append]; rewrite ?nat_of_string_leading_zero; apply nat_of_string_of_nat.
Qed.

Lemma pad2_two_digits (n : nat) :
  (n < 100)%nat ->
  exists c1 c2, pad2 n = String c1 (String c2 "")
                /\ nat_of_string (String c1 (String c2 "")) = Some n.
Proof.
  intros Hn.
  assert (Hall : forallb
            (fun k => match pad2 k with
                      | String c1 (String c2 "") =>
                          match nat_of_string (String c1 (String c2 "")) with
                          | Some m => (m =? k)%nat
                          | None => false
                          end
                      | _ => false
                      end) (seq 0 100) = true) by (vm_compute; reflexivity).
  rewrite forallb_forall in Hall. specialize (Hall n).
  assert (Hin : In n (seq 0 100)) by (apply in_seq; lia).
  specialize (Hall Hin).
  destruct (pad2 n) as [| c1 [| c2 [| c3 r]]]; try discriminate.
  destruct (nat_of_string (String c1 (String c2 ""))) as [m |] eqn:E; [| discriminate].
  apply Nat.eqb_eq in Hall. subst m. eauto.
Qed.

Lemma parse_strftime (d : datetime) :
  (day d < 100)%nat -> (month d < 100)%nat ->
  parse_d_m_Y (strftime_d_m_Y d) = Some d.
Proof.
  intros Hd Hm. destruct d as [dd mm yy]. cbn [day month year] in *.
  unfold strftime_d_m_Y. cbn [day month year].
  destruct (pad2_two_digits dd Hd) as (c1 & c2 & -> & E1).
  destruct (pad2_two_digits mm Hm) as (c3 & c4 & -> & E2).
  cbn [append parse_d_m_Y]. cbn [Ascii.eqb Bool.eqb andb].
  rewrite E1, E2, nat_of_pad4. reflexivity.
Qed.

(** X20.  The file name determines the calendar day: two dates (days and
    months below 100, as every calendar date has them) that give the same
    [Predictions_<date>.xlsx] or the same [Summary_predictions_<date>.xlsx]
    are the same date, and the two kinds of name never coincide.  So runs
    overwrite each other's output only within one day and one mode. *)
Theorem file_name_determines_the_day (d d' : datetime) :
  (day d < 100)%nat -> (month d < 100)%nat ->
  (day d' < 100)%nat -> (month d' < 100)%nat ->
  ("Predictions_" ++ strftime_d_m_Y d ++ ".xlsx"
   = "Predictions_" ++ strftime_d_m_Y d' ++ ".xlsx" -> d = d') /\
  ("Summary_predictions_" ++ strftime_d_m_Y d ++ ".xlsx"
   = "Summary_predictions_" ++ strftime_d_m_Y d' ++ ".xlsx" -> d = d') /\
  "Summary_predictions_" ++ strftime_d_m_Y d ++ ".xlsx"
  <> "Predictions_" ++ strftime_d_m_Y d' ++ ".xlsx".
Proof.
  intros Hd Hm Hd' Hm'.
  assert (Hinj : strftime_d_m_Y d ++ ".xlsx" = strftime_d_m_Y d' ++ ".xlsx" -> d = d').
  { intros E. apply append_cancel_r in E.
    assert (P := parse_strftime d Hd Hm). rewrite E in P.
    rewrite (parse_strftime d' Hd' Hm') in P. congruence. }
  repeat split.
  - intros E. cbn in E. inversion E. auto.
  - intros E. cbn in E. inversion E. auto.
  - cbn. discriminate.
Qed.

Lemma file_name_determines_the_day_witness :
  (day (mkDate 4 11 2026) < 100)%nat /\ (month (mkDate 4 11 2026) < 100)%nat /\
  "Predictions_" ++ strftime_d_m_Y (mkDate 4 11 2026) ++ ".xlsx"
  = "Predictions_04_11_2026.xlsx" /\
  mkDate 4 11 2026 = mkDate 4 11 2026.
Proof.
  split; [cbn; lia |]. split; [cbn; lia |]. split; [reflexivity |].
  destruct (file_name_determines_the_day (mkDate 4 11 2026) (mkDate 4 11 2026))
    as (H & _ & _); cbn; try lia.
  apply H. reflexivity.
Defined.

(** ** The further properties on concrete runs *)

(** [--filename weights.xlsx]: two rows, two descriptive columns, full
    output. *)
Lemma weights_runs :
  exists t g,
    main weights_env (mkArgs None (Some "weights.xlsx") None) = (t, inr g).
Proof. eexists. eexists. run_script. reflexivity. Qed.

Lemma weights_batch_well_formed : well_formed weights_batch.
Proof. repeat constructor. Qed.

Lemma success_requires_every_structure_witness :
  exists t g smis,
    main Demo.env (mkArgs None (Some "batch.xlsx") (Some "0")) = (t, inr g) /\
    getitem Demo.batch "SMILES" = inr smis /\
    List.length (mw_calc g) = List.length smis.
Proof.
  destruct demo_batch_runs as (t & g & H & _).
  destruct (success_requires_every_structure Demo.env
              (mkArgs None (Some "batch.xlsx") (Some "0")) t g
              "batch.xlsx" (Some "0") Demo.batch H eq_refl)
    as (smis & Hs & Hl & _).
  exists t, g, smis. auto.
Defined.

Lemma feature_names_fit_together_witness :
  exists t g,
    main Demo.env (Demo.single "CCO") = (t, inr g) /\
    labels (data_input g) = feature_names_in_ (pipeline g) /\
    incl (feature_names_in_ (model2 g)) (feature_names_in_ (pipeline g)).
Proof.
  destruct demo_single_runs as (t & g & H & _).
  destruct (feature_names_fit_together Demo.env (Demo.single "CCO") t g H)
    as (_ & Hl & _ & H2 & _).
  exists t, g. auto.
Defined.

Lemma output_columns_layout_witness :
  exists t g,
    main weights_env (mkArgs None (Some "weights.xlsx") None) = (t, inr g) /\
    labels (df g) = (["SMILES"; "MW"; "Name"] ++ output_labels)%list.
Proof.
  destruct weights_runs as (t & g & H).
  exists t, g. split; [exact H |].
  exact (output_columns_layout weights_env (mkArgs None (Some "weights.xlsx") None) t g
           "weights.xlsx" None weights_batch H eq_refl).
Defined.

Lemma input_columns_are_carried_and_rounded_witness :
  exists t g,
    main weights_env (mkArgs None (Some "weights.xlsx") None) = (t, inr g) /\
    getitem (df g) "MW" = inr [Num (46068 / 1000); Num (94113 / 1000)] /\
    getitem (df g) "Name" = inr [Str "ethanol"; Str "phenol"].
Proof.
  destruct weights_runs as (t & g & H).
  exists t, g. split; [exact H |].
  assert (Hnot : forall key, key = "MW" \/ key = "Name" -> ~ In key output_labels).
  { intros key [-> | ->]; unfold output_labels; cbn; intuition discriminate. }
  split.
  - rewrite (input_columns_are_carried_and_rounded weights_env
               (mkArgs None (Some "weights.xlsx") None) t g
               "weights.xlsx" None weights_batch H eq_refl
               ltac:(cbn; lia) "MW" [Num (460684 / 10000); Num (94113 / 1000)]
               (Hnot "MW" (or_introl eq_refl)) eq_refl).
    cbn. do 3 f_equal.
    + unfold np_round3. rewrite (rint_below _ 46068); [reflexivity | lra].
    + f_equal. replace (94113 / 1000)%R with (IZR 94113 / 1000)%R by reflexivity.
      apply np_round3_thousandths.
  - exact (input_columns_are_carried_and_rounded weights_env
             (mkArgs None (Some "weights.xlsx") None) t g
             "weights.xlsx" None weights_batch H eq_refl
             ltac:(cbn; lia) "Name" [Str "ethanol"; Str "phenol"]
             (Hnot "Name" (or_intror eq_refl)) eq_refl).
Defined.

Lemma output_table_is_rectangular_witness :
  exists t g,
    main weights_env (mkArgs None (Some "weights.xlsx") None) = (t, inr g) /\
    well_formed (df g) /\ nrows (df g) = 2%nat.
Proof.
  destruct weights_runs as (t & g & H).
  exists t, g. split; [exact H |].
  exact (output_table_is_rectangular weights_env
           (mkArgs None (Some "weights.xlsx") None) t g
           "weights.xlsx" None weights_batch H eq_refl
           ltac:(cbn; lia) weights_batch_well_formed).
Defined.

(** ** The summary flag *)

(** Two successful computations of the same thing agree. *)
Ltac agree :=
  repeat match goal with
         | H1 : ?m = (_, inr ?x), H2 : ?m = (_, inr ?y) |- _ =>
             rewrite H1 in H2; inversion H2; subst; clear H2
         end.

Section SummaryFlag.

Context {Mol : Type}.
Variable env : Env Mol.

Lemma assess_ignores_the_summary v s s' df0 t t' g g' :
  assess env v s df0 = (t, inr g) ->
  assess env v s' df0 = (t', inr g') ->
  df g = df g' /\ ad g = ad g' /\ model2 g = model2 g' /\ data_input g = data_input g'.
Proof.
  unfold assess. intros H H'.
  repeat step_ok H. repeat step_ok H'.
  apply ret_ok in H, H'. destruct H as [<- _], H' as [<- _]. cbn.
  agree. auto.
Qed.

Lemma round_and_export_table g g' t t' out out' :
  round_and_export env g = (t, inr out) ->
  round_and_export env g' = (t', inr out') ->
  df g = df g' -> ad g = ad g' -> model2 g = model2 g' -> data_input g = data_input g' ->
  df out = df out'.
Proof.
  unfold round_and_export. intros H H' Edf Ead Em Ed.
  rewrite <- Edf, <- Ead, <- Em, <- Ed in H'.
  repeat step_ok H. repeat step_ok H'.
  apply ret_ok in H, H'. destruct H as [<- _], H' as [<- _]. cbn.
  repeat match goal with E : (if _ then _ else _) = _ |- _ => clear E end.
  agree. reflexivity.
Qed.

(** X21.  The summary flag selects what is written, not what is computed:
    two successful runs on the same input value, whatever their summary
    values, end with the same final table. *)
Theorem summary_flag_does_not_change_the_table
    (given given' : Namespace) (t t' : list event) (g g' : Globals) :
  arg_smiles given = arg_smiles given' ->
  arg_filename given = arg_filename given' ->
  main env given = (t, inr g) ->
  main env given' = (t', inr g') ->
  df g = df g'.
Proof.
  intros Es Ef H H'.
  destruct (main_structure env _ _ _ H)
    as (v & s & df0 & pre & t2 & _ & _ & Hflag & Hload & Ha & Hr & _).
  destruct (main_structure env _ _ _ H')
    as (v' & s' & df0' & pre' & t2' & _ & _ & Hflag' & Hload' & Ha' & Hr' & _).
  rewrite <- Es, <- Ef in Hflag'.
  assert (Ev : v' = v).
  { destruct (arg_smiles given); [destruct Hflag, Hflag'; congruence | congruence]. }
  subst v'.
  assert (Ed : df0' = df0).
  { destruct (contains ".xlsx" v); congruence. }
  subst df0'.
  destruct (assess_ignores_the_summary _ _ _ _ _ _ _ _ Ha Ha') as (E1 & E2 & E3 & E4).
  eapply round_and_export_table; eassumption.
Qed.

End SummaryFlag.

Lemma summary_flag_does_not_change_the_table_witness :
  exists t g t' g',
    main Demo.env (mkArgs None (Some "batch.xlsx") (Some "0")) = (t, inr g) /\
    main Demo.env (mkArgs None (Some "batch.xlsx") None) = (t', inr g') /\
    df g = df g'.
Proof.
  destruct demo_batch_runs as (t & g & H & _).
  assert (H' : exists t' g',
             main Demo.env (mkArgs None (Some "batch.xlsx") None) = (t', inr g'))
    by (eexists; eexists; run_script; reflexivity).
  destruct H' as (t' & g' & H').
  exists t, g, t', g'. repeat split; try assumption.
  exact (summary_flag_does_not_change_the_table Demo.env
           (mkArgs None (Some "batch.xlsx") (Some "0"))
           (mkArgs None (Some "batch.xlsx") None) t t' g g'
           eq_refl eq_refl H H').
Defined.

(** ** How the stages fail *)

Lemma mapM_fail {A B} (f : A -> M B) (l : list A) t h :
  mapM f l = (t, inl h) ->
  exists x t0 tx,
    In x l /\ f x = (tx, inl h) /\ t = (t0 ++ tx)%list
    /\ ((forall y ty r, f y = (ty, r) -> ty = []) -> t = []).
Proof.
  revert t. induction l as [| x l IH]; cbn; intros t H; [discriminate |].
  apply bind_fail in H. destruct H as [H | (t1 & y & t2 & Hx & H & ->)].
  - exists x, [], t. split; [now left |]. split; [assumption |]. split; [reflexivity |].
    intros Hs. eapply Hs; eassumption.
  - apply bind_fail in H. destruct H as [H | (t3 & ys & t4 & Hl & H & _)];
      [| discriminate H].
    destruct (IH _ H) as (x' & t0 & tx & Hin & Hf & -> & Hsil).
    exists x', (t1 ++ t0)%list, tx. split; [now right |]. split; [assumption |].
    split; [now rewrite app_assoc |].
    intros Hs. rewrite (Hsil Hs), (Hs _ _ _ Hx). reflexivity.
Qed.

Section Failures.

Context {Mol : Type}.
Variable env : Env Mol.

Lemma mol_of_cell_silent smi t r : mol_of_cell env smi = (t, r) -> t = [].
Proof.
  destruct smi; cbn; try (intros E; now inversion E).
  destruct (MolFromSmiles env s); cbn; intros E; now inversion E.
Qed.

(** X7.  [mordred_calculator] fails in four ways only, each an uncaught
    exception and none leaving anything on the console: the table has no
    SMILES column; a cell of that column is not a string; the parser raises
    on one of the strings; the descriptor engine raises. *)
Theorem mordred_calculator_failures dataset t h :
  mordred_calculator env dataset = (t, inl h) ->
  t = [] /\
  exists e, h = Traceback e /\
    (getitem dataset "SMILES" = inl e
     \/ (exists smis c, getitem dataset "SMILES" = inr smis /\ In c smis
                        /\ (forall s, c <> Str s) /\ e = "TypeError")
     \/ (exists smis s, getitem dataset "SMILES" = inr smis /\ In (Str s) smis
                        /\ MolFromSmiles env s = inl e)
     \/ (exists mols, calc_pandas env mols = inl e)).
Proof.
  unfold mordred_calculator. intros H.
  apply bind_fail in H. destruct H as [H | (t1 & smis & t2 & Hs & H & ->)].
  { apply call_fail in H. destruct H as (-> & e & He & ->). eauto 6. }
  apply call_ok in Hs. destruct Hs as [Hs ->].
  apply bind_fail in H. destruct H as [H | (t3 & mols & t4 & Hm & H & ->)].
  - destruct (mapM_fail _ _ _ _ H) as (c & t0 & tx & Hin & Hc & Ht & Hsil).
    split; [apply Hsil; intros y ty r; apply mol_of_cell_silent |].
    destruct c as [s | | | | |]; cbn in Hc;
      try (inversion Hc; subst; exists "TypeError"; split; [reflexivity |];
           right; left; exists smis; eexists; repeat split;
           [eassumption | eassumption | discriminate]).
    apply call_fail in Hc. destruct Hc as (_ & e & He & ->).
    exists e. split; [reflexivity |]. right. right. left. eauto.
  - assert (t3 = []) by
      (eapply mapM_silent; [| eassumption]; intros x t' y Hx;
       eapply mol_of_cell_silent; eassumption).
    subst t3.
    apply bind_fail in H. destruct H as [H | (? & ? & ? & _ & H & _)];
      [| discriminate H].
    apply call_fail in H. destruct H as (-> & e & He & ->).
    split; [reflexivity |]. exists e. split; [reflexivity |]. right. right. right. eauto.
Qed.

(** X18.  The stages run in a fixed order and the first failure ends the
    run: a spreadsheet that cannot be read stops it before any artifact is
    loaded, and an artifact that cannot be loaded stops it before any
    descriptor is calculated; in both cases only the banner and the input
    value have been printed. *)
Theorem first_failure_ends_the_run (given : Namespace) (v : string) :
  (arg_smiles given = Some v /\ arg_filename given = None)
  \/ (arg_smiles given = None /\ arg_filename given = Some v) ->
  (forall h, load_input env (Some v) = ([], inl h) ->
     main env given = ([Print banner; Print ("Input value: " ++ v)], inl h)) /\
  (forall loaded h,
     load_input env (Some v) = ([], inr loaded) ->
     pipeline_model_importer env = ([], inl h) ->
     main env given = ([Print banner; Print ("Input value: " ++ v)], inl h)).
Proof.
  intros Hv. rewrite (main_with_one_option env given v Hv). split.
  - intros h Hl. rewrite Hl. reflexivity.
  - intros loaded h Hl Hp. rewrite Hl. unfold assess.
    cbv beta iota delta [bind print emit]. rewrite Hp. reflexivity.
Qed.

End Failures.

Lemma mordred_calculator_failures_witness :
  let dataset := mkFrame 1 [("smiles", [Str "CCO"])] in
  mordred_calculator Demo.env dataset = ([], inl (Traceback "KeyError")) /\
  exists e, Traceback "KeyError" = Traceback e /\
    (getitem dataset "SMILES" = inl e
     \/ (exists smis c, getitem dataset "SMILES" = inr smis /\ In c smis
                        /\ (forall s, c <> Str s) /\ e = "TypeError")
     \/ (exists smis s, getitem dataset "SMILES" = inr smis /\ In (Str s) smis
                        /\ MolFromSmiles Demo.env s = inl e)
     \/ (exists mols, calc_pandas Demo.env mols = inl e)).
Proof.
  intros dataset. split; [reflexivity |].
  apply (mordred_calculator_failures Demo.env dataset [] (Traceback "KeyError")).
  reflexivity.
Defined.

Lemma first_failure_ends_the_run_witness :
  main Demo.env (mkArgs (Some "missing.xlsx") None None)
  = ([Print banner; Print "Input value: missing.xlsx"],
     inl (Traceback "FileNotFoundError")).
Proof.
  destruct (first_failure_ends_the_run Demo.env
              (mkArgs (Some "missing.xlsx") None None) "missing.xlsx")
    as [H _]; [left; split; reflexivity |].
  apply H. reflexivity.
Defined.

(* ------------------------------------------------------------------ *)
(** * The applicability domain *)









Lemma loc_columns_nrows df keys selected :
  loc_columns df keys = inr selected -> nrows selected = nrows df.
Proof.
  unfold loc_columns. destruct (forallb _ keys); [| discriminate].
  intros E. now inversion E.
Qed.

Section Domain.

Context {Mol : Type}.
Variable env : Env Mol.






Variables (given : Namespace) (t : list event) (g : Globals).
Hypothesis Hmain : main env given = (t, inr g).


End Domain.



(* ------------------------------------------------------------------ *)
(** * Rows, stage by stage *)

(** An assignment of no more values than the index has rows succeeds only
    with exactly one value per row, and then keeps the index. *)
Lemma setitem_fits (df df' : Frame) (key : string) (values : list cell) :
  setitem df key values = inr df' ->
  (List.length values <= nrows df)%nat ->
  df' = with_column key values df /\ List.length values = nrows df.
Proof.
  unfold setitem. intros E Hle.
  destruct (nrows df =? 0)%nat eqn:Z, (0 <? List.length values)%nat eqn:P;
    cbn [andb] in E;
    try (destruct (List.length values =? nrows df)%nat eqn:L; [| discriminate];
         apply Nat.eqb_eq in L; inversion E; auto).
  apply Nat.eqb_eq in Z. apply Nat.ltb_lt in P. lia.
Qed.

Lemma predict_restricted_rows {Out} (est : Estimator (list Out)) names table out :
  one_per_row est ->
  predict_restricted est names table = inr out ->
  List.length out = nrows table.
Proof.
  intros Hrow. unfold predict_restricted.
  destruct (loc_columns table names) as [e | selected] eqn:L; [discriminate |].
  intros H. rewrite (Hrow _ _ H). eapply loc_columns_nrows; eassumption.
Qed.

Lemma well_formed_getitem df key col :
  well_formed df -> getitem df key = inr col -> List.length col = nrows df.
Proof.
  unfold well_formed, getitem. intros Hwf.
  destruct (find (has_label key) (columns df)) as [c |] eqn:F; [| discriminate].
  intros E. inversion E; subst. apply find_some in F. destruct F as [Hin _].
  rewrite Forall_forall in Hwf. now apply Hwf.
Qed.

Lemma well_formed_single label value : well_formed (DataFrame_single label value).
Proof. repeat constructor. Qed.

Lemma map_nan_if_error_Str (col : list cell) :
  Forall (fun c => exists s, c = Str s) col -> map nan_if_error col = col.
Proof.
  induction 1 as [| c col [s ->] _ IH]; [reflexivity |]. cbn. now rewrite IH.
Qed.

Section StageRows.

Context {Mol : Type}.
Variable env : Env Mol.

(** STEP 5 for one model that answers row by row. *)
Lemma predict_and_convert_rows model logM mgL data_input mw_calc df t df' :
  predict_and_convert model logM mgL data_input mw_calc df = (t, inr df') ->
  one_per_row model ->
  nrows data_input = nrows df ->
  exists p,
    predict_restricted model (feature_names_in_ model) data_input = inr p /\
    List.length p = nrows df /\
    (nrows df <= List.length mw_calc)%nat /\
    df' = with_column mgL (map Num (mgL_values p mw_calc))
            (with_column logM (map Num p) df).
Proof.
  unfold predict_and_convert. intros H Hrow Hn.
  repeat step_ok H. leaves_ok. subst.
  assert (Lp : List.length a = nrows df)
    by (rewrite <- Hn; eapply predict_restricted_rows; eassumption).
  apply setitem_fits in Hstep0; [| rewrite length_map; lia].
  destruct Hstep0 as [-> _].
  rewrite getitem_with_column_same in Hstep1. inversion Hstep1; subst; clear Hstep1.
  rewrite floats_Num in Hstep2. inversion Hstep2; subst; clear Hstep2.
  apply setitem_fits in Hstep3;
    [| rewrite length_map, length_combine; cbn [nrows with_column]; lia].
  destruct Hstep3 as [-> L2].
  rewrite length_map, length_combine in L2. cbn [nrows with_column] in L2.
  eexists. split; [eassumption |]. repeat split; try assumption; [lia |].
  unfold mgL_values. now rewrite map_map.
Qed.

(** The table after line 248 of a successful run whose models answer row
    by row, whatever the size of the input. *)
Lemma assess_columns_rows v s df0 t g :
  assess env v s df0 = (t, inr g) ->
  one_per_row (model1 g) -> one_per_row (model2 g) -> one_per_row (model3 g) ->
  nrows (data_input g) = nrows df0 ->
  exists p1 p2 p3,
    predict_restricted (model1 g) (feature_names_in_ (model1 g)) (data_input g) = inr p1 /\
    predict_restricted (model2 g) (feature_names_in_ (model2 g)) (data_input g) = inr p2 /\
    predict_restricted (model3 g) (feature_names_in_ (model3 g)) (data_input g) = inr p3 /\
    List.length p1 = nrows df0 /\
    List.length p2 = nrows df0 /\
    List.length p3 = nrows df0 /\
    (nrows df0 <= List.length (mw_calc g))%nat /\
    df g = aggregated df0 p1 p2 p3 (mw_calc g).
Proof.
  unfold assess. intros H R1 R2 R3 Hd.
  repeat step_ok H.
  apply ret_ok in H. destruct H as [<- _].
  cbn [model1 model2 model3 data_input mw_calc df] in *.
  apply predict_and_convert_rows in Hstep9; [| assumption | assumption].
  destruct Hstep9 as (p1 & P1 & L1 & Lw & ->).
  apply predict_and_convert_rows in Hstep10; [| assumption | assumption].
  destruct Hstep10 as (p2 & P2 & L2 & _ & ->).
  apply predict_and_convert_rows in Hstep11; [| assumption | assumption].
  destruct Hstep11 as (p3 & P3 & L3 & _ & ->).
  cbn [nrows with_column] in *.
  assert (Lz : forall (f : R * R * R -> cell) (l1 l2 l3 : list R),
             List.length l1 = nrows df0 -> List.length l2 = nrows df0 ->
             List.length l3 = nrows df0 ->
             (List.length (map f (zip3 l1 l2 l3)) <= nrows df0)%nat).
  { intros f l1 l2 l3 La Lb Lc. unfold zip3.
    rewrite length_map, !length_combine. lia. }
  assert (M1 := length_mgL_values p1 a8 _ L1 Lw).
  assert (M2 := length_mgL_values p2 a8 _ L2 Lw).
  assert (M3 := length_mgL_values p3 a8 _ L3 Lw).
  rewrite across_models_Num with (p1 := p1) (p2 := p2) (p3 := p3) in Hstep12
    by (getitem_simpl; reflexivity).
  inversion Hstep12; subst. clear Hstep12.
  leaf_ok Hstep13. apply setitem_fits in Hstep13; [| now apply Lz].
  destruct Hstep13 as [-> _].
  rewrite across_models_Num with (p1 := p1) (p2 := p2) (p3 := p3) in Hstep14
    by (getitem_simpl; reflexivity).
  inversion Hstep14; subst. clear Hstep14.
  leaf_ok Hstep15. apply setitem_fits in Hstep15; [| now apply Lz].
  destruct Hstep15 as [-> _].
  rewrite across_models_Num with (p1 := mgL_values p1 a8) (p2 := mgL_values p2 a8)
    (p3 := mgL_values p3 a8) in Hstep16 by (getitem_simpl; reflexivity).
  inversion Hstep16; subst. clear Hstep16.
  leaf_ok Hstep17. apply setitem_fits in Hstep17; [| now apply Lz].
  destruct Hstep17 as [-> _].
  rewrite across_models_Num with (p1 := mgL_values p1 a8) (p2 := mgL_values p2 a8)
    (p3 := mgL_values p3 a8) in Hstep18 by (getitem_simpl; reflexivity).
  inversion Hstep18; subst. clear Hstep18.
  leaf_ok Hstep19. apply setitem_fits in Hstep19; [| now apply Lz].
  destruct Hstep19 as [-> _].
  exists p1, p2, p3. repeat split; try assumption.
  unfold aggregated, across. now rewrite !map_map.
Qed.

(** Lines 251-277 of a successful run whose classifier answers row by
    row. *)
Lemma round_and_export_columns_rows g t out df0 p1 p2 p3 :
  round_and_export env g = (t, inr out) ->
  df g = aggregated df0 p1 p2 p3 (mw_calc g) ->
  List.length p1 = nrows df0 ->
  one_per_row (ad g) ->
  nrows (data_input g) = nrows df0 ->
  exists domain,
    predict_restricted (ad g) (feature_names_in_ (model2 g)) (data_input g) = inr domain /\
    List.length domain = nrows df0 /\
    df out = finished env (df g) p1 p2 p3 (mw_calc g) domain.
Proof.
  unfold round_and_export. intros H Hdf L1 Hrow Hd.
  repeat step_ok H.
  leaf_ok Hstep. leaf_ok Hstep0.
  rewrite getitem_round3, Hdf in Hstep, Hstep0.
  unfold aggregated in Hstep, Hstep0.
  revert Hstep Hstep0. getitem_simpl. rewrite !round_column_Num.
  intros Hstep Hstep0. inversion Hstep; inversion Hstep0; subst a a0.
  clear Hstep Hstep0.
  leaf_ok Hstep1. leaf_ok Hstep2. rewrite floats_Num in Hstep1, Hstep2.
  inversion Hstep1; inversion Hstep2; subst a1 a2. clear Hstep1 Hstep2.
  leaf_ok Hstep3.
  apply setitem_fits in Hstep3.
  2:{ rewrite length_map, length_combine, !length_map.
      unfold across, zip3, mgL_values.
      rewrite !length_map, !length_combine, !length_map, !length_combine.
      rewrite Hdf. cbn [nrows round3 aggregated with_column]. lia. }
  destruct Hstep3 as [-> _].
  leaf_ok Hstep4.
  assert (Ld : List.length a4 = nrows df0)
    by (rewrite <- Hd; eapply predict_restricted_rows; eassumption).
  leaf_ok Hstep5.
  apply setitem_fits in Hstep5;
    [| rewrite length_map, Hdf; cbn [nrows round3 aggregated with_column]; lia].
  destruct Hstep5 as [-> _].
  apply ret_ok in H. destruct H as [<- ->].
  exists a4. split; [assumption |]. split; [assumption |]. reflexivity.
Qed.

End StageRows.

Section RowCount.

Context {Mol : Type}.
Variable env : Env Mol.

Variables (given : Namespace) (t : list event) (g : Globals).
Variables (v : string) (s : option string) (df0 : Frame).
Hypothesis Hmain : main env given = (t, inr g).
Hypothesis Hinput : snd (read_input env given) = inr (v, s, df0).

(** The descriptor stage and the transform stage of a successful run, with
    a descriptor engine and a pipeline that answer row by row. *)
Lemma main_stage_rows :
  (forall mols described,
     calc_pandas env mols = inr described -> nrows described = List.length mols) ->
  one_per_row (pipeline g) ->
  well_formed df0 ->
  (mordred_calculator env df0 = ([], inr (data g)) /\
   nrows (data g) = nrows df0 /\
   getitem (data g) "SMILES" = getitem df0 "SMILES") /\
  (exists selected transformed,
     loc_columns (data g) (feature_names_in_ (pipeline g)) = inr selected /\
     nrows selected = nrows df0 /\
     transform (pipeline g) selected = inr transformed /\
     List.length transformed = nrows df0 /\
     DataFrame_of_array transformed (feature_names_in_ (pipeline g)) = inr (data_input g) /\
     nrows (data_input g) = nrows df0).
Proof.
  intros Hcalc Rp Hwf.
  destruct (main_structure env _ _ _ Hmain)
    as (v' & s' & df0' & pre & t2 & Hin' & _ & _ & _ & Ha & Hr & _).
  rewrite Hinput in Hin'. inversion Hin'; subst v' s' df0'. clear Hin'.
  destruct (round_and_export_structure env _ _ _ Hr) as (_ & _ & _ & _ & _ & Hg & _).
  assert (Hsame : data_input g = data_input pre /\ pipeline g = pipeline pre /\
                  data g = data pre)
    by (rewrite Hg; cbn; auto).
  destruct Hsame as (Edi & Ep & Eda).
  rewrite Ep in Rp. rewrite Edi, Ep, Eda.
  destruct (assess_structure env _ _ _ _ _ Ha)
    as (_ & _ & _ & _ & Hm & (selected & transformed & Hsel & Htr & Hdi)
        & (smis & Hs & Hw) & _).
  assert (Ls : List.length smis = nrows df0) by (eapply well_formed_getitem; eassumption).
  assert (HStr := Forall2_weighed_Str _ _ _ Hw).
  assert (Hdata : nrows (data pre) = nrows df0).
  { eapply mordred_calculator_rows; [exact Hm | exact Hcalc |].
    intros col Hc. eapply well_formed_getitem; eassumption. }
  assert (Hsmi_data : getitem (data pre) "SMILES" = getitem df0 "SMILES").
  { destruct (mordred_calculator_ok env _ _ _ Hm)
      as (_ & smis' & mols & described & Hs' & HF & Hd & Edata).
    rewrite Hs in Hs'. inversion Hs'; subst smis'. clear Hs'.
    rewrite Edata, getitem_applymap, (getitem_concat_axis1 _ _ _ _ Hs), Hs.
    rewrite (Hcalc _ _ Hd), <- (Forall2_length HF), Ls, Nat.max_id, Nat.sub_diag.
    cbn [repeat]. rewrite app_nil_r. now rewrite map_nan_if_error_Str. }
  assert (Hnsel : nrows selected = nrows df0)
    by (rewrite (loc_columns_nrows _ _ _ Hsel); exact Hdata).
  assert (Hntr : List.length transformed = nrows df0)
    by (rewrite <- Hnsel; apply Rp; exact Htr).
  assert (Hndi : nrows (data_input pre) = nrows df0).
  { apply DataFrame_of_array_labels in Hdi. destruct Hdi as [_ Hdi]. congruence. }
  split; [auto |]. exists selected, transformed. auto 10.
Qed.

(** The two tables of a successful run whose libraries answer row by row,
    whatever the size of the input. *)
Lemma main_columns_rows :
  row_wise env g ->
  well_formed df0 ->
  exists pre p1 p2 p3 domain smis,
    predictions_and_consensus env given = (progress v, inr pre) /\
    predict_restricted (model1 g) (feature_names_in_ (model1 g)) (data_input g) = inr p1 /\
    predict_restricted (model2 g) (feature_names_in_ (model2 g)) (data_input g) = inr p2 /\
    predict_restricted (model3 g) (feature_names_in_ (model3 g)) (data_input g) = inr p3 /\
    predict_restricted (ad g) (feature_names_in_ (model2 g)) (data_input g) = inr domain /\
    List.length p1 = nrows df0 /\
    List.length p2 = nrows df0 /\
    List.length p3 = nrows df0 /\
    List.length domain = nrows df0 /\
    (nrows df0 <= List.length (mw_calc g))%nat /\
    getitem df0 "SMILES" = inr smis /\
    Forall2 (weighed env) smis (mw_calc g) /\
    df pre = aggregated df0 p1 p2 p3 (mw_calc g) /\
    df g = finished env (df pre) p1 p2 p3 (mw_calc g) domain.
Proof.
  intros (Hcalc & Rp & R1 & R2 & R3 & Rad) Hwf.
  destruct (main_stage_rows Hcalc Rp Hwf) as (_ & _ & _ & _ & _ & _ & _ & _ & Hndi).
  destruct (main_structure env _ _ _ Hmain)
    as (v' & s' & df0' & pre & t2 & Hin' & _ & _ & _ & Ha & Hr & _).
  rewrite Hinput in Hin'. inversion Hin'; subst v' s' df0'. clear Hin'.
  destruct (round_and_export_structure env _ _ _ Hr) as (_ & _ & _ & _ & _ & Hg & _).
  assert (Hsame : model1 g = model1 pre /\ model2 g = model2 pre /\
                  model3 g = model3 pre /\ data_input g = data_input pre /\
                  mw_calc g = mw_calc pre /\ ad g = ad pre)
    by (rewrite Hg; cbn; auto 10).
  destruct Hsame as (E1 & E2 & E3 & Edi & Emw & Ead).
  rewrite E1 in R1. rewrite E2 in R2. rewrite E3 in R3. rewrite Ead in Rad.
  rewrite Edi in Hndi. rewrite E1, E2, E3, Edi, Emw, Ead.
  destruct (assess_structure env _ _ _ _ _ Ha)
    as (_ & _ & _ & _ & _ & _ & (smis & Hs & Hw) & _).
  destruct (assess_columns_rows env _ _ _ _ _ Ha R1 R2 R3 Hndi)
    as (p1 & p2 & p3 & P1 & P2 & P3 & L1 & L2 & L3 & Lw & Hpre).
  destruct (round_and_export_columns_rows env _ _ _ _ _ _ _ Hr Hpre L1 Rad Hndi)
    as (domain & PD & LD & Hout).
  exists pre, p1, p2, p3, domain, smis. repeat split; try assumption.
  unfold predictions_and_consensus, progress.
  destruct (read_input env given) as [ti [h | inp]] eqn:R; cbn in Hinput;
    [discriminate |].
  inversion Hinput; subst inp.
  apply read_input_ok in R. destruct R as (-> & _).
  unfold bind at 2. cbn [fst snd]. rewrite Ha. reflexivity.
Qed.

(** C7.  A single structure gives a table of exactly one row.  A batch
    table of [N] rows (each column with its [N] cells) gives [N] rows in the
    order of the input: the arrays of the three models and of the
    classifier and the molecular weights have [N] entries, the table after
    the aggregation, the final table and the exported table have [N] rows
    and the structure column of the input, and every value of row [i] of
    the result is computed from row [i] of the input.  For [N] of at least
    one this is forced by the column assignments, which refuse a value of
    another length; for a batch without rows it holds with libraries that
    answer row by row.  With such libraries the descriptor stage and the
    transform stage keep the rows too: the descriptor table has [N] rows and
    the structure column of the input, the table selected for the pipeline,
    the transformed array and the transformed table have [N] rows. *)
Theorem rows_preserved :
  (contains ".xlsx" v = true -> well_formed df0) ->
  (contains ".xlsx" v = false ->
     nrows df0 = 1%nat /\ nrows (df g) = 1%nat /\
     getitem (df g) "SMILES" = inr [Str v]) /\
  ((0 < nrows df0)%nat \/ row_wise env g ->
     (exists pre p1 p2 p3 domain smis,
        predictions_and_consensus env given = (progress v, inr pre) /\
        predict_restricted (model1 g) (feature_names_in_ (model1 g)) (data_input g)
          = inr p1 /\
        predict_restricted (model2 g) (feature_names_in_ (model2 g)) (data_input g)
          = inr p2 /\
        predict_restricted (model3 g) (feature_names_in_ (model3 g)) (data_input g)
          = inr p3 /\
        predict_restricted (ad g) (feature_names_in_ (model2 g)) (data_input g)
          = inr domain /\
        List.length p1 = nrows df0 /\
        List.length p2 = nrows df0 /\
        List.length p3 = nrows df0 /\
        List.length domain = nrows df0 /\
        getitem df0 "SMILES" = inr smis /\
        List.length smis = nrows df0 /\
        Forall2 (weighed env) smis (mw_calc g) /\
        nrows (df pre) = nrows df0 /\
        getitem (df pre) "SMILES" = getitem df0 "SMILES" /\
        forall i, (i < nrows df0)%nat ->
          exists y1 y2 y3 w smi d, Row env df0 (df pre) g i y1 y2 y3 w smi d) /\
     nrows (df g) = nrows df0 /\
     getitem (df g) "SMILES" = getitem df0 "SMILES" /\
     (exists path table,
        t = (progress v ++ [ToExcel path table; PrintFrame table])%list /\
        nrows table = nrows df0 /\
        getitem table "SMILES" = getitem df0 "SMILES")) /\
  (row_wise env g ->
     (mordred_calculator env df0 = ([], inr (data g)) /\
      nrows (data g) = nrows df0 /\
      getitem (data g) "SMILES" = getitem df0 "SMILES") /\
     (exists selected transformed,
        loc_columns (data g) (feature_names_in_ (pipeline g)) = inr selected /\
        nrows selected = nrows df0 /\
        transform (pipeline g) selected = inr transformed /\
        List.length transformed = nrows df0 /\
        DataFrame_of_array transformed (feature_names_in_ (pipeline g))
          = inr (data_input g) /\
        nrows (data_input g) = nrows df0)).
Proof.
  intros Hbatch.
  destruct (main_structure env _ _ _ Hmain)
    as (v' & s' & df0' & pre0 & t2 & Hin' & _ & _ & Hload & _ & Hr & Ht).
  rewrite Hinput in Hin'. inversion Hin'; subst v' s' df0'. clear Hin'.
  assert (Hwf : well_formed df0).
  { destruct (contains ".xlsx" v); [auto | subst df0; apply well_formed_single]. }
  assert (Hrest : (0 < nrows df0)%nat \/ row_wise env g ->
            (exists pre p1 p2 p3 domain smis,
               predictions_and_consensus env given = (progress v, inr pre) /\
               predict_restricted (model1 g) (feature_names_in_ (model1 g)) (data_input g)
                 = inr p1 /\
               predict_restricted (model2 g) (feature_names_in_ (model2 g)) (data_input g)
                 = inr p2 /\
               predict_restricted (model3 g) (feature_names_in_ (model3 g)) (data_input g)
                 = inr p3 /\
               predict_restricted (ad g) (feature_names_in_ (model2 g)) (data_input g)
                 = inr domain /\
               List.length p1 = nrows df0 /\
               List.length p2 = nrows df0 /\
               List.length p3 = nrows df0 /\
               List.length domain = nrows df0 /\
               getitem df0 "SMILES" = inr smis /\
               List.length smis = nrows df0 /\
               Forall2 (weighed env) smis (mw_calc g) /\
               nrows (df pre) = nrows df0 /\
               getitem (df pre) "SMILES" = getitem df0 "SMILES" /\
               forall i, (i < nrows df0)%nat ->
                 exists y1 y2 y3 w smi d, Row env df0 (df pre) g i y1 y2 y3 w smi d) /\
            nrows (df g) = nrows df0 /\
            getitem (df g) "SMILES" = getitem df0 "SMILES" /\
            (exists path table,
               t = (progress v ++ [ToExcel path table; PrintFrame table])%list /\
               nrows table = nrows df0 /\
               getitem table "SMILES" = getitem df0 "SMILES")).
  { intros Hor.
    assert (Hcols : exists pre p1 p2 p3 domain smis,
      predictions_and_consensus env given = (progress v, inr pre) /\
      predict_restricted (model1 g) (feature_names_in_ (model1 g)) (data_input g) = inr p1 /\
      predict_restricted (model2 g) (feature_names_in_ (model2 g)) (data_input g) = inr p2 /\
      predict_restricted (model3 g) (feature_names_in_ (model3 g)) (data_input g) = inr p3 /\
      predict_restricted (ad g) (feature_names_in_ (model2 g)) (data_input g) = inr domain /\
      List.length p1 = nrows df0 /\
      List.length p2 = nrows df0 /\
      List.length p3 = nrows df0 /\
      List.length domain = nrows df0 /\
      (nrows df0 <= List.length (mw_calc g))%nat /\
      getitem df0 "SMILES" = inr smis /\
      Forall2 (weighed env) smis (mw_calc g) /\
      df pre = aggregated df0 p1 p2 p3 (mw_calc g) /\
      df g = finished env (df pre) p1 p2 p3 (mw_calc g) domain).
    { destruct Hor as [Hn | Hrw].
      - exact (main_columns env _ _ _ _ _ _ Hmain Hinput Hn).
      - exact (main_columns_rows Hrw Hwf). }
    destruct Hcols as (pre & p1 & p2 & p3 & domain & smis & Hpc & P1 & P2 & P3 & PD
                       & L1 & L2 & L3 & LD & Lw & Hs & Hw & Hpre & Hout).
    assert (Ls : List.length smis = nrows df0)
      by (eapply well_formed_getitem; eassumption).
    assert (HStr := Forall2_weighed_Str _ _ _ Hw).
    assert (Hrows : nrows (df g) = nrows df0) by (rewrite Hout, Hpre; reflexivity).
    assert (Hsmi_pre : getitem (df pre) "SMILES" = getitem df0 "SMILES").
    { rewrite Hpre. unfold aggregated. now getitem_simpl. }
    assert (Hsmi : getitem (df g) "SMILES" = getitem df0 "SMILES").
    { rewrite Hout. unfold finished. getitem_simpl.
      rewrite getitem_round3, Hsmi_pre, Hs. now rewrite round_column_Str. }
    split; [| split; [assumption | split; [assumption |]]].
    - exists pre, p1, p2, p3, domain, smis.
      repeat match goal with |- _ /\ _ => split end; try assumption.
      + rewrite Hpre. reflexivity.
      + intros i Hi.
        destruct (main_rows env _ _ _ _ _ _ Hmain Hinput)
          as (pre' & Hpc' & _ & _ & Hrow); [lia |].
        rewrite Hpc in Hpc'. inversion Hpc'; subst pre'.
        exact (Hrow i Hi).
    - destruct (round_and_export_structure env _ _ _ Hr)
        as (_ & _ & _ & _ & _ & _ & He).
      unfold export_events in He. destruct (truthy (summary pre0)).
      + destruct He as (table & Hsel' & ->).
        apply loc_columns_head in Hsel'. destruct Hsel' as [Hnr Hget].
        exists ("Summary_predictions_" ++ strftime_d_m_Y (datetime_now env) ++ ".xlsx"),
               table.
        repeat split; [assumption | congruence | congruence].
      + subst t2.
        exists ("Predictions_" ++ strftime_d_m_Y (datetime_now env) ++ ".xlsx"), (df g).
        repeat split; assumption. }
  split; [| split; [exact Hrest |]].
  - intros Hc. rewrite Hc in Hload.
    assert (Hn : (0 < nrows df0)%nat) by (subst df0; cbn; lia).
    destruct (Hrest (or_introl Hn)) as (_ & Hrows & Hsmi & _).
    rewrite Hsmi, Hrows. subst df0. auto.
  - intros (Hcalc & Rp & _). exact (main_stage_rows Hcalc Rp Hwf).
Qed.

End RowCount.

Lemma demo_describe_rows mols described :
  Demo.describe mols = inr described -> nrows described = List.length mols.
Proof.
  unfold Demo.describe. destruct (forallb _ mols); [| discriminate].
  intros E. now inversion E.
Qed.

Lemma demo_constant_regressor_rows names y :
  one_per_row (Demo.constant_regressor names y).
Proof. intros table out E. cbn in E. inversion E. apply repeat_length. Qed.

Lemma demo_artifacts_row_wise (env : Env nat) (g : Globals) :
  calc_pandas env = Demo.describe ->
  model1 g = Demo.etr -> model2 g = Demo.xgb -> model3 g = Demo.gb ->
  pipeline g = Demo.pipe -> ad g = Demo.clf ->
  row_wise env g.
Proof.
  unfold row_wise. intros -> -> -> -> -> ->.
  split; [exact demo_describe_rows |].
  split; [intros table out E; cbn in E; inversion E; apply repeat_length |].
  repeat split; try apply demo_constant_regressor_rows.
  intros table out E. cbn in E. inversion E. apply repeat_length.
Qed.

Lemma demo_batch_row_wise t g :
  main Demo.env (mkArgs None (Some "batch.xlsx") (Some "0")) = (t, inr g) ->
  row_wise Demo.env g.
Proof.
  intros H.
  assert (E : model1 g = Demo.etr /\ model2 g = Demo.xgb /\ model3 g = Demo.gb /\
              pipeline g = Demo.pipe /\ ad g = Demo.clf).
  { revert H. run_script. intros E. inversion E. repeat split. }
  destruct E as (? & ? & ? & ? & ?). now apply demo_artifacts_row_wise.
Qed.

(** [--filename empty.xlsx] in the concrete environment, whose estimators
    accept a table without rows: the run goes through every stage. *)
Lemma empty_batch_runs :
  exists t g,
    main empty_env (mkArgs None (Some "empty.xlsx") None) = (t, inr g) /\
    row_wise empty_env g.
Proof.
  eexists. eexists. split; [run_script; reflexivity |].
  now apply demo_artifacts_row_wise.
Qed.

Lemma rows_preserved_witness :
  (exists t g,
     main Demo.env (mkArgs None (Some "batch.xlsx") (Some "0")) = (t, inr g) /\
     nrows Demo.batch = 2%nat /\
     nrows (data g) = 2%nat /\
     nrows (data_input g) = 2%nat /\
     nrows (df g) = 2%nat /\
     getitem (data g) "SMILES" = inr [Str "c1ccccc1O"; Str "CCO"] /\
     getitem (df g) "SMILES" = inr [Str "c1ccccc1O"; Str "CCO"]) /\
  (exists t g,
     main empty_env (mkArgs None (Some "empty.xlsx") None) = (t, inr g) /\
     nrows empty_batch = 0%nat /\
     nrows (data g) = 0%nat /\
     nrows (data_input g) = 0%nat /\
     nrows (df g) = 0%nat).
Proof.
  split.
  - destruct demo_batch_runs as (t & g & H & _).
    assert (Hrw := demo_batch_row_wise t g H).
    destruct (rows_preserved Demo.env (mkArgs None (Some "batch.xlsx") (Some "0")) t g
                "batch.xlsx" (Some "0") Demo.batch H eq_refl)
      as (_ & Hrest & Hstages); [intros _; repeat constructor |].
    destruct (Hrest (or_intror Hrw)) as (_ & Hn & Hs & _).
    destruct (Hstages Hrw)
      as ((_ & Hd & Hsd) & (selected & transformed & _ & _ & _ & _ & _ & Hdi)).
    exists t, g. repeat split; assumption.
  - destruct empty_batch_runs as (t & g & H & Hrw).
    destruct (rows_preserved empty_env (mkArgs None (Some "empty.xlsx") None) t g
                "empty.xlsx" None empty_batch H eq_refl)
      as (_ & Hrest & Hstages); [intros _; repeat constructor |].
    destruct (Hrest (or_intror Hrw)) as (_ & Hn & _).
    destruct (Hstages Hrw)
      as ((_ & Hd & _) & (selected & transformed & _ & _ & _ & _ & _ & Hdi)).
    exists t, g. repeat split; assumption.
Defined.

(* ------------------------------------------------------------------ *)
(** * A structure that cannot be parsed *)

Section Unparsable.

Context {Mol : Type}.
Variable env : Env Mol.

(** Up to line 248 a run on a single structure that the parser does not
    turn into a molecule cannot succeed, if the weight of a missing
    molecule cannot be had: line 219 at the latest raises. *)
Lemma unparsable_structure_is_not_assessed (s : string) (summary : option string) t g :
  (forall mol, MolFromSmiles env s <> inr (Some mol)) ->
  (forall w, MolWt env None <> inr w) ->
  assess env s summary (DataFrame_single "SMILES" s) <> (t, inr g).
Proof.
  intros Hparse Hweight Ha.
  destruct (assess_structure env _ _ _ _ _ Ha)
    as (_ & _ & _ & _ & _ & _ & (smis & Hs & Hw) & _).
  cbn in Hs. inversion Hs; subst smis. clear Hs.
  inversion Hw as [| smi w l l' (s' & mol & Es & Hp & Hm) _]; subst.
  inversion Es; subst s'.
  destruct mol as [mol |]; [now apply (Hparse mol) | now apply (Hweight w)].
Qed.

(** C1.  A structure string given in single-input mode (no [".xlsx"] in it)
    that the parser does not turn into a molecule, be it that the parser
    returns [None] or that it raises, ends the run abnormally with exit
    status 1: the run is stopped by an uncaught exception of a library, at
    the latest where the molecular weight of the missing molecule is asked
    for.  The console names the string (["Input value: <string>"]), and no
    spreadsheet is written: the trace of the run holds console messages
    only. *)
Theorem invalid_structure_ends_the_run (given : Namespace) (s : string) :
  (arg_smiles given = Some s /\ arg_filename given = None)
  \/ (arg_smiles given = None /\ arg_filename given = Some s) ->
  contains ".xlsx" s = false ->
  (forall mol, MolFromSmiles env s <> inr (Some mol)) ->
  (forall w, MolWt env None <> inr w) ->
  exists t e,
    main env given = (t, inl (Traceback e)) /\
    exit_status (Traceback e) = 1%Z /\
    In (Print ("Input value: " ++ s)) t /\
    Forall printed t /\
    forall path table, ~ In (ToExcel path table) t.
Proof.
  intros Hone Hmode Hparse Hweight.
  assert (Hpc : exists t h, predictions_and_consensus env given = (t, inl h)).
  { destruct (predictions_and_consensus env given) as [t [h | g]] eqn:Hpc; [eauto |].
    exfalso. unfold predictions_and_consensus in Hpc.
    repeat step_ok Hpc. destruct a0 as [[v su] df0].
    apply read_input_ok in Hstep0. destruct Hstep0 as (_ & _ & Hflag & Hload).
    assert (Ev : v = s).
    { destruct Hone as [[Es Ef] | [Es Ef]]; rewrite Es in Hflag;
        [destruct Hflag | rewrite Ef in Hflag; inversion Hflag]; congruence. }
    subst v. rewrite Hmode in Hload. subst df0. cbn [fst snd] in Hpc.
    eapply unparsable_structure_is_not_assessed; eassumption. }
  destruct Hpc as (t & h & Hpc).
  assert (Hmain : main env given = (t, inl h)) by (unfold main; now rewrite Hpc).
  assert (Hprints : Forall printed t).
  { assert (Hp := predictions_and_consensus_only_prints env given).
    unfold only_prints in Hp. now rewrite Hpc in Hp. }
  assert (Hnamed : In (Print ("Input value: " ++ s)) t).
  { rewrite (main_with_one_option env given s Hone) in Hmain.
    unfold bind at 1 2, print, emit in Hmain.
    destruct (bind (load_input env (Some s)) _) as [t' r].
    inversion Hmain. cbn. auto. }
  destruct h as [c | e].
  - exfalso. rewrite (main_with_one_option env given s Hone) in Hmain.
    revert Hmain. apply no_exit_bind; [apply no_exit_emit | intros _].
    apply no_exit_bind; [apply no_exit_emit | intros _].
    apply no_exit_after_the_command_line.
  - exists t, e. repeat split; try assumption.
    intros path table Hin. rewrite Forall_forall in Hprints.
    destruct (Hprints _ Hin) as [text E]. discriminate E.
Qed.

End Unparsable.

Lemma invalid_structure_ends_the_run_witness :
  contains ".xlsx" "C1CC(" = false /\
  MolFromSmiles Demo.env "C1CC(" = inr None /\
  MolWt Demo.env None = inl "ArgumentError" /\
  exists t e,
    main Demo.env (Demo.single "C1CC(") = (t, inl (Traceback e)) /\
    exit_status (Traceback e) = 1%Z /\
    In (Print "Input value: C1CC(") t /\
    Forall printed t /\
    forall path table, ~ In (ToExcel path table) t.
Proof.
  split; [reflexivity |]. split; [reflexivity |]. split; [reflexivity |].
  apply (invalid_structure_ends_the_run Demo.env (Demo.single "C1CC(") "C1CC(").
  - left. split; reflexivity.
  - reflexivity.
  - intros mol. discriminate.
  - intros w. discriminate.
Defined.

(* ------------------------------------------------------------------ *)
(** * When the spreadsheet is written *)

Lemma split_at_the_write (l1 r1 pre post : list event) p tb path table :
  Forall printed l1 ->
  (forall p' tb', ~ In (ToExcel p' tb') r1) ->
  (l1 ++ ToExcel p tb :: r1 = pre ++ ToExcel path table :: post)%list ->
  pre = l1 /\ post = r1.
Proof.
  intros Hl Hr. revert pre. induction Hl as [| x l1 [text ->] Hl IH]; intros pre E.
  - destruct pre as [| y pre]; cbn in E; inversion E; subst; [auto |].
    exfalso. apply (Hr path table). apply in_or_app. right. now left.
  - destruct pre as [| y pre]; cbn in E; inversion E; subst.
    destruct (IH pre H1) as [-> ->]. auto.
Qed.

Section Written.

Context {Mol : Type}.
Variable env : Env Mol.

(** X3.  The script writes at most one spreadsheet in a run, and writes it
    last but for showing it: wherever a run has written a spreadsheet, all
    five progress messages, and nothing else, came before, so every stage up
    to the applicability domain had succeeded, and nothing is written after
    it.  A run that ends normally has written exactly one spreadsheet and
    then printed the table it wrote. *)
Theorem spreadsheet_written_after_every_stage (given : Namespace) :
  (forall pre path table post,
     fst (main env given) = (pre ++ ToExcel path table :: post)%list ->
     (exists v, pre = progress v) /\
     forall path' table', ~ In (ToExcel path' table') post) /\
  (forall g, snd (main env given) = inr g ->
     exists v path table,
       fst (main env given)
       = (progress v ++ [ToExcel path table; PrintFrame table])%list).
Proof.
  destruct (main env given) as [t [h | g]] eqn:Hmain; cbn [fst snd].
  - assert (Hp : Forall printed t).
    { unfold main in Hmain. apply bind_fail in Hmain.
      assert (Hp := predictions_and_consensus_only_prints env given).
      unfold only_prints in Hp.
      destruct Hmain as [H | (t1 & pre & t2 & H & Hr & ->)].
      - now rewrite H in Hp.
      - rewrite H in Hp. apply round_and_export_fails_silently in Hr. subst t2.
        now rewrite app_nil_r. }
    split; [| discriminate].
    intros pre path table post E. exfalso. rewrite Forall_forall in Hp.
    destruct (Hp (ToExcel path table)) as [text Ht]; [| discriminate Ht].
    rewrite E. apply in_or_app. right. now left.
  - assert (Ht : exists v path table,
               t = (progress v ++ [ToExcel path table; PrintFrame table])%list).
    { destruct (main_structure env _ _ _ Hmain)
        as (v & s & df0 & pre & t2 & _ & _ & _ & _ & _ & Hr & ->).
      destruct (round_and_export_structure env _ _ _ Hr)
        as (_ & _ & _ & _ & _ & _ & He).
      unfold export_events in He. destruct (truthy (summary pre)).
      - destruct He as (table & _ & ->). eauto.
      - subst t2. eauto. }
    split; [| intros g' _; exact Ht].
    destruct Ht as (v & p & tb & ->).
    intros pre path table post E.
    apply split_at_the_write in E.
    + destruct E as [-> ->]. split; [eauto |].
      intros path' table' [H | []]. discriminate H.
    + unfold progress. repeat constructor; eexists; reflexivity.
    + intros p' tb' [H | []]. discriminate H.
Qed.

End Written.

Lemma spreadsheet_written_after_every_stage_witness :
  exists t g v path table,
    main Demo.env (mkArgs None (Some "batch.xlsx") (Some "0")) = (t, inr g) /\
    t = (progress v ++ [ToExcel path table; PrintFrame table])%list.
Proof.
  destruct demo_batch_runs as (t & g & H & _).
  destruct (spreadsheet_written_after_every_stage Demo.env
              (mkArgs None (Some "batch.xlsx") (Some "0"))) as [_ Hafter].
  rewrite H in Hafter. cbn [fst snd] in Hafter.
  destruct (Hafter g eq_refl) as (v & path & table & Ht).
  exists t, g, v, path, table. split; assumption.
Defined.
